(** * Wallet-App: the wallet service and its screen

    A shallow embedding of the wallet service of the application
    (src/services/walletService.ts): the storage functions
    ([saveWallet], [loadWallet], [deleteWallet]), the chain-data lookups
    ([getWalletBalance], [getTransactionHistory]) and the two wallet
    constructors ([generateWallet], [importWalletFromMnemonic]); and of
    the handlers of the screen that calls it ([WalletScreen]).

    The service is asynchronous JavaScript.  It is embedded as functions
    in a state-and-exception monad over a [World]: the contents of
    AsyncStorage, the answers of the remote API, the random source, and
    the trace of the effects issued so far.  An [await] of a rejected
    promise is a thrown error. *)

From Stdlib Require Import ZArith NArith List String Ascii Floats Lia Bool.
From stdpp Require Import gmap list.
From Bignums Require Import BigN.
Import ListNotations.

Local Open Scope Z_scope.
Set Warnings "-register-all".

(** ** JavaScript values *)

Module Js.

(** A JavaScript string is a sequence of UTF-16 code units. *)
Abbreviation jsstring := (list N).

(** The code units of an ASCII literal. *)
Definition lit (s : string) : jsstring :=
  List.map N_of_ascii (list_ascii_of_string s).

(** An [Error] object: its [name] and its [message]. *)
Record JsError := mkError { err_name : string; err_message : string }.

Definition Error (message : string) : JsError := mkError "Error" message.
Definition TypeError (message : string) : JsError := mkError "TypeError" message.
Definition SyntaxError (message : string) : JsError := mkError "SyntaxError" message.

(** How a call ends: with a value, or with a thrown error. *)
Inductive outcome (A : Type) :=
| Returned (a : A)
| Thrown (e : JsError).
Arguments Returned {A} a.
Arguments Thrown {A} e.

(** The values a JSON text can denote, together with [undefined]. An
    object is the list of its own properties in creation order. *)
Inductive JsValue :=
| JUndefined
| JNull
| JBool (b : bool)
| JNumber (f : float)
| JString (s : jsstring)
| JArray (elements : list JsValue)
| JObject (properties : list (jsstring * JsValue)).

Definition jsstring_eqb (a b : jsstring) : bool :=
  bool_decide (a = b).

(** [o[k]] for an own property of an object literal. *)
Fixpoint own_property (props : list (jsstring * JsValue)) (k : jsstring)
  : option JsValue :=
  match props with
  | [] => None
  | (k', v) :: rest => if jsstring_eqb k' k then Some v else own_property rest k
  end.

(** CreateDataProperty: a later member with the same key replaces the
    value of the earlier one. *)
Fixpoint define_property (props : list (jsstring * JsValue)) (k : jsstring)
  (v : JsValue) : list (jsstring * JsValue) :=
  match props with
  | [] => [(k, v)]
  | (k', v') :: rest =>
      if jsstring_eqb k' k then (k', v) :: rest
      else (k', v') :: define_property rest k v
  end.

(** [v.k]: reading a property of [undefined] or [null] throws a
    TypeError; a property that is not there reads as [undefined].  The
    properties of the built-in prototypes are not modelled: the service
    only reads [balance] and [txs], which no prototype defines. *)
Definition get_property (v : JsValue) (k : jsstring) : JsValue + JsError :=
  match v with
  | JUndefined => inr (TypeError "Cannot read properties of undefined")
  | JNull => inr (TypeError "Cannot read properties of null")
  | JObject props =>
      inl (match own_property props k with Some x => x | None => JUndefined end)
  | _ => inl JUndefined
  end.

(** ToBoolean. *)
Definition ToBoolean (v : JsValue) : bool :=
  match v with
  | JUndefined | JNull => false
  | JBool b => b
  | JNumber f => negb (PrimFloat.is_nan f || PrimFloat.eqb f PrimFloat.zero)
  | JString s => match s with [] => false | _ => true end
  | JArray _ | JObject _ => true
  end.

(** [a || b]. *)
Definition logical_or (a b : JsValue) : JsValue :=
  if ToBoolean a then a else b.

(** The double nearest to [m * 2^e]. *)
Definition double_of_Z (m e : Z) : float :=
  SF2Prim (binary_normalize prec emax m e false).

(** ** JSON.stringify on strings *)

Definition hex_digit (n : N) : N :=
  (if n <? 10 then 48 + n else 87 + n)%N.

(** UnicodeEscape: [\uXXXX] with lowercase hexadecimal digits. *)
Definition UnicodeEscape (c : N) : jsstring :=
  [92; 117;
   hex_digit (N.shiftr c 12 mod 16); hex_digit (N.shiftr c 8 mod 16);
   hex_digit (N.shiftr c 4 mod 16); hex_digit (c mod 16)]%N.

Definition is_leading_surrogate (c : N) : bool :=
  ((55296 <=? c) && (c <=? 56319))%N.
Definition is_trailing_surrogate (c : N) : bool :=
  ((56320 <=? c) && (c <=? 57343))%N.

(** The text QuoteJSONString emits for one code unit that is not part of
    a surrogate pair. *)
Definition quote_unit (c : N) : jsstring :=
  (if c =? 8 then [92; 98]
   else if c =? 9 then [92; 116]
   else if c =? 10 then [92; 110]
   else if c =? 12 then [92; 102]
   else if c =? 13 then [92; 114]
   else if c =? 34 then [92; 34]
   else if c =? 92 then [92; 92]
   else if (c <? 32) || is_leading_surrogate c || is_trailing_surrogate c
        then UnicodeEscape c
   else [c])%N.

(** The characters between the quotes of QuoteJSONString: a well-formed
    surrogate pair is copied, a lone surrogate is escaped. *)
Fixpoint quote_chars (s : jsstring) : jsstring :=
  match s with
  | [] => []
  | c :: rest =>
      if is_leading_surrogate c then
        match rest with
        | d :: rest' =>
            if is_trailing_surrogate d then c :: d :: quote_chars rest'
            else UnicodeEscape c ++ quote_chars rest
        | [] => UnicodeEscape c
        end
      else quote_unit c ++ quote_chars rest
  end.

Definition QuoteJSONString (s : jsstring) : jsstring :=
  [34%N] ++ quote_chars s ++ [34%N].

(** ** JSON.parse *)

Definition is_ws (c : N) : bool :=
  ((c =? 9) || (c =? 10) || (c =? 13) || (c =? 32))%N.

Fixpoint skip_ws (s : jsstring) : jsstring :=
  match s with
  | c :: rest => if is_ws c then skip_ws rest else s
  | [] => []
  end.

Fixpoint strip_prefix (p s : jsstring) : option jsstring :=
  match p, s with
  | [], _ => Some s
  | a :: p', b :: s' => if (a =? b)%N then strip_prefix p' s' else None
  | _ :: _, [] => None
  end.

Definition hex_value (c : N) : option N :=
  (if (48 <=? c) && (c <=? 57) then Some (c - 48)
   else if (97 <=? c) && (c <=? 102) then Some (c - 87)
   else if (65 <=? c) && (c <=? 70) then Some (c - 55)
   else None)%N.

Definition hex4 (a b c d : N) : option N :=
  match hex_value a, hex_value b, hex_value c, hex_value d with
  | Some x, Some y, Some z, Some w => Some (((x * 16 + y) * 16 + z) * 16 + w)%N
  | _, _, _, _ => None
  end.

(** The code unit a single-character escape stands for. *)
Definition simple_escape (c : N) : option N :=
  (if c =? 34 then Some 34
   else if c =? 92 then Some 92
   else if c =? 47 then Some 47
   else if c =? 98 then Some 8
   else if c =? 102 then Some 12
   else if c =? 110 then Some 10
   else if c =? 114 then Some 13
   else if c =? 116 then Some 9
   else None)%N.

(** The characters of a JSON string after its opening quote, up to and
    including the closing one. [acc] holds what was read, reversed. *)
Fixpoint parse_string_chars (s acc : jsstring) : option (jsstring * jsstring) :=
  match s with
  | [] => None
  | c :: r =>
      if (c =? 34)%N then Some (rev acc, r)
      else if (c =? 92)%N then
        match r with
        | e :: r' =>
            if (e =? 117)%N then
              match r' with
              | h1 :: h2 :: h3 :: h4 :: r'' =>
                  match hex4 h1 h2 h3 h4 with
                  | Some u => parse_string_chars r'' (u :: acc)
                  | None => None
                  end
              | _ => None
              end
            else
              match simple_escape e with
              | Some u => parse_string_chars r' (u :: acc)
              | None => None
              end
        | [] => None
        end
      else if (c <? 32)%N then None
      else parse_string_chars r (c :: acc)
  end.

Definition is_digit (c : N) : bool := ((48 <=? c) && (c <=? 57))%N.

(** A run of decimal digits: its value continued from [acc], how many
    digits were read, and the rest. *)
Fixpoint parse_digits (s : jsstring) (acc : Z) (n : Z) : Z * Z * jsstring :=
  match s with
  | c :: r =>
      if is_digit c then parse_digits r (acc * 10 + Z.of_N (c - 48)) (n + 1)
      else (acc, n, s)
  | [] => (acc, n, [])
  end.

(** The double nearest to [m * 10^e10], for [0 <= m]: exact when the
    exponent is not negative, and otherwise the rounding of a quotient
    with more than 54 significant bits and a sticky bit. *)
Definition decimal_to_double (m e10 : Z) : float :=
  if m =? 0 then PrimFloat.zero
  else if 0 <=? e10 then double_of_Z (m * 10 ^ e10) 0
  else
    let d := 10 ^ (- e10) in
    let s := Z.max 0 (Z.log2 d + 58 - Z.log2 m) in
    let q := (m * 2 ^ s) / d in
    let sticky := if (m * 2 ^ s) mod d =? 0 then 0 else 1 in
    double_of_Z (2 * q + sticky) (- (s + 1)).

(** A JSON number: [-? int frac? exp?]. *)
Definition parse_number (s : jsstring) : option (float * jsstring) :=
  let (neg, s1) := match s with
                   | c :: r => if (c =? 45)%N then (true, r) else (false, s)
                   | [] => (false, s)
                   end in
  match s1 with
  | [] => None
  | c :: r =>
      if negb (is_digit c) then None
      else
        (* a leading zero stands alone *)
        let '(int, _, s2) :=
          if (c =? 48)%N then (0, 1, r) else parse_digits s1 0 0 in
        let frac :=
          match s2 with
          | dot :: r2 =>
              if (dot =? 46)%N then
                let '(m, n, s3) := parse_digits r2 int 0 in
                if n =? 0 then None else Some (m, n, s3)
              else Some (int, 0, s2)
          | [] => Some (int, 0, s2)
          end in
        match frac with
        | None => None
        | Some (m, nfrac, s3) =>
            let exp :=
              match s3 with
              | e :: r3 =>
                  if ((e =? 101) || (e =? 69))%N then
                    let (eneg, r4) :=
                      match r3 with
                      | sg :: r4 =>
                          if (sg =? 45)%N then (true, r4)
                          else if (sg =? 43)%N then (false, r4)
                          else (false, r3)
                      | [] => (false, r3)
                      end in
                    let '(x, n, s4) := parse_digits r4 0 0 in
                    if n =? 0 then None
                    else Some ((if eneg then - x else x), s4)
                  else Some (0, s3)
              | [] => Some (0, s3)
              end in
            match exp with
            | None => None
            | Some (x, s4) =>
                let f := decimal_to_double m (x - nfrac) in
                Some ((if neg then PrimFloat.opp f else f), s4)
            end
        end
  end.

(** A JSON value, with the white space before it. The fuel bounds the
    nesting depth plus the number of members read; [JSON_parse] gives
    more than the length of the text, which no text exhausts. *)
Fixpoint parse_value (fuel : nat) (s : jsstring) : option (JsValue * jsstring) :=
  match fuel with
  | O => None
  | S fuel' =>
      let s := skip_ws s in
      match s with
      | [] => None
      | c :: r =>
          if (c =? 34)%N then
            match parse_string_chars r [] with
            | Some (str, r') => Some (JString str, r')
            | None => None
            end
          else if (c =? 91)%N then
            match skip_ws r with
            | c' :: r' =>
                if (c' =? 93)%N then Some (JArray [], r')
                else parse_elements fuel' r []
            | [] => None
            end
          else if (c =? 123)%N then
            match skip_ws r with
            | c' :: r' =>
                if (c' =? 125)%N then Some (JObject [], r')
                else parse_members fuel' r []
            | [] => None
            end
          else
            match strip_prefix (lit "null") s with
            | Some r' => Some (JNull, r')
            | None =>
            match strip_prefix (lit "true") s with
            | Some r' => Some (JBool true, r')
            | None =>
            match strip_prefix (lit "false") s with
            | Some r' => Some (JBool false, r')
            | None =>
            match parse_number s with
            | Some (f, r') => Some (JNumber f, r')
            | None => None
            end end end end
      end
  end

(** The elements of an array after its opening bracket or a comma. *)
with parse_elements (fuel : nat) (s : jsstring) (acc : list JsValue)
  : option (JsValue * jsstring) :=
  match fuel with
  | O => None
  | S fuel' =>
      match parse_value fuel' s with
      | Some (v, r) =>
          match skip_ws r with
          | c :: r' =>
              if (c =? 44)%N then parse_elements fuel' r' (v :: acc)
              else if (c =? 93)%N then Some (JArray (rev (v :: acc)), r')
              else None
          | [] => None
          end
      | None => None
      end
  end

(** The members of an object after its opening brace or a comma. *)
with parse_members (fuel : nat) (s : jsstring) (acc : list (jsstring * JsValue))
  : option (JsValue * jsstring) :=
  match fuel with
  | O => None
  | S fuel' =>
      match skip_ws s with
      | q :: r0 =>
          if (q =? 34)%N then
            match parse_string_chars r0 [] with
            | Some (k, r1) =>
                match skip_ws r1 with
                | colon :: r2 =>
                    if (colon =? 58)%N then
                      match parse_value fuel' r2 with
                      | Some (v, r3) =>
                          let acc' := define_property acc k v in
                          match skip_ws r3 with
                          | c :: r4 =>
                              if (c =? 44)%N then parse_members fuel' r4 acc'
                              else if (c =? 125)%N then Some (JObject acc', r4)
                              else None
                          | [] => None
                          end
                      | None => None
                      end
                    else None
                | [] => None
                end
            | None => None
            end
          else None
      | [] => None
      end
  end.

(** ** ToNumber *)

(** StrWhiteSpaceChar: white space and line terminators. *)
Definition is_StrWhiteSpaceChar (c : N) : bool :=
  ((c =? 9) || (c =? 10) || (c =? 11) || (c =? 12) || (c =? 13) || (c =? 32)
   || (c =? 160) || (c =? 5760) || ((8192 <=? c) && (c <=? 8202))
   || (c =? 8232) || (c =? 8233) || (c =? 8239) || (c =? 8287)
   || (c =? 12288) || (c =? 65279))%N.

Fixpoint trim_start (s : jsstring) : jsstring :=
  match s with
  | c :: rest => if is_StrWhiteSpaceChar c then trim_start rest else s
  | [] => []
  end.

Definition trim (s : jsstring) : jsstring :=
  rev (trim_start (rev (trim_start s))).

(** The value of a digit in a radix up to 16, if it is one. *)
Definition digit_in_radix (radix c : N) : option N :=
  match hex_value c with
  | Some d => if (d <? radix)%N then Some d else None
  | None => None
  end.

(** A non-empty run of digits in [radix] that ends the text. *)
Fixpoint radix_digits (radix : N) (s : jsstring) (acc : Z) : option Z :=
  match s with
  | [] => Some acc
  | c :: rest =>
      match digit_in_radix radix c with
      | Some d => radix_digits radix rest (acc * Z.of_N radix + Z.of_N d)
      | None => None
      end
  end.

(** StrUnsignedDecimalLiteral read to the end of the text:
    [Infinity], [digits . digits? exp?], [. digits exp?], [digits exp?]. *)
Definition unsigned_decimal (s : jsstring) : option float :=
  if jsstring_eqb s (lit "Infinity") then Some PrimFloat.infinity
  else
    let '(int, nint, s1) := parse_digits s 0 0 in
    let '(m, nfrac, s2) :=
      match s1 with
      | dot :: r =>
          if (dot =? 46)%N then parse_digits r int 0 else (int, 0, s1)
      | [] => (int, 0, s1)
      end in
    if (nint + nfrac =? 0) then None
    else
      match s2 with
      | [] => Some (decimal_to_double m (- nfrac))
      | e :: r =>
          if ((e =? 101) || (e =? 69))%N then
            let (eneg, r') :=
              match r with
              | sg :: r' =>
                  if (sg =? 45)%N then (true, r')
                  else if (sg =? 43)%N then (false, r')
                  else (false, r)
              | [] => (false, r)
              end in
            match parse_digits r' 0 0 with
            | (x, n, []) =>
                if n =? 0 then None
                else Some (decimal_to_double m ((if eneg then - x else x) - nfrac))
            | _ => None
            end
          else None
      end.

(** StringToNumber: the empty or blank string is [+0], a text that is
    no StringNumericLiteral is [NaN]. *)
Definition StringToNumber (s : jsstring) : float :=
  let t := trim s in
  match t with
  | [] => PrimFloat.zero
  | c :: r =>
      let radix_literal radix :=
        match r with
        | _ :: (_ :: _) as ds =>
            match radix_digits radix ds 0 with
            | Some v => double_of_Z v 0
            | None => PrimFloat.nan
            end
        | _ => PrimFloat.nan
        end in
      let prefixed (x y : N) :=
        match r with
        | p :: _ => (c =? 48)%N && ((p =? x) || (p =? y))%N
        | [] => false
        end in
      if prefixed 120%N 88%N then radix_literal 16%N
      else if prefixed 111%N 79%N then radix_literal 8%N
      else if prefixed 98%N 66%N then radix_literal 2%N
      else if (c =? 45)%N then
        match unsigned_decimal r with
        | Some f => PrimFloat.opp f
        | None => PrimFloat.nan
        end
      else if (c =? 43)%N then
        match unsigned_decimal r with Some f => f | None => PrimFloat.nan end
      else
        match unsigned_decimal t with Some f => f | None => PrimFloat.nan end
  end.

(** ToPrimitive on the values JSON can denote.  An object is converted
    by the [toString] of [Object.prototype], unless it has a [toString]
    property of its own: no value of JSON is callable, and the
    conversion throws a TypeError.  An array is converted through its
    [join], which converts each element that is not [null]: the first
    element that cannot be converted throws.  [primitive_error] is that
    error, if there is one. *)
Fixpoint primitive_error (v : JsValue) : option JsError :=
  match v with
  | JObject props =>
      match own_property props (lit "toString") with
      | Some _ => Some (TypeError "Cannot convert object to primitive value")
      | None => None
      end
  | JArray elements =>
      (fix first_error (l : list JsValue) : option JsError :=
         match l with
         | [] => None
         | element :: rest =>
             match primitive_error element with
             | Some e => Some e
             | None => first_error rest
             end
         end) elements
  | _ => None
  end.

(** The number of a value whose conversion does not throw.  An array
    converts through its [join]: the empty array is the empty string,
    an array of one element is the string of that element (the empty
    string for [undefined] and [null], and a number reads back from its
    own string, the sign of zero apart), and a longer one has a comma in
    it.  An object converts through ["[object Object]"]. *)
Fixpoint number_of (v : JsValue) : float :=
  match v with
  | JUndefined => PrimFloat.nan
  | JNull => PrimFloat.zero
  | JBool b => if b then PrimFloat.one else PrimFloat.zero
  | JNumber f => f
  | JString s => StringToNumber s
  | JArray [] => PrimFloat.zero
  | JArray [x] =>
      match x with
      | JUndefined | JNull => PrimFloat.zero
      | JBool _ => PrimFloat.nan
      | JNumber f => if PrimFloat.eqb f PrimFloat.zero then PrimFloat.zero else f
      | JString s => StringToNumber s
      | JArray _ => number_of x
      | JObject _ => PrimFloat.nan
      end
  | JArray (_ :: _ :: _) => PrimFloat.nan
  | JObject _ => PrimFloat.nan
  end.

(** ToNumber. *)
Definition ToNumber (v : JsValue) : outcome float :=
  match primitive_error v with
  | Some e => Thrown e
  | None => Returned (number_of v)
  end.

(** ** JSON.stringify of an object whose properties are strings *)

Definition serialize_member (m : jsstring * jsstring) : jsstring :=
  QuoteJSONString (fst m) ++ [58%N] ++ QuoteJSONString (snd m).

Fixpoint serialize_members (ms : list (jsstring * jsstring)) : jsstring :=
  match ms with
  | [] => []
  | [m] => serialize_member m
  | m :: rest => serialize_member m ++ [44%N] ++ serialize_members rest
  end.

(** SerializeJSONObject without indentation. *)
Definition SerializeJSONObject (ms : list (jsstring * jsstring)) : jsstring :=
  [123%N] ++ serialize_members ms ++ [125%N].

(** ** Buffers *)

(** The content of a Buffer or Uint8Array: its bytes. *)
Abbreviation bytes := (list N).

(** [buf.toString('hex')] *)
Definition toString_hex (buf : bytes) : jsstring :=
  flat_map (fun b => [hex_digit (N.shiftr b 4 mod 16); hex_digit (b mod 16)]%N) buf.

(** [JSON.parse(text)]: [None] stands for the SyntaxError it throws. *)
Definition JSON_parse (text : jsstring) : option JsValue :=
  match parse_value (S (length text)) text with
  | Some (v, rest) => match skip_ws rest with [] => Some v | _ => None end
  | None => None
  end.

End Js.

(** ** The platform: promises, AsyncStorage, fetch, the console *)

Module Platform.
Import Js.

(** What [fetch] resolves or rejects with: a network failure, or a
    response with its status and its body (or the error reading it). *)
Inductive FetchResult :=
| NetworkFailure (e : JsError)
| Responded (status : Z) (body : jsstring + JsError).

(** The effects the service issues, in the order it issues them. *)
Inductive Event :=
| EvRandomBytes (n : nat)
| EvFetch (url : jsstring)
| EvSetItem (key value : jsstring)
| EvGetItem (key : jsstring)
| EvRemoveItem (key : jsstring)
| EvConsoleError (label : string) (e : JsError).

(** The world the service runs in.  [storage] is the content of
    AsyncStorage.  [storage_faults] schedules the failures of the
    storage: each storage request takes the head of the list, and is
    rejected with the error found there, leaving the content as it
    was; a request served on an empty list succeeds. *)
Record World := mkWorld {
  storage : gmap jsstring jsstring;
  storage_faults : list (option JsError);
  remote : jsstring -> FetchResult;
  random_source : nat -> N;
  random_used : nat;
  trace : list Event
}.

(** A computation that may await: from a world to its outcome and the
    world it leaves. *)
Definition Promise (A : Type) : Type := World -> outcome A * World.

Definition ret {A} (a : A) : Promise A := fun w => (Returned a, w).
Definition throw {A} (e : JsError) : Promise A := fun w => (Thrown e, w).
Definition bind {A B} (m : Promise A) (k : A -> Promise B) : Promise B :=
  fun w => match m w with
           | (Returned a, w') => k a w'
           | (Thrown e, w') => (Thrown e, w')
           end.
(** [try { m } catch (error) { handler error }] *)
Definition try_catch {A} (m : Promise A) (handler : JsError -> Promise A)
  : Promise A :=
  fun w => match m w with
           | (Returned a, w') => (Returned a, w')
           | (Thrown e, w') => handler e w'
           end.

Notation "'let*' x ':=' m 'in' k" := (bind m (fun x => k))
  (at level 10, x binder, k at level 200).

Definition emit (ev : Event) : Promise unit :=
  fun w => (Returned tt,
            mkWorld (storage w) (storage_faults w) (remote w)
                    (random_source w) (random_used w) (trace w ++ [ev])).

Definition console_error (label : string) (e : JsError) : Promise unit :=
  emit (EvConsoleError label e).

(** The fault scheduled for the next storage request. *)
Definition next_fault (w : World) : option JsError :=
  match storage_faults w with
  | f :: _ => f
  | [] => None
  end.

Definition storage_request {A} (served : gmap jsstring jsstring -> A * gmap jsstring jsstring)
  : Promise A :=
  fun w =>
    let w' st := mkWorld st (tail (storage_faults w)) (remote w)
                         (random_source w) (random_used w) (trace w) in
    match next_fault w with
    | Some e => (Thrown e, w' (storage w))
    | None => let (a, st) := served (storage w) in (Returned a, w' st)
    end.

Definition AsyncStorage_setItem (key value : jsstring) : Promise unit :=
  let* _ := emit (EvSetItem key value) in
  storage_request (fun st => (tt, <[key := value]> st)).

(** [getItem] resolves with the stored string, or with [null]. *)
Definition AsyncStorage_getItem (key : jsstring) : Promise (option jsstring) :=
  let* _ := emit (EvGetItem key) in
  storage_request (fun st => (st !! key, st)).

Definition AsyncStorage_removeItem (key : jsstring) : Promise unit :=
  let* _ := emit (EvRemoveItem key) in
  storage_request (fun st => (tt, delete key st)).

Record Response := mkResponse {
  status : Z;
  body : jsstring + JsError
}.

Definition fetch (url : jsstring) : Promise Response :=
  let* _ := emit (EvFetch url) in
  fun w => match remote w url with
           | NetworkFailure e => (Thrown e, w)
           | Responded st b => (Returned (mkResponse st b), w)
           end.

(** [response.ok]: the status is in the range 200-299. *)
Definition ok (r : Response) : bool :=
  (200 <=? status r) && (status r <=? 299).

(** [response.json()]: the body read and parsed as JSON. *)
Definition json (r : Response) : Promise JsValue :=
  match body r with
  | inr e => throw e
  | inl text =>
      match JSON_parse text with
      | Some v => ret v
      | None => throw (SyntaxError "JSON Parse error")
      end
  end.

(** [crypto.getRandomValues] on [n] bytes. *)
Definition randomBytes (n : nat) : Promise (list N) :=
  let* _ := emit (EvRandomBytes n) in
  fun w => (Returned (List.map (fun i => random_source w (random_used w + i)%nat mod 256)%N
                               (seq 0 n)),
            mkWorld (storage w) (storage_faults w) (remote w)
                    (random_source w) (random_used w + n)%nat (trace w)).

End Platform.

(** ** The packages the service imports *)

Module Packages.
Import Js.

(** A network of bitcoinjs-lib: its version bytes. *)
Record Network := mkNetwork {
  bip32_public : N;
  bip32_private : N;
  pubKeyHash : N;
  scriptHash : N;
  wif_prefix : N
}.

(** [bitcoin.networks.testnet] and [bitcoin.networks.bitcoin]. *)
Definition networks_testnet : Network :=
  mkNetwork 0x043587cf 0x04358394 0x6f 0xc4 0xef.
Definition networks_bitcoin : Network :=
  mkNetwork 0x0488b21e 0x0488ade4 0x00 0x05 0x80.

(** The curve operations bip32 and bitcoinjs-lib ask of an ECC library
    (TinySecp256k1Interface).  A function throws on an argument of the
    wrong shape, and returns [null] where the result is not a key. *)
Record TinySecp256k1 := mkEcc {
  isPoint : bytes -> bool;
  isPrivate : bytes -> bool;
  pointFromScalar : bytes -> option bool -> outcome (option bytes);
  pointAddScalar : bytes -> bytes -> option bool -> outcome (option bytes);
  privateAdd : bytes -> bytes -> outcome (option bytes);
  sign : bytes -> bytes -> option bytes -> outcome bytes;
  verify : bytes -> bytes -> bytes -> option bool -> outcome bool;
  isXOnlyPoint : bytes -> bool;
  xOnlyPointAddTweak : bytes -> bytes -> outcome (option (bytes * N))
}.

(** A node of a BIP32 tree. *)
Record BIP32Node := mkNode {
  node_privateKey : option bytes;
  node_publicKey : bytes;
  node_chainCode : bytes;
  node_network : Network;
  node_parentFingerprint : N
}.

(** What [BIP32Factory(ecc)] returns, with [node.derivePath(path)]. *)
Record BIP32API := mkBIP32 {
  fromSeed : bytes -> Network -> outcome BIP32Node;
  derivePath : BIP32Node -> jsstring -> outcome BIP32Node
}.

(** A key pair of bitcoinjs-lib. *)
Record ECPair := mkECPair {
  pair_privateKey : bytes;
  pair_compressed : bool;
  pair_network : Network
}.

(** The functions of bip39, bip32, bitcoinjs-lib and
    @bitcoinerlab/secp256k1 that the service calls.  Their code is not
    part of the repository: the service is verified for any
    implementation of them, and [Reference] gives the one the published
    packages define, where [bitcoin.ECPair] is missing and its
    [fromPrivateKey] throws. [entropyToMnemonic] is what
    [bip39.generateMnemonic()] applies to its 16 random bytes. *)
Class Imports := mkImports {
  bip39_entropyToMnemonic : bytes -> outcome jsstring;
  bip39_validateMnemonic : jsstring -> bool;
  bip39_mnemonicToSeed : jsstring -> outcome bytes;
  ecc : TinySecp256k1;
  BIP32Factory : TinySecp256k1 -> BIP32API;
  ECPair_fromPrivateKey : option bytes -> Network -> outcome ECPair;
  ECPair_toWIF : ECPair -> outcome jsstring;
  payments_p2pkh : bytes -> Network -> outcome jsstring
}.

End Packages.

(** ** src/services/walletService.ts *)

Module WalletService.
Import Js Platform Packages.

(** [Buffer.allocUnsafe(n)]: [n] bytes whose content is not specified. *)
Definition Buffer_allocUnsafe (n : nat) : bytes := replicate n 0%N.

(** Helper function to convert Buffer to Uint8Array: a Buffer is a
    Uint8Array already, and [new Uint8Array(buf)] has the same bytes. *)
Definition toUint8Array (buf : bytes) : bytes := buf.

(** Helper function to convert Uint8Array to Buffer: the loop
    [buffer[i] = arr[i]] for [i] below [arr.length]. *)
Definition toBuffer (arr : bytes) : bytes :=
  fold_left (fun buffer i => <[i := nth i arr 0%N]> buffer)
            (seq 0 (length arr)) (Buffer_allocUnsafe (length arr)).

(** [result ? toBuffer(result) : null] *)
Definition toBuffer_or_null (r : outcome (option bytes)) : outcome (option bytes) :=
  match r with
  | Returned (Some result) => Returned (Some (toBuffer result))
  | Returned None => Returned None
  | Thrown e => Thrown e
  end.

Definition outcome_map {A B} (f : A -> B) (r : outcome A) : outcome B :=
  match r with
  | Returned a => Returned (f a)
  | Thrown e => Thrown e
  end.

(** The adapter between Buffer (expected by bip32 and bitcoinjs-lib) and
    Uint8Array (used by the ECC library). *)
Definition eccAdapter (ecc : TinySecp256k1) : TinySecp256k1 := {|
  isPoint p := isPoint ecc (toUint8Array p);
  isPrivate d := isPrivate ecc (toUint8Array d);
  pointFromScalar d compressed :=
    toBuffer_or_null (pointFromScalar ecc (toUint8Array d) compressed);
  pointAddScalar p tweak compressed :=
    toBuffer_or_null
      (pointAddScalar ecc (toUint8Array p) (toUint8Array tweak) compressed);
  privateAdd d tweak :=
    toBuffer_or_null (privateAdd ecc (toUint8Array d) (toUint8Array tweak));
  sign hash d e :=
    outcome_map toBuffer
      (sign ecc (toUint8Array hash) (toUint8Array d)
            (match e with Some e => Some (toUint8Array e) | None => None end));
  verify hash Q signature strict :=
    verify ecc (toUint8Array hash) (toUint8Array Q) (toUint8Array signature) strict;
  isXOnlyPoint p := isXOnlyPoint ecc (toUint8Array p);
  xOnlyPointAddTweak p tweak :=
    match xOnlyPointAddTweak ecc (toUint8Array p) (toUint8Array tweak) with
    | Returned (Some (xOnlyPubkey, parity)) =>
        Returned (Some (toBuffer xOnlyPubkey, parity))
    | Returned None => Returned None
    | Thrown e => Thrown e
    end
|}.

(** Bitcoin network (mainnet or testnet) *)
Definition network : Network := networks_testnet.

Record Wallet := mkWallet {
  mnemonic : jsstring;
  privateKey : jsstring;
  publicKey : jsstring;
  address : jsstring;
  wif : jsstring
}.

Definition WALLET_STORAGE_KEY : jsstring := lit "@bitcoin_wallet".

(** [JSON.stringify(wallet)]: the five properties in the order of the
    object literal. *)
Definition JSON_stringify (wallet : Wallet) : jsstring :=
  SerializeJSONObject
    [(lit "mnemonic", mnemonic wallet);
     (lit "privateKey", privateKey wallet);
     (lit "publicKey", publicKey wallet);
     (lit "address", address wallet);
     (lit "wif", wif wallet)].

(** The object a wallet is, as a JavaScript value. *)
Definition wallet_object (wallet : Wallet) : JsValue :=
  JObject
    [(lit "mnemonic", JString (mnemonic wallet));
     (lit "privateKey", JString (privateKey wallet));
     (lit "publicKey", JString (publicKey wallet));
     (lit "address", JString (address wallet));
     (lit "wif", JString (wif wallet))].

(** A call that may throw, awaited or not. *)
Definition call {A} (r : outcome A) : Promise A :=
  match r with
  | Returned a => ret a
  | Thrown e => throw e
  end.

(** Save wallet to AsyncStorage *)
Definition saveWallet (wallet : Wallet) : Promise unit :=
  try_catch
    (AsyncStorage_setItem WALLET_STORAGE_KEY (JSON_stringify wallet))
    (fun error =>
       let* _ := console_error "Error saving wallet:" error in
       throw error).

(** Load wallet from AsyncStorage *)
Definition loadWallet : Promise JsValue :=
  try_catch
    (let* walletData := AsyncStorage_getItem WALLET_STORAGE_KEY in
     match walletData with
     | Some (c :: text) =>
         match JSON_parse (c :: text) with
         | Some v => ret v
         | None => throw (SyntaxError "JSON Parse error")
         end
     | Some [] | None => ret JNull
     end)
    (fun error =>
       let* _ := console_error "Error loading wallet:" error in
       ret JNull).

(** Delete wallet from storage *)
Definition deleteWallet : Promise unit :=
  try_catch
    (AsyncStorage_removeItem WALLET_STORAGE_KEY)
    (fun error =>
       let* _ := console_error "Error deleting wallet:" error in
       throw error).

(** Get wallet balance from blockchain API *)
Definition getWalletBalance (address : jsstring) : Promise float :=
  try_catch
    (let* response :=
       fetch (lit "https://api.blockcypher.com/v1/btc/test3/addrs/"
              ++ address ++ lit "/balance") in
     if negb (ok response) then throw (Error "Failed to fetch balance")
     else
       let* data := json response in
       match get_property data (lit "balance") with
       | inl balance =>
           let* satoshis := call (ToNumber balance) in
           ret (satoshis / 100000000)%float
       | inr e => throw e
       end)
    (fun error =>
       let* _ := console_error "Error fetching balance:" error in
       ret 0%float).

(** Get transaction history for an address *)
Definition getTransactionHistory (address : jsstring) : Promise JsValue :=
  try_catch
    (let* response :=
       fetch (lit "https://api.blockcypher.com/v1/btc/test3/addrs/"
              ++ address ++ lit "/full?limit=10") in
     if negb (ok response) then throw (Error "Failed to fetch transactions")
     else
       let* data := json response in
       match get_property data (lit "txs") with
       | inl txs => ret (logical_or txs (JArray []))
       | inr e => throw e
       end)
    (fun error =>
       let* _ := console_error "Error fetching transactions:" error in
       ret (JArray [])).

Section Derivation.
Context {imports : Imports}.

(** Initialize BIP32 with ECC library *)
Definition bip32 : BIP32API := BIP32Factory (eccAdapter ecc).

(** [bip39.generateMnemonic()]: the mnemonic of 128 bits from the
    random source. *)
Definition bip39_generateMnemonic : Promise jsstring :=
  let* entropy := randomBytes 16 in
  call (bip39_entropyToMnemonic entropy).

(** [privateKey.toString('hex')], where [privateKey] may be missing. *)
Definition toString_hex_of (key : option bytes) : outcome jsstring :=
  match key with
  | Some k => Returned (toString_hex k)
  | None => Thrown (TypeError "Cannot read properties of undefined")
  end.

(** Generate a new Bitcoin wallet with mnemonic phrase *)
Definition generateWallet : Promise Wallet :=
  (* Generate mnemonic (12 words) *)
  let* mnemonic := bip39_generateMnemonic in
  (* Convert mnemonic to seed *)
  let* seed := call (bip39_mnemonicToSeed mnemonic) in
  (* Create root from seed *)
  let* root := call (fromSeed bip32 seed network) in
  (* Derive account (m/44'/0'/0'/0/0 for Bitcoin) *)
  let path := lit "m/44'/0'/0'/0/0" in
  let* account := call (derivePath bip32 root path) in
  (* Get key pair *)
  let privateKey := node_privateKey account in
  let publicKey := node_publicKey account in
  (* Create key pair for address generation *)
  let* keyPair := call (ECPair_fromPrivateKey privateKey network) in
  (* Generate P2PKH address (legacy) *)
  let* address := call (payments_p2pkh publicKey network) in
  (* Get WIF (Wallet Import Format) *)
  let* wif := call (ECPair_toWIF keyPair) in
  let* privateKey_hex := call (toString_hex_of privateKey) in
  let wallet := mkWallet mnemonic privateKey_hex (toString_hex publicKey)
                         address wif in
  (* Save wallet to storage *)
  let* _ := saveWallet wallet in
  ret wallet.

(** Import wallet from mnemonic phrase *)
Definition importWalletFromMnemonic (mnemonic : jsstring) : Promise Wallet :=
  if negb (bip39_validateMnemonic mnemonic)
  then throw (Error "Invalid mnemonic phrase")
  else
    (* Convert mnemonic to seed *)
    let* seed := call (bip39_mnemonicToSeed mnemonic) in
    (* Create root from seed *)
    let* root := call (fromSeed bip32 seed network) in
    (* Derive account *)
    let path := lit "m/44'/0'/0'/0/0" in
    let* account := call (derivePath bip32 root path) in
    (* Get key pair *)
    let privateKey := node_privateKey account in
    let publicKey := node_publicKey account in
    (* Create key pair for address generation *)
    let* keyPair := call (ECPair_fromPrivateKey privateKey network) in
    (* Generate address *)
    let* address := call (payments_p2pkh publicKey network) in
    (* Get WIF *)
    let* wif := call (ECPair_toWIF keyPair) in
    let* privateKey_hex := call (toString_hex_of privateKey) in
    let wallet := mkWallet mnemonic privateKey_hex (toString_hex publicKey)
                           address wif in
    (* Save wallet to storage *)
    let* _ := saveWallet wallet in
    ret wallet.

End Derivation.

End WalletService.

(** ** The wallet screen (src/unnamed/part_000, [WalletScreen])

    The component that calls the service.  Its state is the eight
    [useState] variables; a handler is a function from the state and the
    world to the state and the world it leaves, its [setX] calls applied
    in the order they are made.  A handler reads the state variables of
    the render that created it: the ones it reads ([mnemonicInput],
    [wallet]) are its arguments.  The dialogs of [Alert.alert] are kept
    in the order they were opened.  The effects of [useEffect], the
    clipboard and the layout of the elements are not modelled. *)

Declare Scope handler_scope.

Module WalletScreen.
Import Js Platform Packages WalletService.

(** A dialog of [Alert.alert]: its title, its message and the texts of
    the buttons it was given. *)
Record AlertDialog := mkAlert {
  alert_title : string;
  alert_message : string;
  alert_buttons : list string
}.

Record Screen := mkScreen {
  wallet : JsValue;
  balance : float;
  loading : bool;
  balanceLoading : bool;
  showMnemonic : bool;
  showImport : bool;
  mnemonicInput : jsstring;
  transactions : JsValue;
  alerts : list AlertDialog
}.

(** The state of the first render. *)
Definition initial : Screen :=
  mkScreen JNull 0%float false false false false [] (JArray []) [].

Definition Handler (A : Type) : Type :=
  Screen -> World -> outcome A * Screen * World.

Definition hret {A} (a : A) : Handler A := fun s w => (Returned a, s, w).

Definition hbind {A B} (m : Handler A) (k : A -> Handler B) : Handler B :=
  fun s w => match m s w with
             | (Returned a, s', w') => k a s' w'
             | (Thrown e, s', w') => (Thrown e, s', w')
             end.

Notation "'let*' x ':=' m 'in' k" := (hbind m (fun x => k))
  (at level 10, x binder, k at level 200) : handler_scope.
Local Open Scope handler_scope.

(** [try { m } catch (error) { handler error }] *)
Definition htry_catch {A} (m : Handler A) (handler : JsError -> Handler A)
  : Handler A :=
  fun s w => match m s w with
             | (Returned a, s', w') => (Returned a, s', w')
             | (Thrown e, s', w') => handler e s' w'
             end.

(** [try { m } finally { cleanup }]: the cleanup runs either way, and
    the outcome of [m] stands unless the cleanup throws. *)
Definition hfinally {A} (m : Handler A) (cleanup : Handler unit) : Handler A :=
  fun s w => match m s w with
             | (r, s', w') =>
                 match cleanup s' w' with
                 | (Returned _, s'', w'') => (r, s'', w'')
                 | (Thrown e, s'', w'') => (Thrown e, s'', w'')
                 end
             end.

(** [await p] for a promise of the service. *)
Definition await {A} (p : Promise A) : Handler A :=
  fun s w => match p w with (r, w') => (r, s, w') end.

Definition setWallet (v : JsValue) : Handler unit :=
  fun s w => (Returned tt,
              mkScreen v (balance s) (loading s) (balanceLoading s) (showMnemonic s)
                       (showImport s) (mnemonicInput s) (transactions s) (alerts s), w).

Definition setBalance (v : float) : Handler unit :=
  fun s w => (Returned tt,
              mkScreen (wallet s) v (loading s) (balanceLoading s) (showMnemonic s)
                       (showImport s) (mnemonicInput s) (transactions s) (alerts s), w).

Definition setLoading (v : bool) : Handler unit :=
  fun s w => (Returned tt,
              mkScreen (wallet s) (balance s) v (balanceLoading s) (showMnemonic s)
                       (showImport s) (mnemonicInput s) (transactions s) (alerts s), w).

Definition setBalanceLoading (v : bool) : Handler unit :=
  fun s w => (Returned tt,
              mkScreen (wallet s) (balance s) (loading s) v (showMnemonic s)
                       (showImport s) (mnemonicInput s) (transactions s) (alerts s), w).

Definition setShowMnemonic (v : bool) : Handler unit :=
  fun s w => (Returned tt,
              mkScreen (wallet s) (balance s) (loading s) (balanceLoading s) v
                       (showImport s) (mnemonicInput s) (transactions s) (alerts s), w).

Definition setShowImport (v : bool) : Handler unit :=
  fun s w => (Returned tt,
              mkScreen (wallet s) (balance s) (loading s) (balanceLoading s)
                       (showMnemonic s) v (mnemonicInput s) (transactions s) (alerts s), w).

Definition setMnemonicInput (v : jsstring) : Handler unit :=
  fun s w => (Returned tt,
              mkScreen (wallet s) (balance s) (loading s) (balanceLoading s)
                       (showMnemonic s) (showImport s) v (transactions s) (alerts s), w).

Definition setTransactions (v : JsValue) : Handler unit :=
  fun s w => (Returned tt,
              mkScreen (wallet s) (balance s) (loading s) (balanceLoading s)
                       (showMnemonic s) (showImport s) (mnemonicInput s) v (alerts s), w).

(** [Alert.alert(title, message, buttons)] *)
Definition Alert_alert (title message : string) (buttons : list string)
  : Handler unit :=
  fun s w => (Returned tt,
              mkScreen (wallet s) (balance s) (loading s) (balanceLoading s)
                       (showMnemonic s) (showImport s) (mnemonicInput s)
                       (transactions s)
                       (alerts s ++ [mkAlert title message buttons]), w).

(** [console.error(label, error)] *)
Definition console_error (label : string) (error : JsError) : Handler unit :=
  await (Platform.console_error label error).

(** [error.message || fallback] *)
Definition message_or (error : JsError) (fallback : string) : string :=
  match err_message error with
  | EmptyString => fallback
  | message => message
  end.

(** [wallet?.address] *)
Definition optional_address (wallet : JsValue) : JsValue :=
  match wallet with
  | JUndefined | JNull => JUndefined
  | _ => match get_property wallet (lit "address") with
         | inl v => v
         | inr _ => JUndefined
         end
  end.

(** The conversion of a number to a string is left to the platform. *)
Class Builtins := mkBuiltins {
  Number_toString : float -> jsstring
}.

Section Conversions.
Context {builtins : Builtins}.

(** ToString on the values JSON can denote.  An array is its elements
    joined by commas, [null] and [undefined] elements being empty; an
    object is [[object Object]], unless it has a [toString] property of
    its own: no value of JSON is callable, and the conversion throws. *)
Fixpoint ToString (v : JsValue) : outcome jsstring :=
  match v with
  | JUndefined => Returned (lit "undefined")
  | JNull => Returned (lit "null")
  | JBool true => Returned (lit "true")
  | JBool false => Returned (lit "false")
  | JNumber f => Returned (Number_toString f)
  | JString s => Returned s
  | JArray elements =>
      (fix join (l : list JsValue) (first : bool) : outcome jsstring :=
         match l with
         | [] => Returned []
         | element :: rest =>
             let piece := match element with
                          | JUndefined | JNull => Returned []
                          | _ => ToString element
                          end in
             match piece with
             | Thrown e => Thrown e
             | Returned p =>
                 match join rest false with
                 | Thrown e => Thrown e
                 | Returned r => Returned ((if first then [] else [44%N]) ++ p ++ r)
                 end
             end
         end) elements true
  | JObject props =>
      match own_property props (lit "toString") with
      | Some _ => Thrown (TypeError "Cannot convert object to primitive value")
      | None => Returned (lit "[object Object]")
      end
  end.

(** [getWalletBalance(address)] for an argument that need not be a
    string: the template literal of the request converts it inside the
    [try] of the service, so that a failing conversion is caught there. *)
Definition getWalletBalance_of (address : JsValue) : Promise float :=
  match ToString address with
  | Returned text => getWalletBalance text
  | Thrown error =>
      Platform.bind (Platform.console_error "Error fetching balance:" error)
                    (fun _ => ret 0%float)
  end.

(** [getTransactionHistory(address)], likewise. *)
Definition getTransactionHistory_of (address : JsValue) : Promise JsValue :=
  match ToString address with
  | Returned text => getTransactionHistory text
  | Thrown error =>
      Platform.bind (Platform.console_error "Error fetching transactions:" error)
                    (fun _ => ret (JArray []))
  end.

Definition loadExistingWallet : Handler unit :=
  htry_catch
    (let* existingWallet := await loadWallet in
     if ToBoolean existingWallet then setWallet existingWallet else hret tt)
    (fun error => console_error "Error loading wallet:" error).

Definition fetchBalance (wallet : JsValue) : Handler unit :=
  if negb (ToBoolean (optional_address wallet)) then hret tt
  else
    let* _ := setBalanceLoading true in
    hfinally
      (htry_catch
         (let* btcBalance := await (getWalletBalance_of (optional_address wallet)) in
          setBalance btcBalance)
         (fun error => console_error "Error fetching balance:" error))
      (setBalanceLoading false).

Definition fetchTransactions (wallet : JsValue) : Handler unit :=
  if negb (ToBoolean (optional_address wallet)) then hret tt
  else
    htry_catch
      (let* txs := await (getTransactionHistory_of (optional_address wallet)) in
       setTransactions txs)
      (fun error => console_error "Error fetching transactions:" error).

End Conversions.

Section Handlers.
Context {imports : Imports}.

Definition handleGenerateWallet : Handler unit :=
  let* _ := setLoading true in
  hfinally
    (htry_catch
       (let* newWallet := await generateWallet in
        let* _ := setWallet (wallet_object newWallet) in
        let* _ := setShowMnemonic true in
        Alert_alert "Wallet Created"
          "Your wallet has been created successfully! Please save your mnemonic phrase securely."
          ["OK"%string])
       (fun error =>
          let* _ := console_error "Error generating wallet:" error in
          Alert_alert "Error" "Failed to generate wallet. Please try again." []))
    (setLoading false).

Definition handleImportWallet (mnemonicInput : jsstring) : Handler unit :=
  match trim mnemonicInput with
  | [] => Alert_alert "Error" "Please enter a mnemonic phrase" []
  | _ =>
      let* _ := setLoading true in
      hfinally
        (htry_catch
           (let* importedWallet :=
              await (importWalletFromMnemonic (trim mnemonicInput)) in
            let* _ := setWallet (wallet_object importedWallet) in
            let* _ := setShowImport false in
            let* _ := setMnemonicInput [] in
            Alert_alert "Success" "Wallet imported successfully!" [])
           (fun error =>
              let* _ := console_error "Error importing wallet:" error in
              Alert_alert "Error"
                (message_or error
                   "Failed to import wallet. Please check your mnemonic phrase.")
                []))
        (setLoading false)
  end.

End Handlers.

(** [handleDeleteWallet] asks; the wallet is deleted by the handler of
    the [Delete] button of the dialog. *)
Definition handleDeleteWallet : Handler unit :=
  Alert_alert "Delete Wallet"
    "Are you sure you want to delete this wallet? This action cannot be undone. Make sure you have saved your mnemonic phrase."
    ["Cancel"%string; "Delete"%string].

(** The [onPress] of the [Delete] button. *)
Definition handleDeleteWallet_onPress : Handler unit :=
  htry_catch
    (let* _ := await deleteWallet in
     let* _ := setWallet JNull in
     let* _ := setBalance 0%float in
     let* _ := setShowMnemonic false in
     let* _ := setTransactions (JArray []) in
     Alert_alert "Success" "Wallet deleted successfully" [])
    (fun error =>
       let* _ := console_error "Error deleting wallet:" error in
       Alert_alert "Error" "Failed to delete wallet" []).

(** *** The list of recent transactions

    The one part of the render that computes on what the service
    returned: [transactions.length === 0 ? ... :
    transactions.slice(0, 5).map((tx, index) => ...)], evaluated when a
    wallet is on screen. *)

(** A row of the list: [tx.hash], the child of the first [Text], and
    the primitive value the date of the row is made of,
    [new Date(tx.confirmed || tx.received)]. *)
Record Row := mkRow {
  row_hash : JsValue;
  row_date : JsValue
}.

Inductive TransactionList :=
| NoTransactionsYet
| Rows (rows : list Row).

Section Render.
Context {builtins : Builtins}.

(** ToPrimitive, as [new Date(value)] applies it: an array or an
    object is converted as by ToString. *)
Definition ToPrimitive (v : JsValue) : outcome JsValue :=
  match v with
  | JArray _ | JObject _ =>
      match ToString v with
      | Returned text => Returned (JString text)
      | Thrown e => Thrown e
      end
  | _ => Returned v
  end.

(** The callback of [map]: the element of a row.  Making the element
    does not look at its children; React does when it renders the
    rows, once [map] is done (see [recent_transactions]). *)
Definition transaction_row (tx : JsValue) : outcome Row :=
  match get_property tx (lit "hash") with
  | inr e => Thrown e
  | inl hash =>
      match get_property tx (lit "confirmed"), get_property tx (lit "received") with
      | inl confirmed, inl received =>
          match ToPrimitive (logical_or confirmed received) with
          | Returned date => Returned (mkRow hash date)
          | Thrown e => Thrown e
          end
      | inr e, _ | _, inr e => Thrown e
      end
  end.

(** [txs.map(callback)]: the first callback that throws ends the map. *)
Fixpoint transaction_rows (txs : list JsValue) : outcome (list Row) :=
  match txs with
  | [] => Returned []
  | tx :: rest =>
      match transaction_row tx with
      | Thrown e => Thrown e
      | Returned row =>
          match transaction_rows rest with
          | Thrown e => Thrown e
          | Returned rows => Returned (row :: rows)
          end
      end
  end.

(** What React renders as a child: a string, a number, nothing for a
    boolean, [null] and [undefined], and the elements of an array; an
    object is refused. *)
Fixpoint valid_child (v : JsValue) : bool :=
  match v with
  | JObject _ => false
  | JArray elements =>
      (fix all (l : list JsValue) : bool :=
         match l with
         | [] => true
         | element :: rest => valid_child element && all rest
         end) elements
  | _ => true
  end.

(** The rows are made first, by [map]; React then renders them, and
    throws on a row whose [tx.hash] is no valid child.  On a value
    that is not an array, [length] and [slice] are read as on any
    value: a string has both, but its slice has no [map]; an object has
    the properties of its own, none of them callable; a number or a
    boolean has neither. *)
Definition recent_transactions (transactions : JsValue) : outcome TransactionList :=
  match transactions with
  | JUndefined => Thrown (TypeError "Cannot read properties of undefined")
  | JNull => Thrown (TypeError "Cannot read properties of null")
  | JArray [] => Returned NoTransactionsYet
  | JArray txs =>
      match transaction_rows (firstn 5 txs) with
      | Returned rows =>
          if forallb (fun row => valid_child (row_hash row)) rows
          then Returned (Rows rows)
          else Thrown (Error "Objects are not valid as a React child")
      | Thrown e => Thrown e
      end
  | JString [] => Returned NoTransactionsYet
  | JString _ => Thrown (TypeError "transactions.slice(...).map is not a function")
  | JObject props =>
      match own_property props (lit "length") with
      | Some (JNumber f) =>
          if PrimFloat.eqb f 0%float then Returned NoTransactionsYet
          else Thrown (TypeError "transactions.slice is not a function")
      | _ => Thrown (TypeError "transactions.slice is not a function")
      end
  | JBool _ | JNumber _ => Thrown (TypeError "transactions.slice is not a function")
  end.

End Render.

End WalletScreen.

(** ** The algorithms behind the imported packages *)

Module Hashes.
Import Js.
Local Open Scope N_scope.

(** The big-endian bytes of [x] on [n] bytes. *)
Fixpoint be_bytes (n : nat) (x : N) : bytes :=
  match n with
  | O => []
  | S n' => N.land (N.shiftr x (8 * N.of_nat n')) 255 :: be_bytes n' x
  end.

Definition be_value (bs : bytes) : N :=
  fold_left (fun acc b => N.lor (N.shiftl acc 8) b) bs 0.

Definition le_bytes (n : nat) (x : N) : bytes := rev (be_bytes n x).
Definition le_value (bs : bytes) : N := be_value (rev bs).

(** The list cut in pieces of [n] elements, [fuel] pieces at most. *)
Fixpoint chunks {A} (fuel n : nat) (l : list A) : list (list A) :=
  match fuel, l with
  | O, _ | _, [] => []
  | S fuel', _ => firstn n l :: chunks fuel' n (skipn n l)
  end.

Definition xor_bytes (a b : bytes) : bytes :=
  List.map (fun p => N.lxor (fst p) (snd p)) (combine a b).

(** *** SHA-2 (FIPS 180-4) *)

(** The words are machine-word naturals ([bigN]), which evaluate fast.
    A rotation to the right by [n] is kept as [n], [word_bits - n] and
    the mask [2 ^ n - 1] of the bits that wrap around. *)
Record Sha2 := mkSha2 {
  word_bytes : nat;
  word_mask : bigN;
  round_constants : list bigN;
  initial_hash : list bigN;
  Sigma0 : list (bigN * bigN * bigN);
  Sigma1 : list (bigN * bigN * bigN);
  sigma0 : list (bigN * bigN * bigN) * bigN;
  sigma1 : list (bigN * bigN * bigN) * bigN
}.

Definition rotations (bits : N) (amounts : list N) : list (bigN * bigN * bigN) :=
  List.map (fun n => (BigN.of_N n, BigN.of_N (bits - n), BigN.of_N (2 ^ n - 1)))
           amounts.

Section SHA2.
Variable P : Sha2.

(** Reduction modulo [2 ^ word_bits]. *)
Definition wrap (x : bigN) : bigN := BigN.land x (word_mask P).
Definition rotr (x : bigN) (r : bigN * bigN * bigN) : bigN :=
  let '(n, up, low) := r in
  BigN.lor (BigN.shiftr x n) (BigN.shiftl (BigN.land x low) up).
(** The exclusive or of rotations of [x]. *)
Definition rot_xor (r : list (bigN * bigN * bigN)) (x : bigN) : bigN :=
  fold_left (fun acc n => BigN.lxor acc (rotr x n)) r BigN.zero.
(** Rotations and a shift. *)
Definition rot_shift (r : list (bigN * bigN * bigN) * bigN) (x : bigN) : bigN :=
  BigN.lxor (rot_xor (fst r) x) (BigN.shiftr x (snd r)).
Definition Ch (x y z : bigN) : bigN :=
  BigN.lxor (BigN.land x y) (BigN.land (BigN.lxor x (word_mask P)) z).
Definition Maj (x y z : bigN) : bigN :=
  BigN.lxor (BigN.lxor (BigN.land x y) (BigN.land x z)) (BigN.land y z).

(** The message with its padding: a bit 1, zeros, and the length in
    bits on two words. *)
Definition sha2_pad (msg : bytes) : bytes :=
  let block := (16 * word_bytes P)%nat in
  let len := length msg in
  let used := ((len + 1 + 2 * word_bytes P) mod block)%nat in
  let zeros := (if used =? 0 then 0 else block - used)%nat in
  msg ++ [128] ++ replicate zeros 0
      ++ be_bytes (2 * word_bytes P) (8 * N.of_nat len).

(** One round, and the step of the message schedule: [sched] holds the
    sixteen words from [W t] on. *)
Definition sha2_round (st : list bigN * list bigN) (k : bigN)
  : list bigN * list bigN :=
  match st with
  | ([a; b; c; d; e; f; g; h], (w0 :: _) as sched) =>
      let add := BigN.add in
      let t1 := wrap (add (add (add (add h (rot_xor (Sigma1 P) e)) (Ch e f g))
                               k) w0) in
      let t2 := wrap (add (rot_xor (Sigma0 P) a) (Maj a b c)) in
      let next :=
        wrap (add (add (add (rot_shift (sigma1 P) (nth 14 sched BigN.zero))
                            (nth 9 sched BigN.zero))
                       (rot_shift (sigma0 P) (nth 1 sched BigN.zero))) w0) in
      ([wrap (add t1 t2); a; b; c; wrap (add d t1); e; f; g],
       tail sched ++ [next])
  | _ => st
  end.

Definition sha2_compress (H : list bigN) (block : bytes) : list bigN :=
  let sched :=
    List.map (fun ws => BigN.of_N (be_value ws))
             (chunks 16 (word_bytes P) block) in
  let (H', _) := fold_left sha2_round (round_constants P) (H, sched) in
  List.map (fun p => wrap (BigN.add (fst p) (snd p))) (combine H H').

Definition sha2 (msg : bytes) : bytes :=
  let padded := sha2_pad msg in
  let blocks := chunks (length padded) (16 * word_bytes P) padded in
  flat_map (fun x => be_bytes (word_bytes P) (BigN.to_N x))
           (fold_left sha2_compress blocks (initial_hash P)).

End SHA2.

(** The round constants of SHA-256, in decimal: the first 32 bits of the
    fractional parts of the cube roots of the first 64 primes. *)
Definition SHA256 : Sha2 := mkSha2 4 (BigN.of_N 0xffffffff)
  (List.map BigN.of_N [
   1116352408; 1899447441; 3049323471; 3921009573; 961987163; 1508970993;
   2453635748; 2870763221; 3624381080; 310598401; 607225278; 1426881987;
   1925078388; 2162078206; 2614888103; 3248222580; 3835390401; 4022224774;
   264347078; 604807628; 770255983; 1249150122; 1555081692; 1996064986;
   2554220882; 2821834349; 2952996808; 3210313671; 3336571891; 3584528711;
   113926993; 338241895; 666307205; 773529912; 1294757372; 1396182291;
   1695183700; 1986661051; 2177026350; 2456956037; 2730485921; 2820302411;
   3259730800; 3345764771; 3516065817; 3600352804; 4094571909; 275423344;
   430227734; 506948616; 659060556; 883997877; 958139571; 1322822218;
   1537002063; 1747873779; 1955562222; 2024104815; 2227730452; 2361852424;
   2428436474; 2756734187; 3204031479; 3329325298
  ])
  (List.map BigN.of_N [
   0x6a09e667; 0xbb67ae85; 0x3c6ef372; 0xa54ff53a;
   0x510e527f; 0x9b05688c; 0x1f83d9ab; 0x5be0cd19
  ])
  (rotations 32 [2; 13; 22]) (rotations 32 [6; 11; 25])
  (rotations 32 [7; 18], BigN.of_N 3) (rotations 32 [17; 19], BigN.of_N 10).

Definition SHA512 : Sha2 := mkSha2 8 (BigN.of_N 0xffffffffffffffff)
  (List.map BigN.of_N [
   0x428a2f98d728ae22; 0x7137449123ef65cd; 0xb5c0fbcfec4d3b2f;
   0xe9b5dba58189dbbc; 0x3956c25bf348b538; 0x59f111f1b605d019;
   0x923f82a4af194f9b; 0xab1c5ed5da6d8118; 0xd807aa98a3030242;
   0x12835b0145706fbe; 0x243185be4ee4b28c; 0x550c7dc3d5ffb4e2;
   0x72be5d74f27b896f; 0x80deb1fe3b1696b1; 0x9bdc06a725c71235;
   0xc19bf174cf692694; 0xe49b69c19ef14ad2; 0xefbe4786384f25e3;
   0x0fc19dc68b8cd5b5; 0x240ca1cc77ac9c65; 0x2de92c6f592b0275;
   0x4a7484aa6ea6e483; 0x5cb0a9dcbd41fbd4; 0x76f988da831153b5;
   0x983e5152ee66dfab; 0xa831c66d2db43210; 0xb00327c898fb213f;
   0xbf597fc7beef0ee4; 0xc6e00bf33da88fc2; 0xd5a79147930aa725;
   0x06ca6351e003826f; 0x142929670a0e6e70; 0x27b70a8546d22ffc;
   0x2e1b21385c26c926; 0x4d2c6dfc5ac42aed; 0x53380d139d95b3df;
   0x650a73548baf63de; 0x766a0abb3c77b2a8; 0x81c2c92e47edaee6;
   0x92722c851482353b; 0xa2bfe8a14cf10364; 0xa81a664bbc423001;
   0xc24b8b70d0f89791; 0xc76c51a30654be30; 0xd192e819d6ef5218;
   0xd69906245565a910; 0xf40e35855771202a; 0x106aa07032bbd1b8;
   0x19a4c116b8d2d0c8; 0x1e376c085141ab53; 0x2748774cdf8eeb99;
   0x34b0bcb5e19b48a8; 0x391c0cb3c5c95a63; 0x4ed8aa4ae3418acb;
   0x5b9cca4f7763e373; 0x682e6ff3d6b2b8a3; 0x748f82ee5defb2fc;
   0x78a5636f43172f60; 0x84c87814a1f0ab72; 0x8cc702081a6439ec;
   0x90befffa23631e28; 0xa4506cebde82bde9; 0xbef9a3f7b2c67915;
   0xc67178f2e372532b; 0xca273eceea26619c; 0xd186b8c721c0c207;
   0xeada7dd6cde0eb1e; 0xf57d4f7fee6ed178; 0x06f067aa72176fba;
   0x0a637dc5a2c898a6; 0x113f9804bef90dae; 0x1b710b35131c471b;
   0x28db77f523047d84; 0x32caab7b40c72493; 0x3c9ebe0a15c9bebc;
   0x431d67c49c100d4c; 0x4cc5d4becb3e42b6; 0x597f299cfc657e2a;
   0x5fcb6fab3ad6faec; 0x6c44198c4a475817
  ])
  (List.map BigN.of_N [
   0x6a09e667f3bcc908; 0xbb67ae8584caa73b; 0x3c6ef372fe94f82b;
   0xa54ff53a5f1d36f1; 0x510e527fade682d1; 0x9b05688c2b3e6c1f;
   0x1f83d9abfb41bd6b; 0x5be0cd19137e2179
  ])
  (rotations 64 [28; 34; 39]) (rotations 64 [14; 18; 41])
  (rotations 64 [1; 8], BigN.of_N 7) (rotations 64 [19; 61], BigN.of_N 6).

Definition sha256 (msg : bytes) : bytes := sha2 SHA256 msg.
Definition sha512 (msg : bytes) : bytes := sha2 SHA512 msg.

(** *** RIPEMD-160 *)

Definition ripemd_mask : bigN := BigN.of_N 0xffffffff.
Definition wrap32 (x : bigN) : bigN := BigN.land x ripemd_mask.
Definition rotl32 (x : bigN) (n : bigN * bigN) : bigN :=
  wrap32 (BigN.lor (BigN.shiftl x (fst n)) (BigN.shiftr x (snd n))).
Definition not32 (x : bigN) : bigN := BigN.lxor x ripemd_mask.

(** The boolean function of round [j / 16]. *)
Definition ripemd_f (j : nat) (x y z : bigN) : bigN :=
  match j with
  | 0%nat => BigN.lxor (BigN.lxor x y) z
  | 1%nat => BigN.lor (BigN.land x y) (BigN.land (not32 x) z)
  | 2%nat => BigN.lxor (BigN.lor x (not32 y)) z
  | 3%nat => BigN.lor (BigN.land x z) (BigN.land y (not32 z))
  | _ => BigN.lxor x (BigN.lor y (not32 z))
  end.

(** For each of the 80 steps of a line: the round, the index of the
    message word, the rotation, and the constant. *)
Definition ripemd_line (rounds : list nat) (K r s : list N)
  : list (nat * nat * (bigN * bigN) * bigN) :=
  List.map (fun j =>
              (nth (j / 16) rounds 0%nat, N.to_nat (nth j r 0),
               (BigN.of_N (nth j s 0), BigN.of_N (32 - nth j s 0)),
               BigN.of_N (nth (j / 16) K 0)))
           (seq 0 80).

Definition ripemd_left : list (nat * nat * (bigN * bigN) * bigN) :=
  ripemd_line [0; 1; 2; 3; 4]%nat
    [0x00000000; 0x5a827999; 0x6ed9eba1; 0x8f1bbcdc; 0xa953fd4e]
    [0; 1; 2; 3; 4; 5; 6; 7; 8; 9; 10; 11; 12; 13; 14; 15;
     7; 4; 13; 1; 10; 6; 15; 3; 12; 0; 9; 5; 2; 14; 11; 8;
     3; 10; 14; 4; 9; 15; 8; 1; 2; 7; 0; 6; 13; 11; 5; 12;
     1; 9; 11; 10; 0; 8; 12; 4; 13; 3; 7; 15; 14; 5; 6; 2;
     4; 0; 5; 9; 7; 12; 2; 10; 14; 1; 3; 8; 11; 6; 15; 13]
    [11; 14; 15; 12; 5; 8; 7; 9; 11; 13; 14; 15; 6; 7; 9; 8;
     7; 6; 8; 13; 11; 9; 7; 15; 7; 12; 15; 9; 11; 7; 13; 12;
     11; 13; 6; 7; 14; 9; 13; 15; 14; 8; 13; 6; 5; 12; 7; 5;
     11; 12; 14; 15; 14; 15; 9; 8; 9; 14; 5; 6; 8; 6; 5; 12;
     9; 15; 5; 11; 6; 8; 13; 12; 5; 12; 13; 14; 11; 8; 5; 6].

Definition ripemd_right : list (nat * nat * (bigN * bigN) * bigN) :=
  ripemd_line [4; 3; 2; 1; 0]%nat
    [0x50a28be6; 0x5c4dd124; 0x6d703ef3; 0x7a6d76e9; 0x00000000]
    [5; 14; 7; 0; 9; 2; 11; 4; 13; 6; 15; 8; 1; 10; 3; 12;
     6; 11; 3; 7; 0; 13; 5; 10; 14; 15; 8; 12; 4; 9; 1; 2;
     15; 5; 1; 3; 7; 14; 6; 9; 11; 8; 12; 2; 10; 0; 4; 13;
     8; 6; 4; 1; 3; 11; 15; 0; 5; 12; 2; 13; 9; 7; 10; 14;
     12; 15; 10; 4; 1; 5; 8; 7; 6; 2; 13; 14; 0; 3; 9; 11]
    [8; 9; 9; 11; 13; 15; 15; 5; 7; 7; 8; 11; 14; 14; 12; 6;
     9; 13; 15; 7; 12; 8; 9; 11; 7; 7; 12; 7; 6; 15; 13; 11;
     9; 7; 15; 11; 8; 6; 6; 14; 12; 13; 5; 14; 13; 13; 7; 5;
     15; 5; 8; 11; 14; 14; 6; 14; 6; 9; 12; 9; 12; 5; 15; 8;
     8; 5; 12; 9; 12; 5; 14; 6; 8; 13; 6; 5; 15; 13; 11; 11].

Definition ripemd_step (X : list bigN) (st : list bigN)
  (step : nat * nat * (bigN * bigN) * bigN) : list bigN :=
  match st, step with
  | [a; b; c; d; e], (j, r, s, k) =>
      let t := wrap32 (BigN.add (BigN.add (BigN.add a (ripemd_f j b c d))
                                          (nth r X BigN.zero)) k) in
      [e; wrap32 (BigN.add (rotl32 t s) e); b;
       rotl32 c (BigN.of_N 10, BigN.of_N 22); d]
  | _, _ => st
  end.

Definition ripemd_compress (H : list bigN) (block : bytes) : list bigN :=
  let X := List.map (fun ws => BigN.of_N (le_value ws)) (chunks 16 4 block) in
  match H, fold_left (ripemd_step X) ripemd_left H,
        fold_left (ripemd_step X) ripemd_right H with
  | [h0; h1; h2; h3; h4], [a; b; c; d; e], [a'; b'; c'; d'; e'] =>
      List.map wrap32
        [BigN.add (BigN.add h1 c) d'; BigN.add (BigN.add h2 d) e';
         BigN.add (BigN.add h3 e) a'; BigN.add (BigN.add h4 a) b';
         BigN.add (BigN.add h0 b) c']
  | _, _, _ => H
  end.

Definition ripemd_pad (msg : bytes) : bytes :=
  let len := length msg in
  let used := ((len + 9) mod 64)%nat in
  let zeros := (if used =? 0 then 0 else 64 - used)%nat in
  msg ++ [128] ++ replicate zeros 0 ++ le_bytes 8 (8 * N.of_nat len).

Definition ripemd160 (msg : bytes) : bytes :=
  let padded := ripemd_pad msg in
  let blocks := chunks (length padded) 64 padded in
  flat_map (fun x => le_bytes 4 (BigN.to_N x))
    (fold_left ripemd_compress blocks
       (List.map BigN.of_N
          [0x67452301; 0xefcdab89; 0x98badcfe; 0x10325476; 0xc3d2e1f0])).

(** [RIPEMD160(SHA256(x))] and the double SHA-256. *)
Definition hash160 (x : bytes) : bytes := ripemd160 (sha256 x).
Definition hash256 (x : bytes) : bytes := sha256 (sha256 x).

(** *** HMAC (RFC 2104) and PBKDF2 (RFC 8018) with SHA-512 *)

Definition hmac (H : bytes -> bytes) (block : nat) (key : bytes)
  : bytes -> bytes :=
  let key := if (block <? length key)%nat then H key else key in
  let key := key ++ replicate (block - length key) 0 in
  let opad := List.map (N.lxor 0x5c) key in
  let ipad := List.map (N.lxor 0x36) key in
  fun msg => H (opad ++ H (ipad ++ msg)).

Definition hmacSHA512 (key : bytes) : bytes -> bytes := hmac sha512 128 key.
Definition hmacSHA256 (key : bytes) : bytes -> bytes := hmac sha256 64 key.

(** The first block of PBKDF2: the exclusive or of [c] iterated PRFs. *)
Fixpoint pbkdf2_iterate (prf : bytes -> bytes) (c : nat) (u acc : bytes) : bytes :=
  match c with
  | O => acc
  | S c' => let u' := prf u in pbkdf2_iterate prf c' u' (xor_bytes acc u')
  end.

Definition pbkdf2_block (prf : bytes -> bytes -> bytes) (password salt : bytes)
  (c : nat) (i : N) : bytes :=
  let prf := prf password in
  let u1 := prf (salt ++ be_bytes 4 i) in
  pbkdf2_iterate prf (c - 1) u1 u1.

(** PBKDF2-HMAC-SHA512 with a derived key of 64 bytes: one block. *)
Definition pbkdf2_sha512_64 (password salt : bytes) (c : nat) : bytes :=
  pbkdf2_block hmacSHA512 password salt c 1.

End Hashes.

(** *** The curve secp256k1 (SEC 2), as @bitcoinerlab/secp256k1 exposes it *)

Module Secp256k1.
Import Js Packages Hashes.
Local Open Scope N_scope.

Definition p : N := 0xfffffffffffffffffffffffffffffffffffffffffffffffffffffffefffffc2f.
Definition n : N := 0xfffffffffffffffffffffffffffffffebaaedce6af48a03bbfd25e8cd0364141.
Definition Gx : N := 0x79be667ef9dcbbac55a06295ce870b07029bfcdb2dce28d959f2815b16f81798.
Definition Gy : N := 0x483ada7726a3c4655da4fbfc0e1108a8fd17b448a68554199c47d08ffb10d4b8.

(** Arithmetic modulo [m], on machine-word naturals. *)
Definition bp : bigN := BigN.of_N p.
Definition bn : bigN := BigN.of_N n.
Definition madd (m a b : bigN) : bigN := BigN.modulo (BigN.add a b) m.
Definition msub (m a b : bigN) : bigN :=
  BigN.modulo (BigN.sub (BigN.add a m) (BigN.modulo b m)) m.
Definition mmul (m a b : bigN) : bigN := BigN.modulo (BigN.mul a b) m.

Fixpoint mpow_pos (m a : bigN) (e : positive) : bigN :=
  match e with
  | xH => BigN.modulo a m
  | xO e' => let h := mpow_pos m a e' in mmul m h h
  | xI e' => let h := mpow_pos m a e' in mmul m (mmul m h h) a
  end.

Definition mpow (m a : bigN) (e : N) : bigN :=
  match e with
  | N0 => BigN.one
  | Npos e' => mpow_pos m a e'
  end.

(** The inverse modulo a prime [m]. *)
Definition minv (m a : bigN) (m_minus_2 : N) : bigN := mpow m a m_minus_2.

(** A point in Jacobian coordinates; [Z = 0] is the point at infinity. *)
Definition point : Type := bigN * bigN * bigN.
Definition infinity : point := (BigN.one, BigN.one, BigN.zero).
Definition is_infinity (P : point) : bool := BigN.eqb (snd P) BigN.zero.
Definition G : point := (BigN.of_N Gx, BigN.of_N Gy, BigN.one).

Definition point_double (P : point) : point :=
  let '(X, Y, Z) := P in
  if BigN.eqb Z BigN.zero || BigN.eqb Y BigN.zero then infinity
  else
    let Y2 := mmul bp Y Y in
    let S := mmul bp (BigN.of_N 4) (mmul bp X Y2) in
    let M := mmul bp (BigN.of_N 3) (mmul bp X X) in
    let X' := msub bp (mmul bp M M) (madd bp S S) in
    let Y' := msub bp (mmul bp M (msub bp S X'))
                      (mmul bp (BigN.of_N 8) (mmul bp Y2 Y2)) in
    (X', Y', mmul bp (madd bp Y Y) Z).

Definition point_add (P Q : point) : point :=
  let '(X1, Y1, Z1) := P in
  let '(X2, Y2, Z2) := Q in
  if BigN.eqb Z1 BigN.zero then Q
  else if BigN.eqb Z2 BigN.zero then P
  else
    let Z1Z1 := mmul bp Z1 Z1 in
    let Z2Z2 := mmul bp Z2 Z2 in
    let U1 := mmul bp X1 Z2Z2 in
    let U2 := mmul bp X2 Z1Z1 in
    let S1 := mmul bp Y1 (mmul bp Z2 Z2Z2) in
    let S2 := mmul bp Y2 (mmul bp Z1 Z1Z1) in
    if BigN.eqb U1 U2 then
      if BigN.eqb S1 S2 then point_double P else infinity
    else
      let H := msub bp U2 U1 in
      let R := msub bp S2 S1 in
      let H2 := mmul bp H H in
      let H3 := mmul bp H H2 in
      let V := mmul bp U1 H2 in
      let X3 := msub bp (msub bp (mmul bp R R) H3) (madd bp V V) in
      let Y3 := msub bp (mmul bp R (msub bp V X3)) (mmul bp S1 H3) in
      (X3, Y3, mmul bp H (mmul bp Z1 Z2)).

(** [k * P], most significant bit of [k] first. *)
Fixpoint point_mul_pos (k : positive) (P : point) : point :=
  match k with
  | xH => P
  | xO k' => point_double (point_mul_pos k' P)
  | xI k' => point_add (point_double (point_mul_pos k' P)) P
  end.

Definition point_mul (k : N) (P : point) : point :=
  match k with
  | N0 => infinity
  | Npos k' => point_mul_pos k' P
  end.

(** The affine coordinates of a point that is not at infinity. *)
Definition affine (P : point) : N * N :=
  let '(X, Y, Z) := P in
  let zi := minv bp Z (p - 2) in
  let zi2 := mmul bp zi zi in
  (BigN.to_N (mmul bp X zi2), BigN.to_N (mmul bp Y (mmul bp zi zi2))).

Definition of_affine (x y : N) : point := (BigN.of_N x, BigN.of_N y, BigN.one).

Definition on_curve (x y : N) : bool :=
  let bx := BigN.of_N x in
  let by' := BigN.of_N y in
  BigN.eqb (mmul bp by' by')
           (madd bp (mmul bp bx (mmul bp bx bx)) (BigN.of_N 7)).

(** The [y] of the curve with the given [x] and parity, if there is one. *)
Definition lift_x (x : N) (odd : bool) : option N :=
  if p <=? x then None
  else
    let bx := BigN.of_N x in
    let rhs := madd bp (mmul bp bx (mmul bp bx bx)) (BigN.of_N 7) in
    let y := mpow bp rhs ((p + 1) / 4) in
    if BigN.eqb (mmul bp y y) rhs then
      let y := BigN.to_N y in
      Some (if Bool.eqb (N.odd y) odd then y else p - y)
    else None.

(** SEC 1 encoding of a point. *)
Definition encode_point (P : point) (compressed : bool) : bytes :=
  let (x, y) := affine P in
  if compressed then (if N.odd y then 3 else 2) :: be_bytes 32 x
  else 4 :: be_bytes 32 x ++ be_bytes 32 y.

Definition decode_point (bs : bytes) : option point :=
  match bs with
  | prefix :: rest =>
      if ((prefix =? 2) || (prefix =? 3)) && (length rest =? 32)%nat then
        let x := be_value rest in
        match lift_x x (prefix =? 3) with
        | Some y => Some (of_affine x y)
        | None => None
        end
      else if (prefix =? 4) && (length rest =? 64)%nat then
        let x := be_value (firstn 32 rest) in
        let y := be_value (skipn 32 rest) in
        if (x <? p) && (y <? p) && on_curve x y then Some (of_affine x y)
        else None
      else None
  | [] => None
  end.

Definition is_compressed (bs : bytes) : bool := (length bs =? 33)%nat.

Definition isPoint (bs : bytes) : bool :=
  match decode_point bs with Some _ => true | None => false end.

Definition isPrivate (d : bytes) : bool :=
  (length d =? 32)%nat && (0 <? be_value d) && (be_value d <? n).

(** A tweak: 32 bytes, a scalar below the order. *)
Definition isTweak (t : bytes) : bool :=
  (length t =? 32)%nat && (be_value t <? n).

Definition encode_or_null (P : point) (compressed : bool) : option bytes :=
  if is_infinity P then None else Some (encode_point P compressed).

Definition pointFromScalar (d : bytes) (compressed : option bool)
  : outcome (option bytes) :=
  if negb (isPrivate d) then Thrown (TypeError "Expected Private")
  else Returned (encode_or_null (point_mul (be_value d) G)
                                (default true compressed)).

Definition pointAddScalar (P tweak : bytes) (compressed : option bool)
  : outcome (option bytes) :=
  match decode_point P with
  | None => Thrown (TypeError "Expected Point")
  | Some Q =>
      if negb (isTweak tweak) then Thrown (TypeError "Expected Tweak")
      else Returned (encode_or_null
                       (point_add Q (point_mul (be_value tweak) G))
                       (default (is_compressed P) compressed))
  end.

Definition privateAdd (d tweak : bytes) : outcome (option bytes) :=
  if negb (isPrivate d) then Thrown (TypeError "Expected Private")
  else if negb (isTweak tweak) then Thrown (TypeError "Expected Tweak")
  else
    let s := (be_value d + be_value tweak) mod n in
    Returned (if s =? 0 then None else Some (be_bytes 32 s)).

(** The generator of RFC 6979 with HMAC-SHA256: the first candidate
    [accept] takes, looking at [fuel] candidates. *)
Fixpoint rfc6979_candidate {A} (fuel : nat) (K V : bytes) (accept : N -> option A)
  : option A :=
  match fuel with
  | O => None
  | S fuel' =>
      let V := hmacSHA256 K V in
      match accept (be_value V) with
      | Some a => Some a
      | None =>
          let K := hmacSHA256 K (V ++ [0]) in
          rfc6979_candidate fuel' K (hmacSHA256 K V) accept
      end
  end.

(** The generator is seeded with the private key, the hash reduced
    modulo the order (bits2octets) and the extra entropy. *)
Definition rfc6979 {A} (d h extra : bytes) (accept : N -> option A) : option A :=
  let h1 := be_bytes 32 (be_value h mod n) in
  let V := replicate 32 1 in
  let K := replicate 32 0 in
  let K := hmacSHA256 K (V ++ [0] ++ d ++ h1 ++ extra) in
  let V := hmacSHA256 K V in
  let K := hmacSHA256 K (V ++ [1] ++ d ++ h1 ++ extra) in
  let V := hmacSHA256 K V in
  rfc6979_candidate 64 K V accept.

(** The signature a nonce gives, with a low [s]; none when the nonce is
    out of range or [r] or [s] is zero. *)
Definition signature_of (h d : bytes) (k : N) : option (N * N) :=
  if negb ((0 <? k) && (k <? n)) then None
  else
    let r := fst (affine (point_mul k G)) mod n in
    if r =? 0 then None
    else
      let kinv := minv bn (BigN.of_N k) (n - 2) in
      let s := BigN.to_N
                 (mmul bn kinv
                    (madd bn (BigN.of_N (be_value h))
                             (mmul bn (BigN.of_N r) (BigN.of_N (be_value d))))) in
      if s =? 0 then None
      else Some (r, if n / 2 <? s then n - s else s).

(** ECDSA with the nonce of RFC 6979 and a low [s]: [r || s]. *)
Definition sign (h d : bytes) (e : option bytes) : outcome bytes :=
  if negb (length h =? 32)%nat then Thrown (TypeError "Expected Hash")
  else if negb (isPrivate d) then Thrown (TypeError "Expected Private")
  else if negb (match e with Some x => (length x =? 32)%nat | None => true end)
  then Thrown (TypeError "Expected Extra Data (32 bytes)")
  else
    match rfc6979 d h (default [] e) (signature_of h d) with
    | None => Thrown (Error "sign: no nonce")
    | Some (r, s) => Returned (be_bytes 32 r ++ be_bytes 32 s)
    end.

Definition verify (h Q signature : bytes) (strict : option bool) : outcome bool :=
  if negb (length h =? 32)%nat then Thrown (TypeError "Expected Hash")
  else
    match decode_point Q with
    | None => Thrown (TypeError "Expected Point")
    | Some q =>
        let r := be_value (firstn 32 signature) in
        let s := be_value (skipn 32 signature) in
        if negb ((length signature =? 64)%nat && (r <? n) && (s <? n))
        then Thrown (TypeError "Expected Signature")
        else if (r =? 0) || (s =? 0) then Returned false
        else if default false strict && (n / 2 <? s) then Returned false
        else
          let sinv := minv bn (BigN.of_N s) (n - 2) in
          let u1 := BigN.to_N (mmul bn (BigN.of_N (be_value h)) sinv) in
          let u2 := BigN.to_N (mmul bn (BigN.of_N r) sinv) in
          let R := point_add (point_mul u1 G) (point_mul u2 q) in
          if is_infinity R then Returned false
          else Returned (fst (affine R) mod n =? r)
    end.

Definition isXOnlyPoint (bs : bytes) : bool :=
  (length bs =? 32)%nat
  && match lift_x (be_value bs) false with Some _ => true | None => false end.

Definition xOnlyPointAddTweak (P tweak : bytes) : outcome (option (bytes * N)) :=
  if negb (isXOnlyPoint P) then Thrown (TypeError "Expected Point")
  else if negb (isTweak tweak) then Thrown (TypeError "Expected Tweak")
  else
    match lift_x (be_value P) false with
    | None => Returned None
    | Some y =>
        let R := point_add (of_affine (be_value P) y)
                           (point_mul (be_value tweak) G) in
        if is_infinity R then Returned None
        else
          let (x', y') := affine R in
          Returned (Some (be_bytes 32 x', if N.odd y' then 1 else 0))
    end.

Definition ecc : TinySecp256k1 :=
  mkEcc isPoint isPrivate pointFromScalar pointAddScalar privateAdd
        sign verify isXOnlyPoint xOnlyPointAddTweak.

End Secp256k1.

(** *** base58 and base58check (bs58check) *)

Module Base58.
Import Js Hashes.
Local Open Scope N_scope.

Definition alphabet : jsstring :=
  lit "123456789ABCDEFGHJKLMNPQRSTUVWXYZabcdefghijkmnopqrstuvwxyz".

(** The digits of [x] in base 58, most significant first. *)
Fixpoint digits (fuel : nat) (x : N) (acc : jsstring) : jsstring :=
  match fuel with
  | O => acc
  | S fuel' =>
      if x =? 0 then acc
      else digits fuel' (x / 58) (nth (N.to_nat (x mod 58)) alphabet 0 :: acc)
  end.

Fixpoint leading_zeros (bs : bytes) : nat :=
  match bs with
  | b :: rest => if b =? 0 then S (leading_zeros rest) else O
  | [] => O
  end.

(** Each leading zero byte is a leading [1]. *)
Definition encode (bs : bytes) : jsstring :=
  replicate (leading_zeros bs) 49 ++ digits (2 * length bs) (be_value bs) [].

Definition encode_check (payload : bytes) : jsstring :=
  encode (payload ++ firstn 4 (hash256 payload)).

End Base58.

(** *** bip39 *)

Module Bip39.
Import Js Hashes.
Local Open Scope N_scope.

(** [s.split(' ')] *)
Fixpoint split_spaces (s cur : jsstring) : list jsstring :=
  match s with
  | [] => [rev cur]
  | c :: rest =>
      if c =? 32 then rev cur :: split_spaces rest []
      else split_spaces rest (c :: cur)
  end.

(** The English word list of BIP39. *)
Definition english_text : string :=
  ("abandon ability able about above absent absorb abstract absurd abuse " ++
   "access accident account accuse achieve acid acoustic acquire across " ++
   "act action actor actress actual adapt add addict address adjust " ++
   "admit adult advance advice aerobic affair afford afraid again age " ++
   "agent agree ahead aim air airport aisle alarm album alcohol alert " ++
   "alien all alley allow almost alone alpha already also alter always " ++
   "amateur amazing among amount amused analyst anchor ancient anger " ++
   "angle angry animal ankle announce annual another answer antenna " ++
   "antique anxiety any apart apology appear apple approve april arch " ++
   "arctic area arena argue arm armed armor army around arrange arrest " ++
   "arrive arrow art artefact artist artwork ask aspect assault asset " ++
   "assist assume asthma athlete atom attack attend attitude attract " ++
   "auction audit august aunt author auto autumn average avocado avoid " ++
   "awake aware away awesome awful awkward axis baby bachelor bacon " ++
   "badge bag balance balcony ball bamboo banana banner bar barely " ++
   "bargain barrel base basic basket battle beach bean beauty because " ++
   "become beef before begin behave behind believe below belt bench " ++
   "benefit best betray better between beyond bicycle bid bike bind " ++
   "biology bird birth bitter black blade blame blanket blast bleak " ++
   "bless blind blood blossom blouse blue blur blush board boat body " ++
   "boil bomb bone bonus book boost border boring borrow boss bottom " ++
   "bounce box boy bracket brain brand brass brave bread breeze brick " ++
   "bridge brief bright bring brisk broccoli broken bronze broom brother " ++
   "brown brush bubble buddy budget buffalo build bulb bulk bullet " ++
   "bundle bunker burden burger burst bus business busy butter buyer " ++
   "buzz cabbage cabin cable cactus cage cake call calm camera camp can " ++
   "canal cancel candy cannon canoe canvas canyon capable capital " ++
   "captain car carbon card cargo carpet carry cart case cash casino " ++
   "castle casual cat catalog catch category cattle caught cause caution " ++
   "cave ceiling celery cement census century cereal certain chair chalk " ++
   "champion change chaos chapter charge chase chat cheap check cheese " ++
   "chef cherry chest chicken chief child chimney choice choose chronic " ++
   "chuckle chunk churn cigar cinnamon circle citizen city civil claim " ++
   "clap clarify claw clay clean clerk clever click client cliff climb " ++
   "clinic clip clock clog close cloth cloud clown club clump cluster " ++
   "clutch coach coast coconut code coffee coil coin collect color " ++
   "column combine come comfort comic common company concert conduct " ++
   "confirm congress connect consider control convince cook cool copper " ++
   "copy coral core corn correct cost cotton couch country couple course " ++
   "cousin cover coyote crack cradle craft cram crane crash crater crawl " ++
   "crazy cream credit creek crew cricket crime crisp critic crop cross " ++
   "crouch crowd crucial cruel cruise crumble crunch crush cry crystal " ++
   "cube culture cup cupboard curious current curtain curve cushion " ++
   "custom cute cycle dad damage damp dance danger daring dash daughter " ++
   "dawn day deal debate debris decade december decide decline decorate " ++
   "decrease deer defense define defy degree delay deliver demand demise " ++
   "denial dentist deny depart depend deposit depth deputy derive " ++
   "describe desert design desk despair destroy detail detect develop " ++
   "device devote diagram dial diamond diary dice diesel diet differ " ++
   "digital dignity dilemma dinner dinosaur direct dirt disagree " ++
   "discover disease dish dismiss disorder display distance divert " ++
   "divide divorce dizzy doctor document dog doll dolphin domain donate " ++
   "donkey donor door dose double dove draft dragon drama drastic draw " ++
   "dream dress drift drill drink drip drive drop drum dry duck dumb " ++
   "dune during dust dutch duty dwarf dynamic eager eagle early earn " ++
   "earth easily east easy echo ecology economy edge edit educate effort " ++
   "egg eight either elbow elder electric elegant element elephant " ++
   "elevator elite else embark embody embrace emerge emotion employ " ++
   "empower empty enable enact end endless endorse enemy energy enforce " ++
   "engage engine enhance enjoy enlist enough enrich enroll ensure enter " ++
   "entire entry envelope episode equal equip era erase erode erosion " ++
   "error erupt escape essay essence estate eternal ethics evidence evil " ++
   "evoke evolve exact example excess exchange excite exclude excuse " ++
   "execute exercise exhaust exhibit exile exist exit exotic expand " ++
   "expect expire explain expose express extend extra eye eyebrow fabric " ++
   "face faculty fade faint faith fall false fame family famous fan " ++
   "fancy fantasy farm fashion fat fatal father fatigue fault favorite " ++
   "feature february federal fee feed feel female fence festival fetch " ++
   "fever few fiber fiction field figure file film filter final find " ++
   "fine finger finish fire firm first fiscal fish fit fitness fix flag " ++
   "flame flash flat flavor flee flight flip float flock floor flower " ++
   "fluid flush fly foam focus fog foil fold follow food foot force " ++
   "forest forget fork fortune forum forward fossil foster found fox " ++
   "fragile frame frequent fresh friend fringe frog front frost frown " ++
   "frozen fruit fuel fun funny furnace fury future gadget gain galaxy " ++
   "gallery game gap garage garbage garden garlic garment gas gasp gate " ++
   "gather gauge gaze general genius genre gentle genuine gesture ghost " ++
   "giant gift giggle ginger giraffe girl give glad glance glare glass " ++
   "glide glimpse globe gloom glory glove glow glue goat goddess gold " ++
   "good goose gorilla gospel gossip govern gown grab grace grain grant " ++
   "grape grass gravity great green grid grief grit grocery group grow " ++
   "grunt guard guess guide guilt guitar gun gym habit hair half hammer " ++
   "hamster hand happy harbor hard harsh harvest hat have hawk hazard " ++
   "head health heart heavy hedgehog height hello helmet help hen hero " ++
   "hidden high hill hint hip hire history hobby hockey hold hole " ++
   "holiday hollow home honey hood hope horn horror horse hospital host " ++
   "hotel hour hover hub huge human humble humor hundred hungry hunt " ++
   "hurdle hurry hurt husband hybrid ice icon idea identify idle ignore " ++
   "ill illegal illness image imitate immense immune impact impose " ++
   "improve impulse inch include income increase index indicate indoor " ++
   "industry infant inflict inform inhale inherit initial inject injury " ++
   "inmate inner innocent input inquiry insane insect inside inspire " ++
   "install intact interest into invest invite involve iron island " ++
   "isolate issue item ivory jacket jaguar jar jazz jealous jeans jelly " ++
   "jewel job join joke journey joy judge juice jump jungle junior junk " ++
   "just kangaroo keen keep ketchup key kick kid kidney kind kingdom " ++
   "kiss kit kitchen kite kitten kiwi knee knife knock know lab label " ++
   "labor ladder lady lake lamp language laptop large later latin laugh " ++
   "laundry lava law lawn lawsuit layer lazy leader leaf learn leave " ++
   "lecture left leg legal legend leisure lemon lend length lens leopard " ++
   "lesson letter level liar liberty library license life lift light " ++
   "like limb limit link lion liquid list little live lizard load loan " ++
   "lobster local lock logic lonely long loop lottery loud lounge love " ++
   "loyal lucky luggage lumber lunar lunch luxury lyrics machine mad " ++
   "magic magnet maid mail main major make mammal man manage mandate " ++
   "mango mansion manual maple marble march margin marine market " ++
   "marriage mask mass master match material math matrix matter maximum " ++
   "maze meadow mean measure meat mechanic medal media melody melt " ++
   "member memory mention menu mercy merge merit merry mesh message " ++
   "metal method middle midnight milk million mimic mind minimum minor " ++
   "minute miracle mirror misery miss mistake mix mixed mixture mobile " ++
   "model modify mom moment monitor monkey monster month moon moral more " ++
   "morning mosquito mother motion motor mountain mouse move movie much " ++
   "muffin mule multiply muscle museum mushroom music must mutual myself " ++
   "mystery myth naive name napkin narrow nasty nation nature near neck " ++
   "need negative neglect neither nephew nerve nest net network neutral " ++
   "never news next nice night noble noise nominee noodle normal north " ++
   "nose notable note nothing notice novel now nuclear number nurse nut " ++
   "oak obey object oblige obscure observe obtain obvious occur ocean " ++
   "october odor off offer office often oil okay old olive olympic omit " ++
   "once one onion online only open opera opinion oppose option orange " ++
   "orbit orchard order ordinary organ orient original orphan ostrich " ++
   "other outdoor outer output outside oval oven over own owner oxygen " ++
   "oyster ozone pact paddle page pair palace palm panda panel panic " ++
   "panther paper parade parent park parrot party pass patch path " ++
   "patient patrol pattern pause pave payment peace peanut pear peasant " ++
   "pelican pen penalty pencil people pepper perfect permit person pet " ++
   "phone photo phrase physical piano picnic picture piece pig pigeon " ++
   "pill pilot pink pioneer pipe pistol pitch pizza place planet plastic " ++
   "plate play please pledge pluck plug plunge poem poet point polar " ++
   "pole police pond pony pool popular portion position possible post " ++
   "potato pottery poverty powder power practice praise predict prefer " ++
   "prepare present pretty prevent price pride primary print priority " ++
   "prison private prize problem process produce profit program project " ++
   "promote proof property prosper protect proud provide public pudding " ++
   "pull pulp pulse pumpkin punch pupil puppy purchase purity purpose " ++
   "purse push put puzzle pyramid quality quantum quarter question quick " ++
   "quit quiz quote rabbit raccoon race rack radar radio rail rain raise " ++
   "rally ramp ranch random range rapid rare rate rather raven raw razor " ++
   "ready real reason rebel rebuild recall receive recipe record recycle " ++
   "reduce reflect reform refuse region regret regular reject relax " ++
   "release relief rely remain remember remind remove render renew rent " ++
   "reopen repair repeat replace report require rescue resemble resist " ++
   "resource response result retire retreat return reunion reveal review " ++
   "reward rhythm rib ribbon rice rich ride ridge rifle right rigid ring " ++
   "riot ripple risk ritual rival river road roast robot robust rocket " ++
   "romance roof rookie room rose rotate rough round route royal rubber " ++
   "rude rug rule run runway rural sad saddle sadness safe sail salad " ++
   "salmon salon salt salute same sample sand satisfy satoshi sauce " ++
   "sausage save say scale scan scare scatter scene scheme school " ++
   "science scissors scorpion scout scrap screen script scrub sea search " ++
   "season seat second secret section security seed seek segment select " ++
   "sell seminar senior sense sentence series service session settle " ++
   "setup seven shadow shaft shallow share shed shell sheriff shield " ++
   "shift shine ship shiver shock shoe shoot shop short shoulder shove " ++
   "shrimp shrug shuffle shy sibling sick side siege sight sign silent " ++
   "silk silly silver similar simple since sing siren sister situate six " ++
   "size skate sketch ski skill skin skirt skull slab slam sleep slender " ++
   "slice slide slight slim slogan slot slow slush small smart smile " ++
   "smoke smooth snack snake snap sniff snow soap soccer social sock " ++
   "soda soft solar soldier solid solution solve someone song soon sorry " ++
   "sort soul sound soup source south space spare spatial spawn speak " ++
   "special speed spell spend sphere spice spider spike spin spirit " ++
   "split spoil sponsor spoon sport spot spray spread spring spy square " ++
   "squeeze squirrel stable stadium staff stage stairs stamp stand start " ++
   "state stay steak steel stem step stereo stick still sting stock " ++
   "stomach stone stool story stove strategy street strike strong " ++
   "struggle student stuff stumble style subject submit subway success " ++
   "such sudden suffer sugar suggest suit summer sun sunny sunset super " ++
   "supply supreme sure surface surge surprise surround survey suspect " ++
   "sustain swallow swamp swap swarm swear sweet swift swim swing switch " ++
   "sword symbol symptom syrup system table tackle tag tail talent talk " ++
   "tank tape target task taste tattoo taxi teach team tell ten tenant " ++
   "tennis tent term test text thank that theme then theory there they " ++
   "thing this thought three thrive throw thumb thunder ticket tide " ++
   "tiger tilt timber time tiny tip tired tissue title toast tobacco " ++
   "today toddler toe together toilet token tomato tomorrow tone tongue " ++
   "tonight tool tooth top topic topple torch tornado tortoise toss " ++
   "total tourist toward tower town toy track trade traffic tragic train " ++
   "transfer trap trash travel tray treat tree trend trial tribe trick " ++
   "trigger trim trip trophy trouble truck true truly trumpet trust " ++
   "truth try tube tuition tumble tuna tunnel turkey turn turtle twelve " ++
   "twenty twice twin twist two type typical ugly umbrella unable " ++
   "unaware uncle uncover under undo unfair unfold unhappy uniform " ++
   "unique unit universe unknown unlock until unusual unveil update " ++
   "upgrade uphold upon upper upset urban urge usage use used useful " ++
   "useless usual utility vacant vacuum vague valid valley valve van " ++
   "vanish vapor various vast vault vehicle velvet vendor venture venue " ++
   "verb verify version very vessel veteran viable vibrant vicious " ++
   "victory video view village vintage violin virtual virus visa visit " ++
   "visual vital vivid vocal voice void volcano volume vote voyage wage " ++
   "wagon wait walk wall walnut want warfare warm warrior wash wasp " ++
   "waste water wave way wealth weapon wear weasel weather web wedding " ++
   "weekend weird welcome west wet whale what wheat wheel when where " ++
   "whip whisper wide width wife wild will win window wine wing wink " ++
   "winner winter wire wisdom wise wish witness wolf woman wonder wood " ++
   "wool word work world worry worth wrap wreck wrestle wrist write " ++
   "wrong yard year yellow you young youth zebra zero zone zoo")%string.

Definition DEFAULT_WORDLIST : list jsstring :=
  split_spaces (lit english_text) [].

(** [words.join(' ')] *)
Fixpoint join_spaces (ws : list jsstring) : jsstring :=
  match ws with
  | [] => []
  | [w] => w
  | w :: rest => w ++ [32] ++ join_spaces rest
  end.

(** [wordlist.indexOf(word)] *)
Fixpoint indexOf (wordlist : list jsstring) (word : jsstring) (i : N) : option N :=
  match wordlist with
  | [] => None
  | w :: rest => if jsstring_eqb w word then Some i else indexOf rest word (i + 1)
  end.

(** The [n] low bits of [x], most significant first. *)
Fixpoint bits_of (n : nat) (x : N) : list bool :=
  match n with
  | O => []
  | S n' => N.testbit x (N.of_nat n') :: bits_of n' x
  end.

Definition value_of_bits (bits : list bool) : N :=
  fold_left (fun acc (b : bool) => 2 * acc + (if b then 1 else 0)) bits 0.

Definition bytesToBinary (bs : bytes) : list bool := flat_map (bits_of 8) bs.

(** The first [ENT / 32] bits of the SHA-256 of the entropy. *)
Definition deriveChecksumBits (entropy : bytes) : list bool :=
  firstn (length entropy * 8 / 32) (bytesToBinary (sha256 entropy)).

Definition INVALID_MNEMONIC : JsError := Error "Invalid mnemonic".
Definition INVALID_ENTROPY : JsError := Error "Invalid entropy".
Definition INVALID_CHECKSUM : JsError := Error "Invalid mnemonic checksum".

Fixpoint word_bits (wordlist : list jsstring) (words : list jsstring)
  : option (list bool) :=
  match words with
  | [] => Some []
  | word :: rest =>
      match indexOf wordlist word 0, word_bits wordlist rest with
      | Some i, Some bits => Some (bits_of 11 i ++ bits)
      | _, _ => None
      end
  end.

Section Normalize.
(** [str.normalize('NFKD')]. The decomposition tables of Unicode are
    not modelled; what matters here is that the normal form of a text of
    ASCII characters is the text itself. *)
Variable normalize : jsstring -> jsstring.

Definition mnemonicToEntropy (mnemonic : jsstring) : outcome bytes :=
  let words := split_spaces (normalize mnemonic) [] in
  if negb (length words mod 3 =? 0)%nat then Thrown INVALID_MNEMONIC
  else
    match word_bits DEFAULT_WORDLIST words with
    | None => Thrown INVALID_MNEMONIC
    | Some bits =>
        let dividerIndex := (length bits / 33 * 32)%nat in
        let entropyBits := firstn dividerIndex bits in
        let checksumBits := skipn dividerIndex bits in
        let entropyBytes :=
          List.map value_of_bits (chunks (length entropyBits) 8 entropyBits) in
        if (length entropyBytes <? 16)%nat then Thrown INVALID_ENTROPY
        else if (32 <? length entropyBytes)%nat then Thrown INVALID_ENTROPY
        else if negb (length entropyBytes mod 4 =? 0)%nat then Thrown INVALID_ENTROPY
        else if negb (bool_decide (deriveChecksumBits entropyBytes = checksumBits))
             then Thrown INVALID_CHECKSUM
        else Returned entropyBytes
    end.

Definition validateMnemonic (mnemonic : jsstring) : bool :=
  match mnemonicToEntropy mnemonic with
  | Returned _ => true
  | Thrown _ => false
  end.

Definition entropyToMnemonic (entropy : bytes) : outcome jsstring :=
  if (length entropy <? 16)%nat then Thrown (TypeError "Invalid entropy")
  else if (32 <? length entropy)%nat then Thrown (TypeError "Invalid entropy")
  else if negb (length entropy mod 4 =? 0)%nat then Thrown (TypeError "Invalid entropy")
  else
    let bits := bytesToBinary entropy ++ deriveChecksumBits entropy in
    let words :=
      List.map (fun chunk => nth (N.to_nat (value_of_bits chunk)) DEFAULT_WORDLIST [])
               (chunks (length bits) 11 bits) in
    Returned (join_spaces words).

(** [Buffer.from(str, 'utf8')]: a surrogate pair is one code point, a
    lone surrogate is U+FFFD. *)
Fixpoint utf8 (s : jsstring) : bytes :=
  match s with
  | [] => []
  | c :: rest =>
      if c <? 128 then c :: utf8 rest
      else if c <? 2048 then
        [192 + c / 64; 128 + c mod 64] ++ utf8 rest
      else if is_leading_surrogate c then
        match rest with
        | d :: rest' =>
            if is_trailing_surrogate d then
              let cp := 65536 + (c - 55296) * 1024 + (d - 56320) in
              [240 + cp / 262144; 128 + cp / 4096 mod 64;
               128 + cp / 64 mod 64; 128 + cp mod 64] ++ utf8 rest'
            else [239; 191; 189] ++ utf8 rest
        | [] => [239; 191; 189]
        end
      else if is_trailing_surrogate c then [239; 191; 189] ++ utf8 rest
      else [224 + c / 4096; 128 + c / 64 mod 64; 128 + c mod 64] ++ utf8 rest
  end.

(** [mnemonicToSeed(mnemonic)], with the empty password. *)
Definition mnemonicToSeed (mnemonic : jsstring) : outcome bytes :=
  let mnemonicBuffer := utf8 (normalize mnemonic) in
  let saltBuffer := utf8 (lit "mnemonic" ++ normalize []) in
  Returned (pbkdf2_sha512_64 mnemonicBuffer saltBuffer 2048).

End Normalize.

End Bip39.

(** *** bip32 *)

Module Bip32.
Import Js Packages Hashes.
Local Open Scope N_scope.

Definition HIGHEST_BIT : N := 0x80000000.

(** [fuel] bounds the steps to the next index when a derived key is
    not valid. *)
Definition retries : nat := 16.

Section Factory.
Variable ecc : TinySecp256k1.

(** The node of a private key, with its public key. *)
Definition fromPrivateKeyLocal (privateKey chainCode : bytes) (network : Network)
  (parentFingerprint : N) : outcome BIP32Node :=
  if negb ((length privateKey =? 32)%nat && (length chainCode =? 32)%nat)
  then Thrown (TypeError "Expected property of type Buffer(Length: 32)")
  else if negb (isPrivate ecc privateKey)
  then Thrown (TypeError "Private key not in range [1, n)")
  else
    match pointFromScalar ecc privateKey (Some true) with
    | Returned (Some Q) =>
        Returned (mkNode (Some privateKey) Q chainCode network parentFingerprint)
    | Returned None => Thrown (TypeError "Expected Point")
    | Thrown e => Thrown e
    end.

Definition fromPublicKeyLocal (publicKey chainCode : bytes) (network : Network)
  (parentFingerprint : N) : outcome BIP32Node :=
  if negb (isPoint ecc publicKey)
  then Thrown (TypeError "Point is not on the curve")
  else Returned (mkNode None publicKey chainCode network parentFingerprint).

Definition fromSeed (seed : bytes) (network : Network) : outcome BIP32Node :=
  if (length seed <? 16)%nat
  then Thrown (TypeError "Seed should be at least 128 bits")
  else if (64 <? length seed)%nat
  then Thrown (TypeError "Seed should be at most 512 bits")
  else
    let I := hmacSHA512 (lit "Bitcoin seed") seed in
    fromPrivateKeyLocal (firstn 32 I) (skipn 32 I) network 0.

(** The first four bytes of the identifier of a node. *)
Definition fingerprint (node : BIP32Node) : N :=
  be_value (firstn 4 (hash160 (node_publicKey node))).

Fixpoint derive_from (fuel : nat) (node : BIP32Node) (index : N)
  : outcome BIP32Node :=
  match fuel with
  | O => Thrown (Error "derive: no valid child key")
  | S fuel' =>
      if negb (index <? 2 ^ 32)
      then Thrown (TypeError "Expected UInt32")
      else
        let isHardened := HIGHEST_BIT <=? index in
        let data :=
          if isHardened then
            match node_privateKey node with
            | Some d => Returned ([0] ++ d ++ be_bytes 4 index)
            | None => Thrown (TypeError "Missing private key for hardened child key")
            end
          else Returned (node_publicKey node ++ be_bytes 4 index) in
        match data with
        | Thrown e => Thrown e
        | Returned data =>
            let I := hmacSHA512 (node_chainCode node) data in
            let IL := firstn 32 I in
            let IR := skipn 32 I in
            (* if parse256(IL) >= n, proceed with the next value for i *)
            if negb (isPrivate ecc IL) then derive_from fuel' node (index + 1)
            else
              match node_privateKey node with
              | Some d =>
                  (* ki = parse256(IL) + kpar (mod n) *)
                  match privateAdd ecc d IL with
                  | Returned (Some ki) =>
                      fromPrivateKeyLocal ki IR (node_network node) (fingerprint node)
                  | Returned None => derive_from fuel' node (index + 1)
                  | Thrown e => Thrown e
                  end
              | None =>
                  (* Ki = point(parse256(IL)) + Kpar *)
                  match pointAddScalar ecc (node_publicKey node) IL (Some true) with
                  | Returned (Some Ki) =>
                      fromPublicKeyLocal Ki IR (node_network node) (fingerprint node)
                  | Returned None => derive_from fuel' node (index + 1)
                  | Thrown e => Thrown e
                  end
              end
        end
  end.

Definition derive (node : BIP32Node) (index : N) : outcome BIP32Node :=
  derive_from retries node index.

Definition deriveHardened (node : BIP32Node) (index : N) : outcome BIP32Node :=
  if negb (index <? 2 ^ 31) then Thrown (TypeError "Expected UInt31")
  else derive node (index + HIGHEST_BIT).

(** [s.split('/')] *)
Fixpoint split_slashes (s cur : jsstring) : list jsstring :=
  match s with
  | [] => [rev cur]
  | c :: rest =>
      if c =? 47 then rev cur :: split_slashes rest []
      else split_slashes rest (c :: cur)
  end.

(** A segment of a path: its index and whether it is hardened, when it
    is digits with at most one quote after them. *)
Definition path_segment (seg : jsstring) : option (N * bool) :=
  let (digits, hardened) :=
    match rev seg with
    | q :: r => if q =? 39 then (rev r, true) else (seg, false)
    | [] => (seg, false)
    end in
  match digits with
  | [] => None
  | _ => if forallb is_digit digits
         then Some (fold_left (fun acc c => acc * 10 + (c - 48)) digits 0, hardened)
         else None
  end.

Fixpoint derive_segments (node : BIP32Node) (segs : list (N * bool))
  : outcome BIP32Node :=
  match segs with
  | [] => Returned node
  | (index, hardened) :: rest =>
      match (if hardened : bool then deriveHardened node index else derive node index) with
      | Returned child => derive_segments child rest
      | Thrown e => Thrown e
      end
  end.

Fixpoint all_some {A} (l : list (option A)) : option (list A) :=
  match l with
  | [] => Some []
  | Some a :: rest =>
      match all_some rest with Some r => Some (a :: r) | None => None end
  | None :: _ => None
  end.

Definition derivePath (node : BIP32Node) (path : jsstring) : outcome BIP32Node :=
  let splitPath := split_slashes path [] in
  let (master, segments) :=
    match splitPath with
    | first :: rest =>
        if jsstring_eqb first (lit "m") then (true, rest) else (false, splitPath)
    | [] => (false, splitPath)
    end in
  match all_some (List.map path_segment segments), segments with
  | Some segs, _ :: _ =>
      if master && negb (node_parentFingerprint node =? 0)
      then Thrown (TypeError "Expected master, got child")
      else derive_segments node segs
  | _, _ => Thrown (TypeError "Expected BIP32Path")
  end.

Definition BIP32Factory : BIP32API := mkBIP32 fromSeed derivePath.

End Factory.

End Bip32.

(** *** bitcoinjs-lib: [ECPair] and the pay-to-public-key-hash payment *)

Module Bitcoin.
Import Js Packages Hashes.
Local Open Scope N_scope.

(** [bitcoin.ECPair.fromPrivateKey(privateKey, { network })].  The
    service calls [bitcoin.initEccLib], which bitcoinjs-lib exports
    since its version 6.1, and [bitcoin.ECPair], which it exports up to
    its version 5 only (key pairs moved to the package ecpair with
    version 6.0).  In a release where the module of the service loads,
    [bitcoin.ECPair] is [undefined], and reading [fromPrivateKey] of it
    throws a TypeError whatever the arguments. *)
Definition ECPair_fromPrivateKey (buffer : option bytes) (network : Network)
  : outcome ECPair :=
  Thrown (TypeError "Cannot read properties of undefined (reading 'fromPrivateKey')").

(** [keyPair.toWIF()]: no key pair comes out of the call above. *)
Definition ECPair_toWIF (pair : ECPair) : outcome jsstring :=
  Thrown (TypeError "Cannot read properties of undefined (reading 'toWIF')").

(** [types.isPoint] of bitcoinjs-lib, which [payments.p2pkh] asks of its
    [pubkey]: the prefix, the length and the range of the coordinates,
    not the equation of the curve. *)
Definition types_isPoint (pubkey : bytes) : bool :=
  if (length pubkey <? 33)%nat then false
  else
    let t := nth 0 pubkey 0 in
    let x := be_value (firstn 32 (skipn 1 pubkey)) in
    if x =? 0 then false
    else if Secp256k1.p <=? x then false
    else if ((t =? 2) || (t =? 3)) && (length pubkey =? 33)%nat then true
    else if (length pubkey =? 65)%nat then
      let y := be_value (skipn 33 pubkey) in
      negb (y =? 0) && (y <? Secp256k1.p) && (t =? 4)
    else false.

(** The address of [payments.p2pkh({ pubkey, network })]. *)
Definition payments_p2pkh (pubkey : bytes) (network : Network) : outcome jsstring :=
  if negb (types_isPoint pubkey)
  then Thrown (TypeError "Expected property pubkey of type isPoint")
  else Returned (Base58.encode_check ([pubKeyHash network] ++ hash160 pubkey)).

End Bitcoin.

(** *** The imports, as the published algorithms define them *)

Module Reference.
Import Js Packages.

(** [str.normalize('NFKD')] on a text of ASCII characters, which it
    leaves as it is.  The decomposition tables of Unicode are not
    modelled: on a text with other characters this function is not
    NFKD (bip39 reads the ideographic space U+3000 as a space, this
    function does not).  It stands for [normalize] in the worked
    examples, all of them ASCII; the theorems hold for every
    [normalize]. *)
Definition normalize_ascii (s : jsstring) : jsstring := s.

Definition imports (normalize : jsstring -> jsstring) : Imports := {|
  bip39_entropyToMnemonic := Bip39.entropyToMnemonic;
  bip39_validateMnemonic := Bip39.validateMnemonic normalize;
  bip39_mnemonicToSeed := Bip39.mnemonicToSeed normalize;
  ecc := Secp256k1.ecc;
  BIP32Factory := Bip32.BIP32Factory;
  ECPair_fromPrivateKey := Bitcoin.ECPair_fromPrivateKey;
  ECPair_toWIF := Bitcoin.ECPair_toWIF;
  payments_p2pkh := Bitcoin.payments_p2pkh
|}.

End Reference.

(** * Properties of the wallet service *)

Import Js Platform Packages WalletService.

(** ** Vocabulary *)

(** The properties [JSON.parse] creates for members with string values,
    on top of [acc]. *)
Definition string_properties (ms : list (jsstring * jsstring))
  (acc : list (jsstring * JsValue)) : list (jsstring * JsValue) :=
  fold_left (fun acc m => define_property acc (fst m) (JString (snd m))) ms acc.

(** The world after a storage request: the fault is consumed, the event
    is in the trace. *)
Definition after_request (w : World) (ev : list Event)
  (st : gmap jsstring jsstring) : World :=
  mkWorld st (tail (storage_faults w)) (remote w)
          (random_source w) (random_used w) (trace w ++ ev).

(** *** The chain-data lookups *)

(** The address the balance is asked at. *)
Definition balance_url (address : jsstring) : jsstring :=
  lit "https://api.blockcypher.com/v1/btc/test3/addrs/" ++ address ++ lit "/balance".

(** The address the transactions are asked at. *)
Definition history_url (address : jsstring) : jsstring :=
  lit "https://api.blockcypher.com/v1/btc/test3/addrs/" ++ address
  ++ lit "/full?limit=10".

(** The JSON payload of an answer: a response with a status in the
    range 200-299 whose body is JSON text. Any other answer is a
    failure of the lookup. *)
Definition payload (answer : FetchResult) : option JsValue :=
  match answer with
  | NetworkFailure _ => None
  | Responded st body =>
      if (200 <=? st) && (st <=? 299) then
        match body with
        | inl text => JSON_parse text
        | inr _ => None
        end
      else None
  end.

(** The world after a lookup: the request, and the error logged if it
    failed. *)
Definition after_lookup (w : World) (ev : list Event) : World :=
  mkWorld (storage w) (storage_faults w) (remote w)
          (random_source w) (random_used w) (trace w ++ ev).

(** A world that is empty but for the answer of the remote API. *)
Definition world_answering (answer : FetchResult) : World :=
  mkWorld ∅ [] (fun _ => answer) (fun _ => 0%N) 0 [].

(** The text [{"txs":v}]. *)
Definition txs_payload (v : jsstring) : jsstring :=
  lit "{" ++ QuoteJSONString (lit "txs") ++ lit ":" ++ v ++ lit "}".

(** *** The two constructors of a wallet *)

(** One step after another, the first error ending the run. *)
Definition outcome_bind {A B} (r : outcome A) (k : A -> outcome B) : outcome B :=
  match r with
  | Returned a => k a
  | Thrown e => Thrown e
  end.

(** The bytes [randomBytes n] draws in [w], and the world it leaves. *)
Definition drawn (n : nat) (w : World) : bytes :=
  List.map (fun i => random_source w (random_used w + i)%nat mod 256)%N (seq 0 n).

(** The world after [n] random bytes were drawn. *)
Definition after_random (n : nat) (w : World) : World :=
  mkWorld (storage w) (storage_faults w) (remote w) (random_source w)
          (random_used w + n)%nat (trace w ++ [EvRandomBytes n]).

(** The storage writes among events. *)
Definition writes (evs : list Event) : list Event :=
  List.filter (fun ev => match ev with
                         | EvSetItem _ _ | EvRemoveItem _ => true
                         | _ => false
                         end) evs.

Section CreationVocabulary.
Context {imports : Imports}.

(** The derivation from a mnemonic to the wallet, as both constructors
    write it out: seed, root, account at [m/44'/0'/0'/0/0], key pair,
    address, WIF. It does not touch the world. *)
Definition derivation (mnemonic : jsstring) : outcome Wallet :=
  outcome_bind (bip39_mnemonicToSeed mnemonic) (fun seed =>
  outcome_bind (fromSeed bip32 seed network) (fun root =>
  outcome_bind (derivePath bip32 root (lit "m/44'/0'/0'/0/0")) (fun account =>
  outcome_bind (ECPair_fromPrivateKey (node_privateKey account) network) (fun keyPair =>
  outcome_bind (payments_p2pkh (node_publicKey account) network) (fun address =>
  outcome_bind (ECPair_toWIF keyPair) (fun wif =>
  outcome_bind (toString_hex_of (node_privateKey account)) (fun privateKey_hex =>
  Returned (mkWallet mnemonic privateKey_hex
                     (toString_hex (node_publicKey account)) address wif)))))))).

(** What a constructor does once it has the mnemonic. *)
Definition derive_and_save (mnemonic : jsstring) (w : World) : outcome Wallet * World :=
  match derivation mnemonic with
  | Thrown e => (Thrown e, w)
  | Returned wallet =>
      match saveWallet wallet w with
      | (Returned _, w') => (Returned wallet, w')
      | (Thrown e, w') => (Thrown e, w')
      end
  end.

(** A run of a constructor from [w] is atomic when the only storage
    write it issues is the whole record of a wallet the derivation
    returned: when it returns that wallet, the record is stored; when it
    throws, the storage is as it was, and no write was issued or that
    one was and failed with the error thrown. *)
Definition atomic (w : World) (run : outcome Wallet * World) : Prop :=
  exists evs,
    trace (snd run) = trace w ++ evs
    /\ match fst run with
       | Returned wallet =>
           derivation (mnemonic wallet) = Returned wallet
           /\ writes evs = [EvSetItem WALLET_STORAGE_KEY (JSON_stringify wallet)]
           /\ storage (snd run)
              = <[WALLET_STORAGE_KEY := JSON_stringify wallet]> (storage w)
       | Thrown e =>
           storage (snd run) = storage w
           /\ (writes evs = []
               \/ exists wallet,
                    derivation (mnemonic wallet) = Returned wallet
                    /\ writes evs = [EvSetItem WALLET_STORAGE_KEY (JSON_stringify wallet)]
                    /\ next_fault w = Some e)
       end.

End CreationVocabulary.

(** *** Mnemonics *)

(** The number of words of a mnemonic: of the pieces between its spaces. *)
Definition word_count (mnemonic : jsstring) : nat :=
  length (Bip39.split_spaces mnemonic []).

(** The lexicographic order on texts, by code unit. *)
Fixpoint lex_ltb (a b : jsstring) : bool :=
  match a, b with
  | _, [] => false
  | [], _ :: _ => true
  | x :: a', y :: b' => (x <? y)%N || ((x =? y)%N && lex_ltb a' b')
  end.

(** Each text is below the next one. *)
Fixpoint ascending (l : list jsstring) : bool :=
  match l with
  | a :: (b :: _) as rest => lex_ltb a b && ascending rest
  | _ => true
  end.

(** A word of ASCII characters without a space. *)
Definition plain_word (w : jsstring) : bool :=
  forallb (fun c => (c <? 128)%N && negb (c =? 32)%N) w.

(** *** Worked examples *)

(** The packages as their published algorithms define them. *)
Definition reference : Imports := Reference.imports Reference.normalize_ascii.

(** The bytes a text of hexadecimal digits stands for. *)
Fixpoint from_hex (s : jsstring) : bytes :=
  match s with
  | a :: b :: rest =>
      match hex_value a, hex_value b with
      | Some x, Some y => (16 * x + y)%N :: from_hex rest
      | _, _ => []
      end
  | _ => []
  end.

(** The mnemonic of sixteen zero bytes, and that of thirty-two. *)
Definition mnemonic12 : jsstring :=
  lit "abandon abandon abandon abandon abandon abandon abandon abandon abandon abandon abandon about".

(** The mnemonic of thirty-two zero bytes. *)
Definition mnemonic24 : jsstring :=
  lit "abandon abandon abandon abandon abandon abandon abandon abandon abandon abandon abandon abandon abandon abandon abandon abandon abandon abandon abandon abandon abandon abandon abandon art".

(** The 2048 rounds of PBKDF2 behind [mnemonicToSeed] are out of reach
    of an evaluation in the kernel. The seeds of the two mnemonics above
    are tabulated here, as PBKDF2-HMAC-SHA512 gives them. *)
Definition known_seeds : list (jsstring * bytes) :=
  [(mnemonic12,
    from_hex (lit "5eb00bbddcf069084889a8ab9155568165f5c453ccb85e70811aaed6f6da5fc19a5ac40b389cd370d086206dec8aa6c43daea6690f20ad3d8d48b2d2ce9e38e4"));
   (mnemonic24,
    from_hex (lit "408b285c123836004f4b8842c89324c1f01382450c0d439af345ba7fc49acf705489c6fc77dbd4e3dc1dd8cc6bc9f043db8ada1e243c4a0eafb290d399480840"))].

(** The seed tabulated for a mnemonic. *)
Fixpoint known_seed (table : list (jsstring * bytes)) (mnemonic : jsstring)
  : option bytes :=
  match table with
  | [] => None
  | (m, seed) :: rest =>
      if jsstring_eqb m mnemonic then Some seed else known_seed rest mnemonic
  end.

(** The reference imports, with the seeds of the table looked up
    rather than computed; everything else is as in [reference]. *)
Definition tabulated : Imports := {|
  bip39_entropyToMnemonic := @bip39_entropyToMnemonic reference;
  bip39_validateMnemonic := @bip39_validateMnemonic reference;
  bip39_mnemonicToSeed mnemonic :=
    match known_seed known_seeds mnemonic with
    | Some seed => Returned seed
    | None => @bip39_mnemonicToSeed reference mnemonic
    end;
  ecc := @ecc reference;
  BIP32Factory := @BIP32Factory reference;
  ECPair_fromPrivateKey := @ECPair_fromPrivateKey reference;
  ECPair_toWIF := @ECPair_toWIF reference;
  payments_p2pkh := @payments_p2pkh reference
|}.

(** What reading [fromPrivateKey] of the missing [bitcoin.ECPair]
    throws. *)
Definition no_ECPair : JsError :=
  TypeError "Cannot read properties of undefined (reading 'fromPrivateKey')".

(** Two wallet records, as examples of what the storage can hold: the
    keys of BIP32 for the two mnemonics at [m/44'/0'/0'/0/0], with the
    address and the WIF of the test network. *)
Definition wallet12 : Wallet :=
  mkWallet mnemonic12
    (lit "e284129cc0922579a535bbf4d1a3b25773090d28c909bc0fed73b5e0222cc372")
    (lit "03aaeb52dd7494c361049de67cc680e83ebcbbbdbeb13637d92cd845f70308af5e")
    (lit "n1M8ZVQtL7QoFvGMg24D6b2ojWvFXCGpoS")
    (lit "cVB244V26CSLjv3xdR7KfoVdNufdqHSMuAMgjqBUfwWQR4WVFsky").

Definition wallet24 : Wallet :=
  mkWallet mnemonic24
    (lit "cb4793fa23e98437e2d37655eaaa59cf03a0637ea890f85a85d91946e9214c64")
    (lit "0342d943b8dba93a4ce29b858479c67f1e4f1110eecbe1f83dc01b455eb8b123b3")
    (lit "myhatEPQJa6vHPz8GakB47sxMB2wichCbk")
    (lit "cUPrHkMUAwhc4RPparGU7uDii12fdud9MUeNjAt4jTmGpx7KEDwb").

(** A fresh installation: nothing stored, no fault scheduled, no
    network, a random source of zeros. *)
Definition fresh_world : World :=
  mkWorld ∅ [] (fun _ => NetworkFailure (TypeError "Network request failed"))
          (fun _ => 0%N) 0 [].

(** A world where a wallet is stored already. *)
Definition used_world : World :=
  mkWorld {[WALLET_STORAGE_KEY := JSON_stringify wallet24]} []
          (fun _ => NetworkFailure (TypeError "Network request failed"))
          (fun _ => 0%N) 0 [EvGetItem WALLET_STORAGE_KEY].

(** A world whose storage rejects the next request. *)
Definition disk_full : JsError := Error "database or disk is full".
Definition faulty_world : World :=
  mkWorld {[WALLET_STORAGE_KEY := JSON_stringify wallet24]} [Some disk_full]
          (fun _ => NetworkFailure (TypeError "Network request failed"))
          (fun _ => 0%N) 0 [].

(** The world a served [saveWallet] leaves. *)
Definition saved (wallet : Wallet) (w : World) : World :=
  after_request w [EvSetItem WALLET_STORAGE_KEY (JSON_stringify wallet)]
    (<[WALLET_STORAGE_KEY := JSON_stringify wallet]> (storage w)).

(** *** Further vocabulary *)

(** The loop of [toBuffer] on whatever [Buffer.allocUnsafe] handed back. *)
Definition toBuffer_from (buffer arr : bytes) : bytes :=
  fold_left (fun buffer i => <[i := nth i arr 0%N]> buffer)
            (seq 0 (length arr)) buffer.

(** An effect on the storage or the console. *)
Definition storage_or_console (ev : Event) : bool :=
  match ev with
  | EvSetItem _ _ | EvConsoleError _ _ => true
  | _ => false
  end.

(** A text JSON.stringify copies as it is: no quote, no backslash, no
    control character, no surrogate. *)
Definition plain_text (s : jsstring) : bool :=
  forallb (fun c => (32 <=? c) && negb (c =? 34) && negb (c =? 92) && (c <? 55296))%N s.

(** [needle] is a part of [text]. *)
Definition occurs_in (needle text : jsstring) : Prop :=
  exists before after, text = before ++ needle ++ after.

(** A transaction of the API, cut down to the properties the screen reads. *)
Definition sample_transaction (hash : jsstring) : JsValue :=
  JObject [(lit "hash", JString hash);
           (lit "received", JString (lit "2024-01-01T00:00:00Z"))].

(** Six transactions. *)
Definition six_transactions : list JsValue :=
  List.map (fun c => sample_transaction [c]) [97; 98; 99; 100; 101; 102]%N.

(** The rows of the first five. *)
Definition five_rows : list WalletScreen.Row :=
  List.map (fun c => WalletScreen.mkRow (JString [c])
                       (JString (lit "2024-01-01T00:00:00Z")))
           [97; 98; 99; 100; 101]%N.

(** A storage that holds [text] under the key of the wallet, and
    serves every request. *)
Definition world_storing (text : jsstring) : World :=
  mkWorld {[WALLET_STORAGE_KEY := text]} []
          (fun _ => NetworkFailure (TypeError "Network request failed"))
          (fun _ => 0%N) 0 [].

(** A platform whose numbers print as nothing: no number is printed in
    the examples. *)
Definition sample_builtins : WalletScreen.Builtins :=
  WalletScreen.mkBuiltins (fun _ => []).

(** ** JSON.parse reads what JSON.stringify wrote *)

(** A hexadecimal digit reads as the value it was written for. *)
Lemma hex_value_hex_digit (n : N) : (n < 16)%N -> hex_value (hex_digit n) = Some n.
Proof.
  intros H.
  assert (Hc : n ∈ List.map N.of_nat (seq 0 16)).
  { apply list_elem_of_In, in_map_iff. exists (N.to_nat n). split; [lia|]. apply in_seq. lia. }
  vm_compute in Hc.
  repeat (apply elem_of_cons in Hc as [-> | Hc]; [reflexivity|]).
  inversion Hc.
Qed.

(** The four digits of [\uXXXX] read as the code unit. *)
Lemma hex4_UnicodeEscape (c : N) :
  (c < 65536)%N ->
  hex4 (hex_digit (N.shiftr c 12 mod 16)) (hex_digit (N.shiftr c 8 mod 16))
       (hex_digit (N.shiftr c 4 mod 16)) (hex_digit (c mod 16)) = Some c.
Proof.
  intros H. unfold hex4.
  rewrite !hex_value_hex_digit by (apply N.mod_lt; discriminate).
  f_equal. rewrite !N.shiftr_div_pow2.
  change (2 ^ 12)%N with 4096%N. change (2 ^ 8)%N with 256%N. change (2 ^ 4)%N with 16%N.
  zify. Z.to_euclidean_division_equations. lia.
Qed.

(** An escaped code unit is read as that code unit. *)
Lemma parse_string_chars_escape (c : N) (tl acc : jsstring) :
  (c < 65536)%N ->
  parse_string_chars (UnicodeEscape c ++ tl) acc = parse_string_chars tl (c :: acc).
Proof.
  intros H. unfold UnicodeEscape.
  cbn [app parse_string_chars].
  change (92 =? 34)%N with false. change (92 =? 92)%N with true.
  change (117 =? 117)%N with true. cbv iota.
  now rewrite hex4_UnicodeEscape.
Qed.

(** A code unit that needs no escape is read as itself. *)
Lemma parse_string_chars_literal (c : N) (tl acc : jsstring) :
  c <> 34%N -> c <> 92%N -> (32 <= c)%N ->
  parse_string_chars (c :: tl) acc = parse_string_chars tl (c :: acc).
Proof.
  intros H1 H2 H3. cbn [parse_string_chars].
  apply N.eqb_neq in H1, H2. rewrite H1, H2.
  assert ((c <? 32)%N = false) as -> by (apply N.ltb_ge; lia).
  reflexivity.
Qed.

(** Whatever [quote_unit] writes for a code unit reads as that code unit. *)
Lemma parse_string_chars_unit (c : N) (tl acc : jsstring) :
  parse_string_chars (quote_unit c ++ tl) acc = parse_string_chars tl (c :: acc).
Proof.
  unfold quote_unit, is_leading_surrogate, is_trailing_surrogate.
  repeat match goal with
  | |- context [(c =? ?k)%N] =>
      destruct (N.eqb_spec c k) as [-> | ?]; [reflexivity|]
  end.
  destruct (c <? 32)%N eqn:Hlt; cbn [orb].
  { apply parse_string_chars_escape. apply N.ltb_lt in Hlt. lia. }
  apply N.ltb_ge in Hlt.
  destruct ((55296 <=? c)%N && (c <=? 56319)%N) eqn:Hl; cbn [orb].
  { apply parse_string_chars_escape. apply andb_true_iff in Hl as [_ Hl].
    apply N.leb_le in Hl. lia. }
  destruct ((56320 <=? c)%N && (c <=? 57343)%N) eqn:Ht.
  { apply parse_string_chars_escape. apply andb_true_iff in Ht as [_ Ht].
    apply N.leb_le in Ht. lia. }
  cbn [app]. now apply parse_string_chars_literal.
Qed.

(** A surrogate is none of the characters with an escape of their own. *)
Lemma surrogate_literal (c : N) :
  is_leading_surrogate c || is_trailing_surrogate c = true ->
  c <> 34%N /\ c <> 92%N /\ (32 <= c)%N /\ (c < 65536)%N.
Proof.
  unfold is_leading_surrogate, is_trailing_surrogate.
  rewrite orb_true_iff, !andb_true_iff, !N.leb_le. lia.
Qed.

(** Reading back what QuoteJSONString wrote. *)
Lemma parse_string_chars_quote_chars (s : jsstring) :
  (forall acc rest,
     parse_string_chars (quote_chars s ++ 34%N :: rest) acc = Some (rev acc ++ s, rest))
  /\ (forall c acc rest,
     parse_string_chars (quote_chars (c :: s) ++ 34%N :: rest) acc
     = Some (rev acc ++ c :: s, rest)).
Proof.
  induction s as [|d s [IH1 IH2]].
  - assert (H0 : forall acc rest,
      parse_string_chars (quote_chars [] ++ 34%N :: rest) acc = Some (rev acc ++ [], rest)).
    { intros. cbn. now rewrite app_nil_r. }
    split; [exact H0|].
    intros c acc rest.
    change (quote_chars [c]) with
      (if is_leading_surrogate c then UnicodeEscape c
       else quote_unit c ++ quote_chars []).
    destruct (is_leading_surrogate c) eqn:Hc.
    + destruct (surrogate_literal c) as (_ & _ & _ & Hb); [now rewrite Hc|].
      rewrite parse_string_chars_escape by exact Hb.
      cbn. reflexivity.
    + rewrite <- app_assoc, parse_string_chars_unit.
      rewrite (H0 (c :: acc) rest). cbn [rev]. now rewrite <- !app_assoc.
  - split; [exact (IH2 d)|].
    intros c acc rest.
    change (quote_chars (c :: d :: s)) with
      (if is_leading_surrogate c then
         if is_trailing_surrogate d then c :: d :: quote_chars s
         else UnicodeEscape c ++ quote_chars (d :: s)
       else quote_unit c ++ quote_chars (d :: s)).
    destruct (is_leading_surrogate c) eqn:Hc.
    + destruct (surrogate_literal c) as (Hc1 & Hc2 & Hc3 & Hc4); [now rewrite Hc|].
      destruct (is_trailing_surrogate d) eqn:Hd.
      * destruct (surrogate_literal d) as (Hd1 & Hd2 & Hd3 & _);
          [rewrite Hd; apply orb_true_r|].
        cbn [app].
        rewrite parse_string_chars_literal by assumption.
        rewrite parse_string_chars_literal by assumption.
        rewrite IH1. cbn [rev]. now rewrite <- !app_assoc.
      * rewrite <- app_assoc, parse_string_chars_escape by assumption.
        rewrite IH2. cbn [rev]. now rewrite <- !app_assoc.
    + rewrite <- app_assoc, parse_string_chars_unit.
      rewrite IH2. cbn [rev]. now rewrite <- !app_assoc.
Qed.

(** A quoted text reads as the text, up to its closing quote. *)
Lemma parse_QuoteJSONString (s rest : jsstring) :
  exists tl, QuoteJSONString s ++ rest = 34%N :: tl
    /\ parse_string_chars tl [] = Some (s, rest).
Proof.
  exists (quote_chars s ++ 34%N :: rest). split.
  - unfold QuoteJSONString. cbn [app]. now rewrite <- app_assoc.
  - apply (proj1 (parse_string_chars_quote_chars s)).
Qed.

(** A quoted text is a JSON value: the string it quotes. *)
Lemma parse_value_QuoteJSONString (fuel : nat) (s rest : jsstring) :
  parse_value (S fuel) (QuoteJSONString s ++ rest) = Some (JString s, rest).
Proof.
  destruct (parse_QuoteJSONString s rest) as (tl & -> & Htl).
  cbn [parse_value skip_ws]. change (is_ws 34) with false. cbv iota.
  change (34 =? 34)%N with true. cbv iota. now rewrite Htl.
Qed.

(** The members of an object read as the properties they were written
    from, a later duplicate key replacing an earlier one. *)
Lemma parse_members_serialize_members (ms : list (jsstring * jsstring)) :
  ms <> [] ->
  forall fuel acc rest, (length ms < fuel)%nat ->
  parse_members fuel (serialize_members ms ++ 125%N :: rest) acc
  = Some (JObject (string_properties ms acc), rest).
Proof.
  induction ms as [|[k v] ms IH]; [congruence|]. intros _ fuel acc rest Hfuel.
  destruct fuel as [|[|fuel]]; cbn [length] in Hfuel; try lia.
  assert (Hstep : forall tl,
    parse_members (S (S fuel)) (serialize_member (k, v) ++ tl) acc
    = match skip_ws tl with
      | c :: r4 =>
          if (c =? 44)%N
          then parse_members (S fuel) r4 (define_property acc k (JString v))
          else if (c =? 125)%N
               then Some (JObject (define_property acc k (JString v)), r4)
               else None
      | [] => None
      end).
  { intros tl. unfold serialize_member. cbn [fst snd].
    rewrite <- !app_assoc.
    destruct (parse_QuoteJSONString k ([58%N] ++ QuoteJSONString v ++ tl))
      as (tl' & -> & Htl').
    cbn [parse_members skip_ws]. change (is_ws 34) with false. cbv iota.
    change (34 =? 34)%N with true. cbv iota. rewrite Htl'.
    cbn [app skip_ws]. change (is_ws 58) with false. cbv iota.
    change (58 =? 58)%N with true. cbv iota.
    now rewrite parse_value_QuoteJSONString. }
  destruct ms as [|m ms].
  - cbn [serialize_members]. rewrite Hstep. reflexivity.
  - change (serialize_members ((k, v) :: m :: ms))
      with (serialize_member (k, v) ++ [44%N] ++ serialize_members (m :: ms)).
    rewrite <- !app_assoc. rewrite Hstep.
    cbn [app skip_ws]. change (is_ws 44) with false. cbv iota.
    change (44 =? 44)%N with true. cbv iota.
    rewrite IH; [reflexivity | discriminate | cbn [length] in *; lia].
Qed.

(** The text of the members is at least as long as their number: the
    fuel [JSON_parse] takes from the length of the text is enough. *)
Lemma serialize_members_length (ms : list (jsstring * jsstring)) :
  (length ms <= length (serialize_members ms))%nat.
Proof.
  induction ms as [|[k v] [|m ms] IH].
  - cbn. lia.
  - cbn. lia.
  - change (serialize_members ((k, v) :: m :: ms))
      with (serialize_member (k, v) ++ [44%N] ++ serialize_members (m :: ms)).
    rewrite !length_app. cbn [length] in *. lia.
Qed.

(** [JSON.parse(JSON.stringify(o))] for an object [o] whose properties
    are strings. *)
Lemma JSON_parse_SerializeJSONObject (ms : list (jsstring * jsstring)) :
  JSON_parse (SerializeJSONObject ms) = Some (JObject (string_properties ms [])).
Proof.
  unfold JSON_parse, SerializeJSONObject.
  destruct ms as [|m ms]; [reflexivity|].
  set (text := serialize_members (m :: ms)).
  assert (Hq : exists tl, text = 34%N :: tl).
  { subst text. destruct m as [k v]. destruct ms.
    - cbn. eauto.
    - cbn. eauto. }
  destruct Hq as (tl & Hq).
  cbn [app parse_value skip_ws]. change (is_ws 123) with false. cbv iota.
  change (123 =? 34)%N with false. change (123 =? 91)%N with false.
  change (123 =? 123)%N with true. cbv iota.
  rewrite Hq at 1. cbn [app skip_ws]. change (is_ws 34) with false. cbv iota.
  change (34 =? 125)%N with false. cbv iota.
  subst text.
  rewrite parse_members_serialize_members.
  - reflexivity.
  - discriminate.
  - cbn [length]. rewrite length_app. pose proof (serialize_members_length (m :: ms)). cbn [length] in *. lia.
Qed.

(** [JSON.parse(JSON.stringify(wallet))] is the object of the wallet. *)
Lemma JSON_parse_JSON_stringify (wallet : Wallet) :
  JSON_parse (JSON_stringify wallet) = Some (wallet_object wallet).
Proof.
  unfold JSON_stringify. rewrite JSON_parse_SerializeJSONObject. reflexivity.
Qed.

(** ** The storage functions *)

(** The literals of the service stay folded in the proofs below. *)
#[local] Opaque lit WALLET_STORAGE_KEY JSON_stringify.

(** [saveWallet], run: one [setItem], stored when served, logged and
    rethrown when rejected. *)
Lemma saveWallet_run (wallet : Wallet) (w : World) :
  saveWallet wallet w =
  let ev := EvSetItem WALLET_STORAGE_KEY (JSON_stringify wallet) in
  match next_fault w with
  | None =>
      (Returned tt,
       after_request w [ev] (<[WALLET_STORAGE_KEY := JSON_stringify wallet]> (storage w)))
  | Some e =>
      (Thrown e,
       after_request w [ev; EvConsoleError "Error saving wallet:" e] (storage w))
  end.
Proof.
  unfold saveWallet. generalize WALLET_STORAGE_KEY (JSON_stringify wallet).
  intros key value.
  unfold try_catch, AsyncStorage_setItem, bind, emit, storage_request,
    next_fault, after_request, console_error, throw.
  cbn. destruct (storage_faults w) as [|[e|] fs]; cbn; try reflexivity.
  now rewrite <- app_assoc.
Qed.

(** [deleteWallet], run: one [removeItem], logged and rethrown when
    rejected. *)
Lemma deleteWallet_run (w : World) :
  deleteWallet w =
  let ev := EvRemoveItem WALLET_STORAGE_KEY in
  match next_fault w with
  | None => (Returned tt, after_request w [ev] (delete WALLET_STORAGE_KEY (storage w)))
  | Some e =>
      (Thrown e,
       after_request w [ev; EvConsoleError "Error deleting wallet:" e] (storage w))
  end.
Proof.
  unfold deleteWallet. generalize WALLET_STORAGE_KEY. intros key.
  unfold try_catch, AsyncStorage_removeItem, bind, emit,
    storage_request, next_fault, after_request, console_error, throw.
  cbn. destruct (storage_faults w) as [|[e|] fs]; cbn; try reflexivity.
  now rewrite <- app_assoc.
Qed.

(** [loadWallet], run: one [getItem]; null when nothing or the empty
    text is stored, and when the read or the parse fails. *)
Lemma loadWallet_run (w : World) :
  loadWallet w =
  let ev := EvGetItem WALLET_STORAGE_KEY in
  let failed e :=
    (Returned JNull,
     after_request w [ev; EvConsoleError "Error loading wallet:" e] (storage w)) in
  match next_fault w with
  | Some e => failed e
  | None =>
      match storage w !! WALLET_STORAGE_KEY with
      | Some (c :: text) =>
          match JSON_parse (c :: text) with
          | Some v => (Returned v, after_request w [ev] (storage w))
          | None => failed (SyntaxError "JSON Parse error")
          end
      | _ => (Returned JNull, after_request w [ev] (storage w))
      end
  end.
Proof.
  unfold loadWallet. generalize WALLET_STORAGE_KEY. intros key.
  unfold try_catch, AsyncStorage_getItem, bind, emit,
    storage_request, next_fault, after_request, console_error, throw, ret.
  cbn. destruct (storage_faults w) as [|[e|] fs]; cbn.
  - destruct (storage w !! key) as [[|c text]|]; cbn; try reflexivity.
    destruct (JSON_parse (c :: text)); cbn; try reflexivity.
    now rewrite <- app_assoc.
  - now rewrite <- app_assoc.
  - destruct (storage w !! key) as [[|c text]|]; cbn; try reflexivity.
    destruct (JSON_parse (c :: text)); cbn; try reflexivity.
    now rewrite <- app_assoc.
Qed.

(** C4, counterexample. The stored text [42] is JSON, and no wallet
    record: [loadWallet] hands back the number 42, not [null]. *)
Lemma loadWallet_hands_back_stored_JSON :
  fst (loadWallet (world_storing (lit "42"))) = Returned (JNumber 42%float)
  /\ JNumber 42%float <> JNull
  /\ (forall wallet, JNumber 42%float <> wallet_object wallet).
Proof.
  split; [vm_compute; reflexivity|]. split; [discriminate|].
  intros wallet. discriminate.
Qed.

(** C4, amended. [loadWallet] never raises, and returns [null] when the
    key is absent, when the read fails, and when the stored text is not
    JSON. It leaves the stored record as it was. A stored text that is
    JSON is handed back as parsed, a wallet record or not: the code
    looks no further at what [JSON.parse] returned. *)
Theorem loadWallet_never_raises (w : World) :
  exists v w',
    loadWallet w = (Returned v, w')
    /\ storage w' = storage w
    /\ (storage w !! WALLET_STORAGE_KEY = None -> v = JNull)
    /\ (next_fault w <> None -> v = JNull)
    /\ (forall text, storage w !! WALLET_STORAGE_KEY = Some text ->
                     JSON_parse text = None -> v = JNull)
    /\ (forall text data, next_fault w = None ->
                          storage w !! WALLET_STORAGE_KEY = Some text ->
                          JSON_parse text = Some data -> v = data).
Proof.
  rewrite loadWallet_run. cbv zeta.
  destruct (next_fault w) as [e|] eqn:Hf.
  { eexists _, _. repeat split; try reflexivity. discriminate. }
  destruct (storage w !! WALLET_STORAGE_KEY) as [[|c text]|] eqn:Hk.
  - eexists _, _. repeat split; try reflexivity.
    intros text data _ [= <-] Hp. vm_compute in Hp. discriminate.
  - destruct (JSON_parse (c :: text)) as [v|] eqn:Hp.
    + eexists _, _. split; [reflexivity|]. split; [reflexivity|].
      split; [discriminate|]. split; [congruence|].
      split; [intros text' [= <-] Hn; congruence|].
      intros text' data _ [= <-] Hd. congruence.
    + eexists _, _. repeat split; try reflexivity.
      intros text' data _ [= <-] Hd. congruence.
  - eexists _, _. repeat split; try reflexivity. discriminate.
Qed.

(** C8. When the removal is served, [deleteWallet] returns, the key is
    gone, a [loadWallet] that follows returns [null], and on a storage
    without the key nothing changes. *)
Theorem deleteWallet_then_loadWallet (w : World) :
  next_fault w = None ->
  exists w',
    deleteWallet w = (Returned tt, w')
    /\ storage w' !! WALLET_STORAGE_KEY = None
    /\ (exists w'', loadWallet w' = (Returned JNull, w''))
    /\ (storage w !! WALLET_STORAGE_KEY = None -> storage w' = storage w).
Proof.
  intros Hf. rewrite deleteWallet_run, Hf. cbv zeta.
  eexists. split; [reflexivity|].
  assert (Hgone : storage (after_request w [EvRemoveItem WALLET_STORAGE_KEY]
                    (delete WALLET_STORAGE_KEY (storage w))) !! WALLET_STORAGE_KEY = None)
    by apply lookup_delete_eq.
  split; [exact Hgone|]. split.
  - rewrite loadWallet_run. cbv zeta. rewrite Hgone.
    match goal with
    | |- context [match next_fault ?w1 with _ => _ end] => destruct (next_fault w1)
    end; eauto.
  - intros Hnone. cbn. now apply delete_id.
Qed.

(** C9. When the write and the read are served, [loadWallet] after
    [saveWallet wallet] returns the object of [wallet]: each of its five
    properties is the string the wallet has. *)
Theorem saveWallet_then_loadWallet (wallet : Wallet) (w : World) :
  next_fault w = None ->
  nth 1 (storage_faults w) None = None ->
  exists w' w'',
    saveWallet wallet w = (Returned tt, w')
    /\ loadWallet w' = (Returned (wallet_object wallet), w'')
    /\ get_property (wallet_object wallet) (lit "mnemonic") = inl (JString (mnemonic wallet))
    /\ get_property (wallet_object wallet) (lit "privateKey") = inl (JString (privateKey wallet))
    /\ get_property (wallet_object wallet) (lit "publicKey") = inl (JString (publicKey wallet))
    /\ get_property (wallet_object wallet) (lit "address") = inl (JString (address wallet))
    /\ get_property (wallet_object wallet) (lit "wif") = inl (JString (wif wallet)).
Proof.
  intros Hf1 Hf2. rewrite saveWallet_run, Hf1. cbv zeta.
  set (w' := after_request w [EvSetItem WALLET_STORAGE_KEY (JSON_stringify wallet)]
               (<[WALLET_STORAGE_KEY := JSON_stringify wallet]> (storage w))).
  exists w', (after_request w' [EvGetItem WALLET_STORAGE_KEY] (storage w')).
  split; [reflexivity|]. split; [|repeat split; reflexivity].
  rewrite loadWallet_run. cbv zeta.
  assert (next_fault w' = None) as ->.
  { unfold next_fault, w', after_request. cbn.
    destruct (storage_faults w) as [|f [|g fs]]; cbn in *; auto. }
  assert (storage w' !! WALLET_STORAGE_KEY = Some (JSON_stringify wallet)) as ->
    by apply lookup_insert_eq.
  pose proof (JSON_parse_JSON_stringify wallet) as Hparse.
  destruct (JSON_stringify wallet) as [|c text] eqn:Htext; [discriminate|].
  now rewrite Hparse.
Qed.

(** ** The chain-data lookups *)

(** [getWalletBalance], run: one request; 0 and a log when no payload
    came, when the payload has no properties or when its balance
    cannot be converted, else [data.balance / 100000000] and no log. *)
Lemma getWalletBalance_run (address : jsstring) (w : World) :
  exists evs,
    getWalletBalance address w =
    (Returned
       match payload (remote w (balance_url address)) with
       | Some data =>
           match get_property data (lit "balance") with
           | inl balance =>
               match ToNumber balance with
               | Returned satoshis => (satoshis / 100000000)%float
               | Thrown _ => 0%float
               end
           | inr _ => 0%float
           end
       | None => 0%float
       end,
     after_lookup w (EvFetch (balance_url address) :: evs))
    /\ (payload (remote w (balance_url address)) = None ->
        exists e, evs = [EvConsoleError "Error fetching balance:" e])
    /\ (forall data,
          payload (remote w (balance_url address)) = Some data ->
          match get_property data (lit "balance") with
          | inl balance =>
              match ToNumber balance with
              | Returned _ => evs = []
              | Thrown e => evs = [EvConsoleError "Error fetching balance:" e]
              end
          | inr e => evs = [EvConsoleError "Error fetching balance:" e]
          end).
Proof.
  unfold getWalletBalance. fold (balance_url address).
  generalize (balance_url address) (lit "balance"). intros url key.
  unfold try_catch, bind, fetch, emit, json, ok, payload, after_lookup,
    console_error, throw, ret, call.
  cbn. destruct (remote w url) as [e|st body]; cbn.
  { eexists. rewrite <- app_assoc. split; [reflexivity|]. split; [eauto|discriminate]. }
  destruct ((200 <=? st) && (st <=? 299)); cbn.
  2:{ eexists. rewrite <- app_assoc. split; [reflexivity|]. split; [eauto|discriminate]. }
  destruct body as [text|e]; cbn.
  2:{ eexists. rewrite <- app_assoc. split; [reflexivity|]. split; [eauto|discriminate]. }
  destruct (JSON_parse text) as [data|]; cbn.
  2:{ eexists. rewrite <- app_assoc. split; [reflexivity|]. split; [eauto|discriminate]. }
  destruct (get_property data key) as [balance|e] eqn:Hget; cbn.
  - destruct (ToNumber balance) as [satoshis|e] eqn:Hnum; cbn.
    + exists []. split; [reflexivity|]. split; [discriminate|].
      intros data' [= <-]. now rewrite Hget, Hnum.
    + eexists. rewrite <- app_assoc. split; [reflexivity|]. split; [discriminate|].
      intros data' [= <-]. now rewrite Hget, Hnum.
  - eexists. rewrite <- app_assoc. split; [reflexivity|]. split; [discriminate|].
    intros data' [= <-]. now rewrite Hget.
Qed.

(** [getTransactionHistory], run: one request; the empty list when no
    payload came or the payload has no properties, else [data.txs || []]. *)
Lemma getTransactionHistory_run (address : jsstring) (w : World) :
  exists evs,
    getTransactionHistory address w =
    (Returned
       match payload (remote w (history_url address)) with
       | Some data =>
           match get_property data (lit "txs") with
           | inl txs => logical_or txs (JArray [])
           | inr _ => JArray []
           end
       | None => JArray []
       end,
     after_lookup w (EvFetch (history_url address) :: evs))
    /\ (payload (remote w (history_url address)) = None ->
        exists e, evs = [EvConsoleError "Error fetching transactions:" e]).
Proof.
  unfold getTransactionHistory. fold (history_url address).
  generalize (history_url address) (lit "txs"). intros url key.
  unfold try_catch, bind, fetch, emit, json, ok, payload, after_lookup,
    console_error, throw, ret.
  cbn. destruct (remote w url) as [e|st body]; cbn.
  { eexists. rewrite <- app_assoc. split; [reflexivity|]. eauto. }
  destruct ((200 <=? st) && (st <=? 299)); cbn.
  2:{ eexists. rewrite <- app_assoc. split; [reflexivity|]. eauto. }
  destruct body as [text|e]; cbn.
  2:{ eexists. rewrite <- app_assoc. split; [reflexivity|]. eauto. }
  destruct (JSON_parse text) as [data|]; cbn.
  2:{ eexists. rewrite <- app_assoc. split; [reflexivity|]. eauto. }
  destruct (get_property data key) as [txs|e]; cbn.
  - exists []. split; [reflexivity|discriminate].
  - eexists. rewrite <- app_assoc. split; [reflexivity|discriminate].
Qed.

(** C3, counterexample. The API answers 200 with the JSON object [{}],
    which has no balance: the JSON parses, and the balance returned is
    NaN, not 0. *)
Lemma getWalletBalance_without_balance_field :
  JSON_parse (lit "{}") = Some (JObject [])
  /\ fst (getWalletBalance (lit "n1M8ZVQtL7QoFvGMg24D6b2ojWvFXCGpoS")
            (world_answering (Responded 200 (inl (lit "{}")))))
     = Returned PrimFloat.nan
  /\ PrimFloat.nan <> 0%float.
Proof.
  split; [reflexivity|]. split; [vm_compute; reflexivity|].
  intros H. apply (f_equal PrimFloat.is_nan) in H. vm_compute in H. discriminate.
Qed.

(** C3, amended. [getWalletBalance] never raises and leaves the storage
    alone. On a transport error, a status outside 200-299, a body that
    cannot be read or is not JSON, a [null] payload, and a balance that
    cannot be converted to a number, it logs the error and returns 0.
    On a JSON object whose balance is a number it returns that number
    divided by 100000000, and logs nothing. *)
Theorem getWalletBalance_never_raises (address : jsstring) (w : World) :
  exists amount w',
    getWalletBalance address w = (Returned amount, w')
    /\ storage w' = storage w
    /\ (payload (remote w (balance_url address)) = None ->
        amount = 0%float
        /\ exists e, trace w' = trace w ++ [EvFetch (balance_url address);
                                            EvConsoleError "Error fetching balance:" e])
    /\ (payload (remote w (balance_url address)) = Some JNull ->
        amount = 0%float
        /\ trace w' = trace w ++ [EvFetch (balance_url address);
                                  EvConsoleError "Error fetching balance:"
                                    (TypeError "Cannot read properties of null")])
    /\ (forall props balance e,
          payload (remote w (balance_url address)) = Some (JObject props) ->
          own_property props (lit "balance") = Some balance ->
          ToNumber balance = Thrown e ->
          amount = 0%float
          /\ trace w' = trace w ++ [EvFetch (balance_url address);
                                    EvConsoleError "Error fetching balance:" e])
    /\ (forall props satoshis,
          payload (remote w (balance_url address)) = Some (JObject props) ->
          own_property props (lit "balance") = Some (JNumber satoshis) ->
          amount = (satoshis / 100000000)%float
          /\ trace w' = trace w ++ [EvFetch (balance_url address)]).
Proof.
  destruct (getWalletBalance_run address w) as (evs & Hrun & Hfail & Hdata).
  eexists _, _. split; [exact Hrun|]. split; [reflexivity|].
  split; [|split; [|split]].
  - intros Hp. rewrite Hp. split; [reflexivity|].
    destruct (Hfail Hp) as (e & ->). now exists e.
  - intros Hp. rewrite Hp. split; [reflexivity|].
    specialize (Hdata _ Hp). cbn in Hdata. now rewrite Hdata.
  - intros props balance e Hp Hb Hn. rewrite Hp. specialize (Hdata _ Hp).
    cbn [get_property] in *. rewrite Hb in *. rewrite Hn in *.
    split; [reflexivity|]. now rewrite Hdata.
  - intros props satoshis Hp Hb. rewrite Hp. specialize (Hdata _ Hp).
    cbn [get_property] in *. rewrite Hb in *.
    change (ToNumber (JNumber satoshis)) with (Returned satoshis) in *.
    split; [reflexivity|]. now rewrite Hdata.
Qed.

(** C7, counterexample. A payload whose [txs] is the number 5 is handed
    back as it is, and so is a list of eleven transactions: the service
    neither checks nor truncates what the API sends. *)
Lemma getTransactionHistory_hands_back_txs :
  fst (getTransactionHistory (lit "n1M8ZVQtL7QoFvGMg24D6b2ojWvFXCGpoS")
         (world_answering (Responded 200 (inl (txs_payload (lit "5"))))))
  = Returned (JNumber 5)
  /\ JNumber 5 <> JArray []
  /\ fst (getTransactionHistory (lit "n1M8ZVQtL7QoFvGMg24D6b2ojWvFXCGpoS")
            (world_answering
               (Responded 200
                  (inl (txs_payload (lit "[{},{},{},{},{},{},{},{},{},{},{}]"))))))
     = Returned (JArray (replicate 11 (JObject []))).
Proof.
  split; [vm_compute; reflexivity|].
  split; [discriminate|vm_compute; reflexivity].
Qed.

(** C7, amended. [getTransactionHistory] never raises and leaves the
    storage alone; it asks the API for [limit=10]. On a transport error,
    a status outside 200-299, a body that cannot be read or is not JSON,
    a [null] payload, and a payload without [txs], it returns the empty
    list. On a payload whose [txs] is a list it returns that list as the
    API sent it. *)
Theorem getTransactionHistory_never_raises (address : jsstring) (w : World) :
  exists txs w' evs,
    getTransactionHistory address w = (Returned txs, w')
    /\ storage w' = storage w
    /\ trace w' = trace w ++ EvFetch (history_url address) :: evs
    /\ (payload (remote w (history_url address)) = None ->
        txs = JArray []
        /\ exists e, evs = [EvConsoleError "Error fetching transactions:" e])
    /\ (payload (remote w (history_url address)) = Some JNull -> txs = JArray [])
    /\ (forall props,
          payload (remote w (history_url address)) = Some (JObject props) ->
          own_property props (lit "txs") = None -> txs = JArray [])
    /\ (forall props sent,
          payload (remote w (history_url address)) = Some (JObject props) ->
          own_property props (lit "txs") = Some (JArray sent) ->
          txs = JArray sent).
Proof.
  destruct (getTransactionHistory_run address w) as (evs & Hrun & Hfail).
  eexists _, _, evs. split; [exact Hrun|]. split; [reflexivity|].
  split; [reflexivity|]. split; [|split; [|split]].
  - intros Hp. rewrite Hp. split; [reflexivity|]. exact (Hfail Hp).
  - intros ->. reflexivity.
  - intros props -> Hb. cbn [get_property]. now rewrite Hb.
  - intros props sent -> Hb. cbn [get_property]. now rewrite Hb.
Qed.

(** ** The adapter of the ECC library *)

(** The loop of [toBuffer], from index [k] on. *)
Lemma toBuffer_loop (arr : bytes) (m k : nat) (buffer : bytes) :
  length buffer = length arr ->
  (k + m)%nat = length arr ->
  firstn k buffer = firstn k arr ->
  fold_left (fun buffer i => <[i := nth i arr 0%N]> buffer) (seq k m) buffer = arr.
Proof.
  revert k buffer. induction m as [|m IH]; intros k buffer Hlen Hk Hpre.
  - cbn [seq fold_left]. rewrite Nat.add_0_r in Hk.
    rewrite <- (firstn_all buffer), <- (firstn_all arr), Hlen, <- Hk. exact Hpre.
  - cbn [seq fold_left]. apply IH.
    + now rewrite length_insert.
    + lia.
    + assert (Hkb : (k < length buffer)%nat) by lia.
      assert (Hka : arr !! k = Some (nth k arr 0%N)).
      { destruct (nth_lookup_or_length arr k 0%N); [assumption|lia]. }
      rewrite (take_S_r _ k (nth k arr 0%N)) by now apply list_lookup_insert_eq.
      rewrite (take_S_r arr k (nth k arr 0%N)) by exact Hka.
      rewrite take_insert_ge by lia. now rewrite Hpre.
Qed.

(** [toBuffer] copies the bytes it is given. *)
Lemma toBuffer_copies (arr : bytes) : toBuffer arr = arr.
Proof.
  unfold toBuffer. apply toBuffer_loop.
  - unfold Buffer_allocUnsafe. now rewrite length_replicate.
  - reflexivity.
  - reflexivity.
Qed.

(** X2. The adapter answers what the ECC library it wraps answers, on
    each of its nine functions: converting the buffers back and forth
    changes no byte. *)
Lemma eccAdapter_agrees (ecc : TinySecp256k1) :
  (forall p, isPoint (eccAdapter ecc) p = isPoint ecc p)
  /\ (forall d, isPrivate (eccAdapter ecc) d = isPrivate ecc d)
  /\ (forall d compressed,
        pointFromScalar (eccAdapter ecc) d compressed = pointFromScalar ecc d compressed)
  /\ (forall p tweak compressed,
        pointAddScalar (eccAdapter ecc) p tweak compressed
        = pointAddScalar ecc p tweak compressed)
  /\ (forall d tweak, privateAdd (eccAdapter ecc) d tweak = privateAdd ecc d tweak)
  /\ (forall hash d e, sign (eccAdapter ecc) hash d e = sign ecc hash d e)
  /\ (forall hash Q signature strict,
        verify (eccAdapter ecc) hash Q signature strict
        = verify ecc hash Q signature strict)
  /\ (forall p, isXOnlyPoint (eccAdapter ecc) p = isXOnlyPoint ecc p)
  /\ (forall p tweak,
        xOnlyPointAddTweak (eccAdapter ecc) p tweak = xOnlyPointAddTweak ecc p tweak).
Proof.
  assert (Hnull : forall r, toBuffer_or_null r = r).
  { intros [[result|]|e]; cbn; [now rewrite toBuffer_copies|reflexivity..]. }
  repeat split; intros; cbn [eccAdapter isPoint isPrivate pointFromScalar pointAddScalar
    privateAdd sign verify isXOnlyPoint xOnlyPointAddTweak]; unfold toUint8Array;
    rewrite ?Hnull; try reflexivity.
  - destruct e; destruct (sign ecc hash d _) as [s|]; cbn [outcome_map];
      now rewrite ?toBuffer_copies.
  - destruct (xOnlyPointAddTweak ecc p tweak) as [[[x parity]|]|];
      now rewrite ?toBuffer_copies.
Qed.

(** ** The two constructors of a wallet *)

Section Creation.
Context {imports : Imports}.

(** [importWalletFromMnemonic], run: the validation, then the derivation
    and the write. *)
Lemma importWalletFromMnemonic_run (mnemonic : jsstring) (w : World) :
  importWalletFromMnemonic mnemonic w =
  if bip39_validateMnemonic mnemonic then derive_and_save mnemonic w
  else (Thrown (Error "Invalid mnemonic phrase"), w).
Proof.
  unfold importWalletFromMnemonic, derive_and_save, derivation.
  destruct (bip39_validateMnemonic mnemonic); [|reflexivity].
  cbn [negb]. generalize (lit "m/44'/0'/0'/0/0"). intros path.
  unfold bind, call, outcome_bind, ret, throw.
  destruct (bip39_mnemonicToSeed mnemonic) as [seed|]; [|reflexivity].
  destruct (fromSeed bip32 seed network) as [root|]; [|reflexivity].
  destruct (derivePath bip32 root path) as [account|]; [|reflexivity].
  destruct (ECPair_fromPrivateKey _ network) as [keyPair|]; [|reflexivity].
  destruct (payments_p2pkh _ network) as [addr|]; [|reflexivity].
  destruct (ECPair_toWIF keyPair) as [w_i_f|]; [|reflexivity].
  destruct (toString_hex_of _) as [hex|]; [|reflexivity].
  destruct (saveWallet _ w) as [[[]|e] w']; reflexivity.
Qed.

(** [generateWallet], run: sixteen random bytes, their mnemonic, then
    the derivation and the write. *)
Lemma generateWallet_run (w : World) :
  generateWallet w =
  match bip39_entropyToMnemonic (drawn 16 w) with
  | Returned mnemonic => derive_and_save mnemonic (after_random 16 w)
  | Thrown e => (Thrown e, after_random 16 w)
  end.
Proof.
  unfold generateWallet, bip39_generateMnemonic, derive_and_save, derivation.
  generalize (lit "m/44'/0'/0'/0/0"). intros path.
  unfold randomBytes, drawn, after_random, emit, bind, call, outcome_bind, ret, throw.
  cbn [trace storage storage_faults remote random_source random_used].
  match goal with
  | |- context [bip39_entropyToMnemonic ?x] =>
      destruct (bip39_entropyToMnemonic x) as [mnemonic|]; [|reflexivity]
  end.
  destruct (bip39_mnemonicToSeed mnemonic) as [seed|]; [|reflexivity].
  destruct (fromSeed bip32 seed network) as [root|]; [|reflexivity].
  destruct (derivePath bip32 root path) as [account|]; [|reflexivity].
  destruct (ECPair_fromPrivateKey _ network) as [keyPair|]; [|reflexivity].
  destruct (payments_p2pkh _ network) as [addr|]; [|reflexivity].
  destruct (ECPair_toWIF keyPair) as [w_i_f|]; [|reflexivity].
  destruct (toString_hex_of _) as [hex|]; [|reflexivity].
  match goal with
  | |- context [saveWallet ?x ?y] => destruct (saveWallet x y) as [[[]|e] w']; reflexivity
  end.
Qed.

(** The wallet derived from a mnemonic carries that mnemonic. *)
Lemma derivation_mnemonic (m : jsstring) (wallet : Wallet) :
  derivation m = Returned wallet -> mnemonic wallet = m.
Proof.
  unfold derivation, outcome_bind.
  repeat match goal with
         | |- context [match ?r with Returned _ => _ | Thrown _ => _ end] =>
             destruct r; [|discriminate]
         end.
  now intros [= <-].
Qed.

(** The outcome of [derive_and_save], case by case. *)
Lemma derive_and_save_cases (m : jsstring) (w : World) :
  (exists e, derivation m = Thrown e /\ derive_and_save m w = (Thrown e, w))
  \/ (exists wallet,
        derivation m = Returned wallet
        /\ let ev := EvSetItem WALLET_STORAGE_KEY (JSON_stringify wallet) in
           match next_fault w with
           | None =>
               derive_and_save m w =
               (Returned wallet,
                after_request w [ev]
                  (<[WALLET_STORAGE_KEY := JSON_stringify wallet]> (storage w)))
           | Some e =>
               derive_and_save m w =
               (Thrown e,
                after_request w [ev; EvConsoleError "Error saving wallet:" e]
                              (storage w))
           end).
Proof.
  unfold derive_and_save.
  destruct (derivation m) as [wallet|e]; [right|left; eauto].
  exists wallet. split; [reflexivity|]. rewrite saveWallet_run. cbv zeta.
  destruct (next_fault w); reflexivity.
Qed.

(** A run that returns derived its wallet and had its write served. *)
Lemma derive_and_save_returned (m : jsstring) (w w' : World) (wallet : Wallet) :
  derive_and_save m w = (Returned wallet, w') ->
  derivation m = Returned wallet
  /\ next_fault w = None
  /\ w' = after_request w [EvSetItem WALLET_STORAGE_KEY (JSON_stringify wallet)]
            (<[WALLET_STORAGE_KEY := JSON_stringify wallet]> (storage w)).
Proof.
  destruct (derive_and_save_cases m w) as [(e & _ & ->)|(a & Ha & Hrun)];
    [discriminate|].
  cbv zeta in Hrun. destruct (next_fault w); rewrite Hrun; [discriminate|].
  intros [= <- <-]. auto.
Qed.


(** The derivation and the write are atomic, after a prefix without
    writes. *)
Lemma derive_and_save_atomic (m : jsstring) (w0 w : World) (pre : list Event) :
  trace w = trace w0 ++ pre -> writes pre = [] ->
  storage w = storage w0 -> next_fault w = next_fault w0 ->
  atomic w0 (derive_and_save m w).
Proof.
  intros Htrace Hpre Hst Hfault. unfold atomic.
  destruct (derive_and_save_cases m w) as [(e & _ & ->)|(a & Ha & Hrun)].
  { exists pre. cbn. split; [exact Htrace|]. split; [exact Hst|now left]. }
  assert (Hm : derivation (mnemonic a) = Returned a)
    by now rewrite (derivation_mnemonic m a Ha).
  cbv zeta in Hrun. rewrite <- Hfault.
  destruct (next_fault w) as [e|]; rewrite Hrun; cbn [fst snd after_request trace storage].
  - eexists. rewrite Htrace, <- app_assoc. split; [reflexivity|].
    split; [exact Hst|]. right. exists a. split; [exact Hm|]. split; [|reflexivity].
    unfold writes in *. rewrite List.filter_app, Hpre. reflexivity.
  - eexists. rewrite Htrace, <- app_assoc. split; [reflexivity|].
    split; [exact Hm|]. split; [|now rewrite Hst].
    unfold writes in *. rewrite List.filter_app, Hpre. reflexivity.
Qed.

(** C5. [generateWallet] and [importWalletFromMnemonic] are atomic with
    respect to the storage. *)
Theorem wallet_creation_atomic (w : World) :
  atomic w (generateWallet w)
  /\ forall m, atomic w (importWalletFromMnemonic m w).
Proof.
  split.
  - rewrite generateWallet_run.
    destruct (bip39_entropyToMnemonic (drawn 16 w)) as [m|e].
    + now apply (derive_and_save_atomic m w (after_random 16 w) [EvRandomBytes 16]).
    + exists [EvRandomBytes 16]. cbn. auto.
  - intros m. rewrite importWalletFromMnemonic_run.
    destruct (bip39_validateMnemonic m).
    + apply (derive_and_save_atomic m w w []); auto using app_nil_r.
    + exists []. cbn. rewrite app_nil_r. auto.
Qed.

(** With the next storage request rejected, the run throws and the
    storage stays as it was. *)
Lemma derive_and_save_write_fails (m : jsstring) (w : World) (err : JsError) :
  next_fault w = Some err ->
  exists e w',
    derive_and_save m w = (Thrown e, w')
    /\ storage w' = storage w
    /\ (forall wallet, derivation m = Returned wallet -> e = err).
Proof.
  intros Hf.
  destruct (derive_and_save_cases m w) as [(e & He & ->)|(a & Ha & Hrun)].
  - exists e, w. split; [reflexivity|]. split; [reflexivity|]. congruence.
  - cbv zeta in Hrun. rewrite Hf in Hrun. rewrite Hrun.
    eexists _, _. split; [reflexivity|]. split; [reflexivity|]. auto.
Qed.

(** C6. When the write of [saveWallet] fails, neither constructor
    returns a wallet: each throws, the storage is as it was, and the
    error thrown is the error of the write whenever the derivation got
    as far as the write. *)
Theorem write_failure_propagates (w : World) (err : JsError) :
  next_fault w = Some err ->
  (exists e w',
     generateWallet w = (Thrown e, w')
     /\ storage w' = storage w
     /\ (forall m wallet,
           bip39_entropyToMnemonic (drawn 16 w) = Returned m ->
           derivation m = Returned wallet -> e = err))
  /\ (forall m,
        exists e w',
          importWalletFromMnemonic m w = (Thrown e, w')
          /\ storage w' = storage w
          /\ (forall wallet,
                bip39_validateMnemonic m = true ->
                derivation m = Returned wallet -> e = err)).
Proof.
  intros Hf. split.
  - rewrite generateWallet_run.
    destruct (bip39_entropyToMnemonic (drawn 16 w)) as [m|e].
    + destruct (derive_and_save_write_fails m (after_random 16 w) err Hf)
        as (e & w' & -> & Hst & He).
      exists e, w'. split; [reflexivity|]. split; [exact Hst|].
      intros m' wallet [= <-]. apply He.
    + eexists _, _. split; [reflexivity|]. split; [reflexivity|]. discriminate.
  - intros m. rewrite importWalletFromMnemonic_run.
    destruct (bip39_validateMnemonic m).
    + destruct (derive_and_save_write_fails m w err Hf) as (e & w' & -> & Hst & He).
      exists e, w'. split; [reflexivity|]. split; [exact Hst|]. intros; eauto.
    + eexists _, _. split; [reflexivity|]. split; [reflexivity|]. discriminate.
Qed.


(** Without [bitcoin.ECPair] the derivation of a wallet never returns. *)
Lemma derivation_without_ECPair (m : jsstring) :
  (forall key network, exists e, ECPair_fromPrivateKey key network = Thrown e) ->
  exists e, derivation m = Thrown e.
Proof.
  intros Hpair. unfold derivation, outcome_bind.
  destruct (bip39_mnemonicToSeed m) as [seed|e]; [|eauto].
  destruct (fromSeed bip32 seed network) as [root|e]; [|eauto].
  destruct (derivePath bip32 root _) as [account|e]; [|eauto].
  destruct (Hpair (node_privateKey account) network) as (e & ->). eauto.
Qed.

(** A mnemonic bip39 does not validate is refused before anything is
    derived or written. *)
Lemma importWalletFromMnemonic_refuses (m : jsstring) (w : World) :
  bip39_validateMnemonic m = false ->
  importWalletFromMnemonic m w = (Thrown (Error "Invalid mnemonic phrase"), w).
Proof.
  intros H. now rewrite importWalletFromMnemonic_run, H.
Qed.

End Creation.

(** ** The word count bip39 accepts *)

(** [bits_of n] makes [n] bits. *)
Lemma bits_of_length (n : nat) (x : N) : length (Bip39.bits_of n x) = n.
Proof. induction n; cbn; congruence. Qed.

(** Eleven bits a word. *)
Lemma word_bits_length (wordlist words : list jsstring) (bits : list bool) :
  Bip39.word_bits wordlist words = Some bits ->
  length bits = (11 * length words)%nat.
Proof.
  revert bits. induction words as [|word words IH]; intros bits; cbn [Bip39.word_bits].
  - now intros [= <-].
  - destruct (Bip39.indexOf wordlist word 0) as [i|]; [|discriminate].
    destruct (Bip39.word_bits wordlist words) as [rest|]; [|discriminate].
    intros [= <-]. cbn [length]. rewrite (IH rest eq_refl). lia.
Qed.

(** A list of [8 * j] elements is cut in [j] pieces. *)
Lemma chunks_length {A} (j : nat) :
  forall (fuel : nat) (l : list A),
    length l = (8 * j)%nat -> (j <= fuel)%nat ->
    length (Hashes.chunks fuel 8 l) = j.
Proof.
  induction j as [|j IH]; intros fuel l Hl Hfuel.
  - destruct l; [|discriminate]. now destruct fuel.
  - destruct fuel as [|fuel]; [lia|].
    destruct l as [|a l]; [discriminate|].
    cbn [Hashes.chunks length]. f_equal. apply IH; [|lia].
    rewrite length_skipn. lia.
Qed.

(** A mnemonic bip39 validates has 12, 15, 18, 21 or 24 words. *)
Lemma validateMnemonic_word_count (normalize : jsstring -> jsstring) (m : jsstring) :
  Bip39.validateMnemonic normalize m = true ->
  In (word_count (normalize m)) [12; 15; 18; 21; 24]%nat.
Proof.
  unfold Bip39.validateMnemonic, Bip39.mnemonicToEntropy, word_count.
  generalize Bip39.DEFAULT_WORDLIST. intros wordlist.
  set (words := Bip39.split_spaces (normalize m) []).
  destruct (Nat.eqb_spec (length words mod 3) 0) as [Hmod|]; [|discriminate].
  cbn [negb].
  destruct (Bip39.word_bits wordlist words) as [bits|] eqn:Hbits; [|discriminate].
  apply word_bits_length in Hbits.
  pose proof (Nat.div_mod_eq (length words) 3) as Hk.
  rewrite Hmod, Nat.add_0_r in Hk.
  set (k := (length words / 3)%nat) in *.
  assert (Hdiv : (length bits / 33 * 32 = 32 * k)%nat).
  { rewrite Hbits, Hk.
    replace (11 * (3 * k))%nat with (k * 33)%nat by lia.
    rewrite Nat.div_mul by discriminate. lia. }
  rewrite Hdiv.
  assert (Hbytes : length (List.map Bip39.value_of_bits
                      (Hashes.chunks (length (firstn (32 * k) bits)) 8
                                     (firstn (32 * k) bits))) = (4 * k)%nat).
  { rewrite length_map. apply chunks_length; rewrite length_firstn; lia. }
  rewrite Hbytes.
  destruct (Nat.ltb_spec (4 * k) 16); [discriminate|].
  destruct (Nat.ltb_spec 32 (4 * k)); [discriminate|].
  intros _. rewrite Hk.
  assert (Hcases : (k = 4 \/ k = 5 \/ k = 6 \/ k = 7 \/ k = 8)%nat) by lia.
  cbn [In]. lia.
Qed.

(** ** bip39 validates the mnemonics it generates *)

Section Bits.
Local Open Scope N_scope.

(** The step of [value_of_bits]. *)
Abbreviation shift := (fun (acc : N) (b : bool) => 2 * acc + (if b then 1 else 0)).

(** The bits shifted in come after those of the accumulator. *)
Lemma fold_shift_acc (bits : list bool) (acc : N) :
  fold_left shift bits acc = acc * 2 ^ N.of_nat (length bits) + fold_left shift bits 0
  /\ fold_left shift bits 0 < 2 ^ N.of_nat (length bits).
Proof.
  revert acc. induction bits as [|b bits IH]; intros acc.
  - cbn. split; lia.
  - cbn [fold_left length]. rewrite Nat2N.inj_succ, N.pow_succ_r'.
    destruct (IH (2 * acc + (if b then 1 else 0))) as [-> Hlt].
    destruct (IH (2 * 0 + (if b then 1 else 0))) as [-> _].
    set (P := 2 ^ N.of_nat (length bits)) in *.
    set (V := fold_left shift bits 0) in *.
    split; destruct b; lia.
Qed.

(** [n] bits make a value below [2 ^ n]. *)
Lemma value_of_bits_lt (bits : list bool) :
  Bip39.value_of_bits bits < 2 ^ N.of_nat (length bits).
Proof. apply (fold_shift_acc bits 0). Qed.

(** The bits of a value are the bits it was made of. *)
Lemma bits_of_fold_shift (bits : list bool) (acc : N) :
  Bip39.bits_of (length bits) (fold_left shift bits acc) = bits.
Proof.
  revert acc. induction bits as [|b bits IH]; intros acc; [reflexivity|].
  cbn [fold_left length Bip39.bits_of]. rewrite IH. f_equal.
  destruct (fold_shift_acc bits (2 * acc + (if b then 1 else 0))) as [-> Hlt].
  set (P := 2 ^ N.of_nat (length bits)) in *.
  set (V := fold_left shift bits 0) in *.
  rewrite N.testbit_eqb. fold P.
  assert (HP : P <> 0) by (apply N.pow_nonzero; discriminate).
  rewrite N.div_add_l, (N.div_small V P) by assumption.
  rewrite N.add_0_r.
  replace (2 * acc + (if b then 1 else 0)) with ((if b then 1 else 0) + acc * 2) by lia.
  rewrite N.Div0.mod_add. now destruct b.
Qed.

(** The bits of the value of a list of bits are that list. *)
Lemma bits_of_value_of_bits (bits : list bool) :
  Bip39.bits_of (length bits) (Bip39.value_of_bits bits) = bits.
Proof. apply bits_of_fold_shift. Qed.

(** The value of the [n] low bits of [x]. *)
Lemma fold_shift_bits_of (n : nat) (x acc : N) :
  fold_left shift (Bip39.bits_of n x) acc = acc * 2 ^ N.of_nat n + x mod 2 ^ N.of_nat n.
Proof.
  revert acc. induction n as [|n IH]; intros acc.
  - cbn. rewrite N.mod_1_r. lia.
  - cbn [Bip39.bits_of fold_left]. rewrite IH, Nat2N.inj_succ, N.pow_succ_r'.
    rewrite (N.mul_comm 2 (2 ^ N.of_nat n)), N.Div0.mod_mul_r.
    rewrite <- N.testbit_spec'.
    set (P := 2 ^ N.of_nat n). set (r := x mod P).
    destruct (N.testbit x (N.of_nat n)); cbn [N.b2n]; lia.
Qed.

(** The value of the [n] bits of [x] is [x], when [x] fits. *)
Lemma value_of_bits_of (n : nat) (x : N) :
  x < 2 ^ N.of_nat n -> Bip39.value_of_bits (Bip39.bits_of n x) = x.
Proof.
  intros H. unfold Bip39.value_of_bits. rewrite fold_shift_bits_of.
  rewrite N.mod_small by exact H. lia.
Qed.

End Bits.

(** Cutting a list whose length is a multiple of [n] in pieces of [n]. *)
Lemma chunks_exact {A} (n : nat) (j : nat) :
  (0 < n)%nat ->
  forall (fuel : nat) (l : list A),
    length l = (n * j)%nat -> (j <= fuel)%nat ->
    concat (Hashes.chunks fuel n l) = l
    /\ Forall (fun c => length c = n) (Hashes.chunks fuel n l)
    /\ length (Hashes.chunks fuel n l) = j.
Proof.
  intros Hn. induction j as [|j IH]; intros fuel l Hl Hfuel.
  - replace (n * 0)%nat with 0%nat in Hl by lia.
    destruct l; [|discriminate]. destruct fuel; cbn; auto.
  - destruct fuel as [|fuel]; [lia|].
    destruct l as [|a l]; [cbn in Hl; lia|].
    cbn [Hashes.chunks].
    destruct (IH fuel (skipn n (a :: l))) as (Hc & Hf & Hlen).
    { rewrite length_skipn. lia. }
    { lia. }
    cbn [concat length]. rewrite Hc, firstn_skipn.
    split; [reflexivity|]. split; [|now rewrite Hlen].
    constructor; [|exact Hf]. rewrite length_firstn. lia.
Qed.

(** Eight bits a byte. *)
Lemma bytesToBinary_length (bs : bytes) :
  length (Bip39.bytesToBinary bs) = (8 * length bs)%nat.
Proof.
  unfold Bip39.bytesToBinary. induction bs as [|b bs IH]; [reflexivity|].
  cbn [flat_map]. rewrite length_app, bits_of_length, IH. cbn [length]. lia.
Qed.

(** The bytes read back from their bits. *)
Lemma chunks_bytesToBinary (bs : bytes) (fuel : nat) :
  Forall (fun b => (b < 256)%N) bs -> (length bs <= fuel)%nat ->
  List.map Bip39.value_of_bits (Hashes.chunks fuel 8 (Bip39.bytesToBinary bs)) = bs.
Proof.
  intros Hbs. revert fuel. induction Hbs as [|b bs Hb _ IH]; intros fuel Hfuel.
  - now destruct fuel.
  - destruct fuel as [|fuel]; [cbn in Hfuel; lia|].
    unfold Bip39.bytesToBinary. cbn [flat_map]. fold (Bip39.bytesToBinary bs).
    change (Bip39.bits_of 8 b ++ Bip39.bytesToBinary bs)
      with (N.testbit b 7 :: tail (Bip39.bits_of 8 b ++ Bip39.bytesToBinary bs)).
    cbn [Hashes.chunks]. cbn [List.map]. f_equal.
    + change (firstn 8 _) with (Bip39.bits_of 8 b). now apply value_of_bits_of.
    + change (skipn 8 _) with (Bip39.bytesToBinary bs).
      apply IH. cbn in Hfuel. lia.
Qed.

(** *** Words and spaces *)

(** A word is read up to the space after it. *)
Lemma split_spaces_word (w rest cur : jsstring) :
  forallb (fun c => negb (c =? 32)%N) w = true ->
  Bip39.split_spaces (w ++ rest) cur = Bip39.split_spaces rest (rev w ++ cur).
Proof.
  revert cur. induction w as [|c w IH]; intros cur Hw; [reflexivity|].
  cbn [forallb] in Hw. apply andb_true_iff in Hw as [Hc Hw].
  cbn [app Bip39.split_spaces]. apply negb_true_iff in Hc. rewrite Hc.
  rewrite IH by exact Hw. cbn [rev]. now rewrite <- app_assoc.
Qed.

(** Words joined by spaces split back into the same words. *)
Lemma split_spaces_join_spaces (ws : list jsstring) :
  ws <> [] ->
  Forall (fun w => forallb (fun c => negb (c =? 32)%N) w = true) ws ->
  Bip39.split_spaces (Bip39.join_spaces ws) [] = ws.
Proof.
  intros Hne Hws. induction Hws as [|w ws Hw Hws IH]; [congruence|].
  destruct ws as [|w' ws].
  - cbn [Bip39.join_spaces]. rewrite <- (app_nil_r w) at 1.
    rewrite split_spaces_word by exact Hw. cbn. now rewrite app_nil_r, rev_involutive.
  - change (Bip39.join_spaces (w :: w' :: ws))
      with (w ++ [32%N] ++ Bip39.join_spaces (w' :: ws)).
    rewrite split_spaces_word by exact Hw.
    cbn [app Bip39.split_spaces]. change (32 =? 32)%N with true. cbv iota.
    rewrite app_nil_r, rev_involutive, IH by discriminate. reflexivity.
Qed.

(** ASCII words joined by spaces are an ASCII text. *)
Lemma join_spaces_ascii (ws : list jsstring) :
  Forall (fun w => Forall (fun c => (c < 128)%N) w) ws ->
  Forall (fun c => (c < 128)%N) (Bip39.join_spaces ws).
Proof.
  induction 1 as [|w ws Hw Hws IH]; [constructor|].
  destruct ws as [|w' ws]; [exact Hw|].
  change (Bip39.join_spaces (w :: w' :: ws))
    with (w ++ [32%N] ++ Bip39.join_spaces (w' :: ws)).
  apply Forall_app. split; [exact Hw|]. constructor; [reflexivity|exact IH].
Qed.

(** *** The position of a word in an ascending list *)

(** The order is strict. *)
Lemma lex_ltb_irrefl (a : jsstring) : lex_ltb a a = false.
Proof.
  induction a as [|x a IH]; [reflexivity|].
  cbn [lex_ltb]. now rewrite N.ltb_irrefl, N.eqb_refl, IH.
Qed.

(** The order is transitive. *)
Lemma lex_ltb_trans (a b c : jsstring) :
  lex_ltb a b = true -> lex_ltb b c = true -> lex_ltb a c = true.
Proof.
  revert b c. induction a as [|x a IH]; intros [|y b] [|z c]; cbn [lex_ltb];
    try discriminate; try reflexivity.
  rewrite !orb_true_iff, !andb_true_iff, !N.ltb_lt, !N.eqb_eq.
  intros [Hxy|[-> Hab]] [Hyz|[<- Hbc]]; try (left; lia).
  right. split; [reflexivity|]. now apply (IH b c).
Qed.

(** The head of an ascending list is below every other element. *)
Lemma ascending_head (a : jsstring) (l : list jsstring) :
  ascending (a :: l) = true ->
  ascending l = true /\ Forall (fun x => lex_ltb a x = true) l.
Proof.
  revert a. induction l as [|b l IH]; intros a Ha; [split; [reflexivity|constructor]|].
  cbn [ascending] in Ha. apply andb_true_iff in Ha as [Hab Hl].
  split; [exact Hl|]. constructor; [exact Hab|].
  destruct (IH b Hl) as [_ Hb].
  eapply List.Forall_impl; [|exact Hb]. intros x Hx. now apply (lex_ltb_trans a b x).
Qed.

(** In an ascending list the first position of the [i]-th word is [i]. *)
Lemma indexOf_nth (wordlist : list jsstring) :
  ascending wordlist = true ->
  forall (i : nat) (k : N),
    (i < length wordlist)%nat ->
    Bip39.indexOf wordlist (nth i wordlist []) k = Some (k + N.of_nat i)%N.
Proof.
  induction wordlist as [|a l IH]; intros Hasc i k Hi; [cbn in Hi; lia|].
  destruct (ascending_head a l Hasc) as [Hl Ha].
  destruct i as [|i]; cbn [nth Bip39.indexOf].
  - unfold jsstring_eqb. rewrite bool_decide_eq_true_2 by reflexivity.
    f_equal. lia.
  - cbn [length] in Hi.
    assert (Hin : In (nth i l []) l) by (apply nth_In; lia).
    rewrite List.Forall_forall in Ha. specialize (Ha _ Hin).
    unfold jsstring_eqb. rewrite bool_decide_eq_false_2.
    + rewrite IH by (auto; lia). f_equal. lia.
    + intros Heq. rewrite <- Heq, lex_ltb_irrefl in Ha. discriminate.
Qed.

(** *** The length of a SHA-256 digest *)

(** [be_bytes n] makes [n] bytes. *)
Lemma be_bytes_length (n : nat) (x : N) : length (Hashes.be_bytes n x) = n.
Proof. induction n; cbn; congruence. Qed.

(** A round keeps the eight working variables. *)
Lemma sha2_round_shape (P : Hashes.Sha2) (st : list bigN * list bigN) (k : bigN) :
  length (fst st) = 8%nat -> length (fst (Hashes.sha2_round P st k)) = 8%nat.
Proof.
  destruct st as [H sched]. cbn [fst]. intros HH.
  do 9 (destruct H as [|? H]; try discriminate HH).
  destruct sched; reflexivity.
Qed.

(** So do the rounds of a block. *)
Lemma sha2_rounds_shape (P : Hashes.Sha2) (ks : list bigN) (st : list bigN * list bigN) :
  length (fst st) = 8%nat ->
  length (fst (fold_left (Hashes.sha2_round P) ks st)) = 8%nat.
Proof.
  revert st. induction ks as [|k ks IH]; intros st Hst; [exact Hst|].
  cbn [fold_left]. apply IH. now apply sha2_round_shape.
Qed.

(** The compression keeps the eight words of the hash value. *)
Lemma sha2_compress_shape (P : Hashes.Sha2) (H : list bigN) (block : bytes) :
  length H = 8%nat -> length (Hashes.sha2_compress P H block) = 8%nat.
Proof.
  intros HH. unfold Hashes.sha2_compress.
  match goal with
  | |- context [fold_left (Hashes.sha2_round P) ?ks ?st] =>
      pose proof (sha2_rounds_shape P ks st HH) as Hshape;
      destruct (fold_left (Hashes.sha2_round P) ks st) as [H' sched']
  end.
  cbn [fst] in Hshape. rewrite length_map, length_combine. lia.
Qed.

(** A digest is eight words long. *)
Lemma sha2_length (P : Hashes.Sha2) (msg : bytes) :
  length (Hashes.initial_hash P) = 8%nat ->
  length (Hashes.sha2 P msg) = (8 * Hashes.word_bytes P)%nat.
Proof.
  intros HIV. unfold Hashes.sha2.
  match goal with
  | |- context [fold_left (Hashes.sha2_compress P) ?blocks ?H] =>
      assert (Hlen : length (fold_left (Hashes.sha2_compress P) blocks H) = 8%nat);
      [ generalize blocks; intros bl; revert HIV; generalize H; intros H0;
        revert H0; induction bl as [|b bl IH]; intros H0 HH; [exact HH|];
        cbn [fold_left]; apply IH; now apply sha2_compress_shape
      | generalize dependent (fold_left (Hashes.sha2_compress P) blocks H) ]
  end.
  intros digest Hd.
  assert (Hflat : forall l : list bigN,
            length (flat_map (fun x => Hashes.be_bytes (Hashes.word_bytes P) (BigN.to_N x)) l)
            = (length l * Hashes.word_bytes P)%nat).
  { induction l as [|x l IHl]; [reflexivity|].
    cbn [flat_map length]. rewrite length_app, be_bytes_length, IHl. lia. }
  rewrite Hflat, Hd. lia.
Qed.

(** A SHA-256 digest has 32 bytes. *)
Lemma sha256_length (msg : bytes) : length (Hashes.sha256 msg) = 32%nat.
Proof. apply (sha2_length Hashes.SHA256 msg). vm_compute. reflexivity. Qed.

(** *** The English word list *)

(** The list has 2048 words, in ascending order, of ASCII letters. *)
Lemma DEFAULT_WORDLIST_length : length Bip39.DEFAULT_WORDLIST = 2048%nat.
Proof. vm_compute. reflexivity. Qed.

Lemma DEFAULT_WORDLIST_ascending : ascending Bip39.DEFAULT_WORDLIST = true.
Proof. vm_compute. reflexivity. Qed.

Lemma DEFAULT_WORDLIST_plain : forallb plain_word Bip39.DEFAULT_WORDLIST = true.
Proof. vm_compute. reflexivity. Qed.

(** The bits of the words chosen by chunks of eleven bits. *)
Lemma word_bits_of_chunks (wordlist : list jsstring) (chunks : list (list bool)) :
  ascending wordlist = true ->
  length wordlist = 2048%nat ->
  Forall (fun c => length c = 11%nat) chunks ->
  Bip39.word_bits wordlist
    (List.map (fun chunk => nth (N.to_nat (Bip39.value_of_bits chunk)) wordlist [])
              chunks)
  = Some (concat chunks).
Proof.
  intros Hasc Hlen Hchunks.
  induction Hchunks as [|chunk chunks Hchunk _ IH]; [reflexivity|].
  cbn [List.map Bip39.word_bits concat].
  pose proof (value_of_bits_lt chunk) as Hlt. rewrite Hchunk in Hlt.
  change (2 ^ N.of_nat 11)%N with 2048%N in Hlt.
  rewrite indexOf_nth by (auto; lia).
  rewrite IH, N.add_0_l, N2Nat.id.
  rewrite <- Hchunk at 1. now rewrite bits_of_value_of_bits.
Qed.

(** Every mnemonic [entropyToMnemonic] makes is one [validateMnemonic]
    accepts, for a [normalize] that leaves ASCII texts as they are. *)
Lemma entropyToMnemonic_validates
  (normalize : jsstring -> jsstring) (entropy : bytes) :
  (forall s, Forall (fun c => (c < 128)%N) s -> normalize s = s) ->
  (16 <= length entropy <= 32)%nat ->
  (length entropy mod 4 = 0)%nat ->
  Forall (fun b => (b < 256)%N) entropy ->
  exists mnemonic,
    Bip39.entropyToMnemonic entropy = Returned mnemonic
    /\ Bip39.validateMnemonic normalize mnemonic = true
    /\ word_count mnemonic = (length entropy / 4 * 3)%nat.
Proof.
  intros Hnorm Hrange Hmod Hbytes.
  pose proof DEFAULT_WORDLIST_length as HWlen.
  pose proof DEFAULT_WORDLIST_ascending as HWasc.
  pose proof DEFAULT_WORDLIST_plain as HWplain.
  unfold Bip39.validateMnemonic, Bip39.mnemonicToEntropy, Bip39.entropyToMnemonic,
    word_count.
  set (W := Bip39.DEFAULT_WORDLIST) in *. clearbody W.
  pose proof (Nat.div_mod_eq (length entropy) 4) as Hk.
  rewrite Hmod, Nat.add_0_r in Hk.
  set (k := (length entropy / 4)%nat) in *.
  assert (Hk48 : (4 <= k <= 8)%nat) by lia.
  destruct (Nat.ltb_spec (length entropy) 16); [lia|].
  destruct (Nat.ltb_spec 32 (length entropy)); [lia|].
  rewrite Hmod. cbn [Nat.eqb negb].
  set (cs := Bip39.deriveChecksumBits entropy).
  assert (Hcs : length cs = k).
  { unfold cs, Bip39.deriveChecksumBits.
    rewrite length_firstn, bytesToBinary_length, sha256_length.
    replace (length entropy * 8 / 32)%nat with k; [lia|].
    rewrite Hk. replace (4 * k * 8)%nat with (k * 32)%nat by lia.
    now rewrite Nat.div_mul. }
  set (bits := Bip39.bytesToBinary entropy ++ cs).
  assert (Hbits : length bits = (11 * (3 * k))%nat).
  { unfold bits. rewrite length_app, bytesToBinary_length, Hcs. lia. }
  destruct (chunks_exact 11 (3 * k) ltac:(lia) (length bits) bits Hbits ltac:(lia))
    as (Hconcat & Hchunk & Hcount).
  set (chunks := Hashes.chunks (length bits) 11 bits) in *.
  set (words := List.map (fun chunk => nth (N.to_nat (Bip39.value_of_bits chunk)) W [])
                         chunks).
  assert (Hwords : Forall (fun w => plain_word w = true) words).
  { unfold words. apply List.Forall_forall. intros w Hw.
    apply in_map_iff in Hw as (chunk & <- & Hin).
    rewrite List.Forall_forall in Hchunk. specialize (Hchunk _ Hin).
    pose proof (value_of_bits_lt chunk) as Hlt. rewrite Hchunk in Hlt.
    change (2 ^ N.of_nat 11)%N with 2048%N in Hlt.
    rewrite forallb_forall in HWplain. apply HWplain, nth_In. lia. }
  assert (Hcountw : length words = (3 * k)%nat)
    by (unfold words; now rewrite length_map).
  exists (Bip39.join_spaces words). split; [reflexivity|].
  assert (Hsplit : Bip39.split_spaces (Bip39.join_spaces words) [] = words).
  { apply split_spaces_join_spaces.
    - intros Hnil. rewrite Hnil in Hcountw. cbn [length] in Hcountw. lia.
    - eapply List.Forall_impl; [|exact Hwords]. intros w Hw.
      unfold plain_word in Hw. rewrite forallb_forall in *.
      intros c Hc. specialize (Hw c Hc). now apply andb_true_iff in Hw as [_ Hw]. }
  split; [|rewrite Hsplit, Hcountw; lia].
  rewrite Hnorm.
  2:{ apply join_spaces_ascii. eapply List.Forall_impl; [|exact Hwords].
      intros w Hw. unfold plain_word in Hw. rewrite forallb_forall in Hw.
      apply List.Forall_forall. intros c Hc. specialize (Hw c Hc).
      apply andb_true_iff in Hw as [Hw _]. now apply N.ltb_lt. }
  rewrite Hsplit, Hcountw.
  replace (3 * k)%nat with (k * 3)%nat by lia. rewrite Nat.Div0.mod_mul.
  cbn [Nat.eqb negb]. unfold words.
  rewrite (word_bits_of_chunks W chunks HWasc HWlen Hchunk), Hconcat.
  replace (length bits / 33 * 32)%nat with (length (Bip39.bytesToBinary entropy)).
  2:{ rewrite Hbits, bytesToBinary_length, Hk.
      replace (11 * (3 * k))%nat with (k * 33)%nat by lia.
      rewrite Nat.div_mul by discriminate. lia. }
  unfold bits. rewrite firstn_app, Nat.sub_diag, firstn_all, firstn_O, app_nil_r.
  rewrite skipn_app, Nat.sub_diag, skipn_all, skipn_O. cbn [app].
  rewrite chunks_bytesToBinary by (auto; rewrite bytesToBinary_length; lia).
  destruct (Nat.ltb_spec (length entropy) 16); [lia|].
  destruct (Nat.ltb_spec 32 (length entropy)); [lia|].
  rewrite Hmod. cbn [Nat.eqb negb].
  fold cs. now rewrite bool_decide_eq_true_2.
Qed.

(** *** The generated mnemonic on the reference packages *)

(** [randomBytes] hands back [n] bytes. *)
Lemma drawn_shape (n : nat) (w : World) :
  length (drawn n w) = n /\ Forall (fun b => (b < 256)%N) (drawn n w).
Proof.
  unfold drawn. split; [now rewrite length_map, length_seq|].
  apply List.Forall_forall. intros b Hb.
  apply in_map_iff in Hb as (i & <- & _). now apply N.mod_lt.
Qed.

(** Whatever the random source, the mnemonic [generateWallet] asks bip39
    for has twelve words and is valid. *)
Lemma generated_mnemonic_validates (normalize : jsstring -> jsstring) (w : World) :
  (forall s, Forall (fun c => (c < 128)%N) s -> normalize s = s) ->
  exists m,
    @bip39_entropyToMnemonic (Reference.imports normalize) (drawn 16 w) = Returned m
    /\ @bip39_validateMnemonic (Reference.imports normalize) m = true
    /\ word_count m = 12%nat.
Proof.
  intros Hnorm. destruct (drawn_shape 16 w) as [Hlen Hbytes].
  generalize dependent (drawn 16 w). intros entropy Hlen Hbytes.
  destruct (entropyToMnemonic_validates normalize entropy Hnorm) as (m & Hm & Hv & Hc).
  - rewrite Hlen. lia.
  - rewrite Hlen. reflexivity.
  - exact Hbytes.
  - exists m. rewrite Hlen in Hc. split; [exact Hm|]. split; [exact Hv|exact Hc].
Qed.

(** ** Known answers of the reference packages *)

Lemma sha256_abc :
  toString_hex (Hashes.sha256 (lit "abc"))
  = lit "ba7816bf8f01cfea414140de5dae2223b00361a396177a9cb410ff61f20015ad".
Proof. vm_compute. reflexivity. Qed.

Lemma sha512_abc :
  toString_hex (Hashes.sha512 (lit "abc"))
  = lit ("ddaf35a193617abacc417349ae20413112e6fa4e89a97ea20a9eeee64b55d39a"
         ++ "2192992a274fc1a836ba3c23a3feebbd454d4423643ce80e2a9ac94fa54ca49f").
Proof. vm_compute. reflexivity. Qed.

Lemma ripemd160_abc :
  toString_hex (Hashes.ripemd160 (lit "abc"))
  = lit "8eb208f7e05d987a9b044a8e98c6b087f15a0bfc".
Proof. vm_compute. reflexivity. Qed.

Lemma hmacSHA512_Jefe :
  toString_hex (Hashes.hmacSHA512 (lit "Jefe") (lit "what do ya want for nothing?"))
  = lit ("164b7a7bfcf819e2e395fbe73b56e0a387bd64222e831fd610270cd7ea250554"
         ++ "9758bf75c05a994a6d034f65f8f0e6fdcaeab1a34d4a6b4b636e070a38bce737").
Proof. vm_compute. reflexivity. Qed.

Lemma pbkdf2_password_salt :
  toString_hex (Hashes.pbkdf2_sha512_64 (lit "password") (lit "salt") 1)
  = lit ("867f70cf1ade02cff3752599a3a53dc4af34c7a669815ae5d513554e1c8cf252"
         ++ "c02d470a285a0501bad999bfe943c08f050235d7d68b1da55e63f73b60a57fce").
Proof. vm_compute. reflexivity. Qed.

Lemma encode_check_zero :
  Base58.encode_check (replicate 21 0%N) = lit "1111111111111111111114oLvT2".
Proof. vm_compute. reflexivity. Qed.

(** ** Worked examples on the reference packages *)


Lemma tabulated_derivation_mnemonic24 :
  @derivation tabulated mnemonic24 = Thrown no_ECPair.
Proof. vm_cast_no_check (eq_refl (@Thrown Wallet no_ECPair)). Qed.


Lemma reference_validates_mnemonic24 :
  Bip39.validateMnemonic Reference.normalize_ascii mnemonic24 = true.
Proof. vm_compute. reflexivity. Qed.


(** The import of a valid mnemonic whose derivation throws: the error
    of the derivation, and the world as it was. *)
Lemma tabulated_import (m : jsstring) (e : JsError) (w : World) :
  Bip39.validateMnemonic Reference.normalize_ascii m = true ->
  @derivation tabulated m = Thrown e ->
  @importWalletFromMnemonic tabulated m w = (Thrown e, w).
Proof.
  intros Hv Hd. rewrite importWalletFromMnemonic_run.
  change (@bip39_validateMnemonic tabulated m)
    with (Bip39.validateMnemonic Reference.normalize_ascii m).
  rewrite Hv. unfold derive_and_save. now rewrite Hd.
Qed.



(** C2, counterexample. The mnemonic of thirty-two zero bytes has 24
    words and bip39 validates it: the import is not refused as an
    invalid mnemonic, it goes on to the derivation, where the call of
    [bitcoin.ECPair.fromPrivateKey] throws a TypeError. *)
Lemma validation_accepts_24_words :
  word_count mnemonic24 = 24%nat
  /\ Bip39.validateMnemonic Reference.normalize_ascii mnemonic24 = true
  /\ @importWalletFromMnemonic tabulated mnemonic24 fresh_world
     = (Thrown no_ECPair, fresh_world)
  /\ no_ECPair <> Error "Invalid mnemonic phrase".
Proof.
  split; [vm_compute; reflexivity|]. split; [exact reference_validates_mnemonic24|].
  split; [|discriminate].
  exact (tabulated_import mnemonic24 no_ECPair fresh_world
           reference_validates_mnemonic24 tabulated_derivation_mnemonic24).
Qed.

(** C2, amended. With the [validateMnemonic] of bip39, a phrase whose
    number of words, once normalized, is not 12, 15, 18, 21 or 24 is
    refused: [importWalletFromMnemonic] throws
    [Invalid mnemonic phrase] and leaves the world as it was.  The
    phrases bip39 makes of 16, 20, 24, 28 and 32 bytes, of 12, 15, 18,
    21 and 24 words, are all validated, and the import of each goes on
    to the derivation and the write. *)
Theorem import_rejects_other_word_counts
  (normalize : jsstring -> jsstring) (m : jsstring) (w : World) :
  (forall s, Forall (fun c => (c < 128)%N) s -> normalize s = s) ->
  (~ In (word_count (normalize m)) [12; 15; 18; 21; 24]%nat ->
   Bip39.validateMnemonic normalize m = false
   /\ @importWalletFromMnemonic (Reference.imports normalize) m w
      = (Thrown (Error "Invalid mnemonic phrase"), w))
  /\ (forall entropy,
        In (length entropy) [16; 20; 24; 28; 32]%nat ->
        Forall (fun b => (b < 256)%N) entropy ->
        exists phrase,
          Bip39.entropyToMnemonic entropy = Returned phrase
          /\ word_count phrase = (length entropy / 4 * 3)%nat
          /\ Bip39.validateMnemonic normalize phrase = true
          /\ @importWalletFromMnemonic (Reference.imports normalize) phrase w
             = @derive_and_save (Reference.imports normalize) phrase w).
Proof.
  intros Hnorm. split.
  - intros Hcount.
    assert (Hv : Bip39.validateMnemonic normalize m = false).
    { destruct (Bip39.validateMnemonic normalize m) eqn:Hv; [|reflexivity].
      now apply validateMnemonic_word_count in Hv. }
    split; [exact Hv|].
    now apply (@importWalletFromMnemonic_refuses (Reference.imports normalize)).
  - intros entropy Hlen Hbytes.
    destruct (entropyToMnemonic_validates normalize entropy Hnorm)
      as (phrase & Hphrase & Hvalid & Hwords); [| |exact Hbytes|].
    + cbn in Hlen. lia.
    + cbn in Hlen. destruct Hlen as [<-|[<-|[<-|[<-|[<-|[]]]]]]; reflexivity.
    + exists phrase. repeat split; try assumption.
      rewrite importWalletFromMnemonic_run.
      change (@bip39_validateMnemonic (Reference.imports normalize) phrase)
        with (Bip39.validateMnemonic normalize phrase).
      now rewrite Hvalid.
Qed.

(** C2, witness: a phrase of two words is refused, on a fresh
    installation. *)
Lemma import_rejects_other_word_counts_witness :
  (forall s, Forall (fun c => (c < 128)%N) s -> Reference.normalize_ascii s = s)
  /\ ~ In (word_count (Reference.normalize_ascii (lit "abandon about")))
         [12; 15; 18; 21; 24]%nat
  /\ (Bip39.validateMnemonic Reference.normalize_ascii (lit "abandon about") = false
      /\ @importWalletFromMnemonic reference (lit "abandon about") fresh_world
         = (Thrown (Error "Invalid mnemonic phrase"), fresh_world))
  /\ (forall entropy,
        In (length entropy) [16; 20; 24; 28; 32]%nat ->
        Forall (fun b => (b < 256)%N) entropy ->
        exists phrase,
          Bip39.entropyToMnemonic entropy = Returned phrase
          /\ word_count phrase = (length entropy / 4 * 3)%nat
          /\ Bip39.validateMnemonic Reference.normalize_ascii phrase = true
          /\ @importWalletFromMnemonic reference phrase fresh_world
             = @derive_and_save reference phrase fresh_world).
Proof.
  assert (Hn : forall s, Forall (fun c => (c < 128)%N) s ->
                         Reference.normalize_ascii s = s)
    by (intros s _; reflexivity).
  assert (H : ~ In (word_count (Reference.normalize_ascii (lit "abandon about")))
                   [12; 15; 18; 21; 24]%nat).
  { vm_compute. intros [H|[H|[H|[H|[H|[]]]]]]; discriminate H. }
  split; [exact Hn|]. split; [exact H|].
  split;
    [exact (proj1 (import_rejects_other_word_counts Reference.normalize_ascii
                     (lit "abandon about") fresh_world Hn) H)
    |exact (proj2 (import_rejects_other_word_counts Reference.normalize_ascii
                     (lit "abandon about") fresh_world Hn))].
Defined.

(** C6, witness: a world whose storage is full. *)
Lemma write_failure_propagates_witness :
  next_fault faulty_world = Some disk_full
  /\ ((exists e w',
         @generateWallet reference faulty_world = (Thrown e, w')
         /\ storage w' = storage faulty_world
         /\ (forall m wallet,
               @bip39_entropyToMnemonic reference (drawn 16 faulty_world) = Returned m ->
               @derivation reference m = Returned wallet -> e = disk_full))
      /\ (forall m,
            exists e w',
              @importWalletFromMnemonic reference m faulty_world = (Thrown e, w')
              /\ storage w' = storage faulty_world
              /\ (forall wallet,
                    @bip39_validateMnemonic reference m = true ->
                    @derivation reference m = Returned wallet -> e = disk_full))).
Proof.
  split; [reflexivity|].
  exact (@write_failure_propagates reference faulty_world disk_full eq_refl).
Defined.

(** C8, witness: a wallet is stored, and the removal is served. *)
Lemma deleteWallet_then_loadWallet_witness :
  next_fault used_world = None
  /\ exists w',
       deleteWallet used_world = (Returned tt, w')
       /\ storage w' !! WALLET_STORAGE_KEY = None
       /\ (exists w'', loadWallet w' = (Returned JNull, w''))
       /\ (storage used_world !! WALLET_STORAGE_KEY = None ->
           storage w' = storage used_world).
Proof.
  split; [reflexivity|].
  exact (deleteWallet_then_loadWallet used_world eq_refl).
Defined.

(** C9, witness: the wallet of sixteen zero bytes on a fresh
    installation. *)
Lemma saveWallet_then_loadWallet_witness :
  next_fault fresh_world = None
  /\ nth 1 (storage_faults fresh_world) None = None
  /\ exists w' w'',
       saveWallet wallet12 fresh_world = (Returned tt, w')
       /\ loadWallet w' = (Returned (wallet_object wallet12), w'')
       /\ get_property (wallet_object wallet12) (lit "mnemonic")
          = inl (JString (mnemonic wallet12))
       /\ get_property (wallet_object wallet12) (lit "privateKey")
          = inl (JString (privateKey wallet12))
       /\ get_property (wallet_object wallet12) (lit "publicKey")
          = inl (JString (publicKey wallet12))
       /\ get_property (wallet_object wallet12) (lit "address")
          = inl (JString (address wallet12))
       /\ get_property (wallet_object wallet12) (lit "wif")
          = inl (JString (wif wallet12)).
Proof.
  split; [reflexivity|]. split; [reflexivity|].
  exact (saveWallet_then_loadWallet wallet12 fresh_world eq_refl eq_refl).
Defined.


(** * Further properties of the service and of its screen *)

(** ** The helpers of the adapter *)

(** X1. [toBuffer] hands back the bytes it was given, whatever the
    content of the buffer [Buffer.allocUnsafe] allocated: every byte of
    the allocation is overwritten. *)
Theorem toBuffer_returns_its_argument (arr buffer : bytes) :
  length buffer = length arr ->
  toBuffer_from buffer arr = arr /\ toBuffer arr = arr.
Proof.
  intros Hlen. split.
  - unfold toBuffer_from. now apply toBuffer_loop.
  - unfold toBuffer. apply toBuffer_loop; [|reflexivity..].
    unfold Buffer_allocUnsafe. now rewrite length_replicate.
Qed.

(** X1, witness: three bytes over an allocation that held three others. *)
Lemma toBuffer_returns_its_argument_witness :
  length [255; 254; 253]%N = length [1; 2; 3]%N
  /\ (toBuffer_from [255; 254; 253]%N [1; 2; 3]%N = [1; 2; 3]%N
      /\ toBuffer [1; 2; 3]%N = [1; 2; 3]%N).
Proof.
  split; [reflexivity|].
  exact (toBuffer_returns_its_argument [1; 2; 3]%N [255; 254; 253]%N eq_refl).
Defined.

(** ** The storage functions, one key *)

(** The fault the request after a storage request meets. *)
Lemma next_fault_after_request (w : World) (ev : list Event)
  (st : gmap jsstring jsstring) :
  next_fault (after_request w ev st) = nth 1 (storage_faults w) None.
Proof.
  unfold next_fault, after_request. cbn.
  destruct (storage_faults w) as [|f [|g fs]]; reflexivity.
Qed.

(** X3. [saveWallet] writes no key but its own.  Served, it leaves the
    JSON of the wallet there; rejected, it logs the error of the storage
    and throws that very error, the content being as before. *)
Theorem saveWallet_writes_only_its_key (wallet : Wallet) (w : World) :
  exists r w',
    saveWallet wallet w = (r, w')
    /\ (forall key, key <> WALLET_STORAGE_KEY ->
                    storage w' !! key = storage w !! key)
    /\ match r with
       | Returned _ =>
           next_fault w = None
           /\ storage w' !! WALLET_STORAGE_KEY = Some (JSON_stringify wallet)
           /\ trace w' = trace w ++ [EvSetItem WALLET_STORAGE_KEY (JSON_stringify wallet)]
       | Thrown e =>
           next_fault w = Some e
           /\ storage w' = storage w
           /\ trace w' = trace w ++ [EvSetItem WALLET_STORAGE_KEY (JSON_stringify wallet);
                                     EvConsoleError "Error saving wallet:" e]
       end.
Proof.
  rewrite saveWallet_run. cbv zeta.
  destruct (next_fault w) as [e|]; eexists _, _; (split; [reflexivity|]).
  - split; [reflexivity|]. repeat split; reflexivity.
  - split.
    + intros key Hkey. cbn. now apply lookup_insert_ne.
    + repeat split; try reflexivity. cbn. apply lookup_insert_eq.
Qed.

(** X4. [deleteWallet] removes no key but its own.  Rejected, it logs
    the error of the storage and throws that very error, the content
    being as before. *)
Theorem deleteWallet_removes_only_its_key (w : World) :
  exists r w',
    deleteWallet w = (r, w')
    /\ (forall key, key <> WALLET_STORAGE_KEY ->
                    storage w' !! key = storage w !! key)
    /\ match r with
       | Returned _ =>
           next_fault w = None
           /\ storage w' = delete WALLET_STORAGE_KEY (storage w)
           /\ trace w' = trace w ++ [EvRemoveItem WALLET_STORAGE_KEY]
       | Thrown e =>
           next_fault w = Some e
           /\ storage w' = storage w
           /\ trace w' = trace w ++ [EvRemoveItem WALLET_STORAGE_KEY;
                                     EvConsoleError "Error deleting wallet:" e]
       end.
Proof.
  rewrite deleteWallet_run. cbv zeta.
  destruct (next_fault w) as [e|]; eexists _, _; (split; [reflexivity|]).
  - split; [reflexivity|]. repeat split; reflexivity.
  - split.
    + intros key Hkey. cbn. now apply lookup_delete_ne.
    + repeat split; reflexivity.
Qed.

(** What [loadWallet] returns when the JSON of a wallet is stored and
    the read is served. *)
Lemma loadWallet_stored (wallet : Wallet) (w : World) :
  storage w !! WALLET_STORAGE_KEY = Some (JSON_stringify wallet) ->
  next_fault w = None ->
  loadWallet w = (Returned (wallet_object wallet),
                  after_request w [EvGetItem WALLET_STORAGE_KEY] (storage w)).
Proof.
  intros Hk Hf. rewrite loadWallet_run. cbv zeta. rewrite Hf, Hk.
  pose proof (JSON_parse_JSON_stringify wallet) as Hparse.
  destruct (JSON_stringify wallet) as [|c text] eqn:Htext; [discriminate|].
  now rewrite Hparse.
Qed.

(** X5. The storage holds one wallet: the second [saveWallet] replaces
    what the first one stored, and [loadWallet] returns the second. *)
Theorem saveWallet_overwrites (a b : Wallet) (w : World) :
  next_fault w = None ->
  nth 1 (storage_faults w) None = None ->
  nth 2 (storage_faults w) None = None ->
  exists w1 w2 w3,
    saveWallet a w = (Returned tt, w1)
    /\ saveWallet b w1 = (Returned tt, w2)
    /\ loadWallet w2 = (Returned (wallet_object b), w3)
    /\ storage w2 = <[WALLET_STORAGE_KEY := JSON_stringify b]> (storage w).
Proof.
  intros H0 H1 H2.
  rewrite saveWallet_run, H0. cbv zeta.
  set (w1 := after_request w [EvSetItem WALLET_STORAGE_KEY (JSON_stringify a)]
               (<[WALLET_STORAGE_KEY := JSON_stringify a]> (storage w))).
  assert (Hf1 : next_fault w1 = None)
    by (unfold w1; now rewrite next_fault_after_request).
  set (w2 := after_request w1 [EvSetItem WALLET_STORAGE_KEY (JSON_stringify b)]
               (<[WALLET_STORAGE_KEY := JSON_stringify b]> (storage w1))).
  assert (Hf2 : next_fault w2 = None).
  { unfold w2. rewrite next_fault_after_request. unfold w1, after_request. cbn.
    destruct (storage_faults w) as [|f [|g [|h fs]]]; cbn in *; auto. }
  exists w1, w2, (after_request w2 [EvGetItem WALLET_STORAGE_KEY] (storage w2)).
  split; [reflexivity|].
  split; [rewrite saveWallet_run, Hf1; reflexivity|].
  split.
  - apply loadWallet_stored; [|exact Hf2]. apply lookup_insert_eq.
  - unfold w2, w1. cbn. apply insert_insert_eq.
Qed.

(** X5, witness: two wallets saved in turn on a fresh installation. *)
Lemma saveWallet_overwrites_witness :
  next_fault fresh_world = None
  /\ nth 1 (storage_faults fresh_world) None = None
  /\ nth 2 (storage_faults fresh_world) None = None
  /\ exists w1 w2 w3,
       saveWallet wallet12 fresh_world = (Returned tt, w1)
       /\ saveWallet wallet24 w1 = (Returned tt, w2)
       /\ loadWallet w2 = (Returned (wallet_object wallet24), w3)
       /\ storage w2 = <[WALLET_STORAGE_KEY := JSON_stringify wallet24]> (storage fresh_world).
Proof.
  split; [reflexivity|]. split; [reflexivity|]. split; [reflexivity|].
  exact (saveWallet_overwrites wallet12 wallet24 fresh_world eq_refl eq_refl eq_refl).
Defined.

(** ** The chain-data lookups, once more *)

(** X12. Whatever the API answers, [getTransactionHistory] returns a
    value that is not [null], [undefined] or any other falsy value: the
    guard [data.txs || []] replaces each of them by the empty list. *)
Theorem getTransactionHistory_truthy (address : jsstring) (w : World) :
  exists txs w',
    getTransactionHistory address w = (Returned txs, w')
    /\ ToBoolean txs = true
    /\ txs <> JNull /\ txs <> JUndefined.
Proof.
  destruct (getTransactionHistory_run address w) as (evs & -> & _).
  eexists _, _. split; [reflexivity|].
  assert (H : ToBoolean
                match payload (remote w (history_url address)) with
                | Some data =>
                    match get_property data (lit "txs") with
                    | inl txs => logical_or txs (JArray [])
                    | inr _ => JArray []
                    end
                | None => JArray []
                end = true).
  { destruct (payload _) as [data|]; [|reflexivity].
    destruct (get_property data _) as [txs|]; [|reflexivity].
    unfold logical_or. destruct (ToBoolean txs) eqn:Ht; [exact Ht|reflexivity]. }
  split; [exact H|]. split; intros Heq; rewrite Heq in H; discriminate.
Qed.

(** ** The two constructors, their effects and their wallets *)

Section CreationEffects.
Context {imports : Imports}.

(** The effects of the derivation and the write. *)
Lemma derive_and_save_effects (m : jsstring) (w : World) :
  exists evs,
    trace (snd (derive_and_save m w)) = trace w ++ evs
    /\ forallb storage_or_console evs = true
    /\ random_used (snd (derive_and_save m w)) = random_used w
    /\ remote (snd (derive_and_save m w)) = remote w.
Proof.
  destruct (derive_and_save_cases m w) as [(e & _ & ->)|(a & _ & Hrun)].
  - exists []. cbn. now rewrite app_nil_r.
  - cbv zeta in Hrun. destruct (next_fault w); rewrite Hrun;
      eexists; (split; [reflexivity|]); repeat split; reflexivity.
Qed.

(** X6. [importWalletFromMnemonic] draws no random byte, sends no
    request and reads nothing from the storage: all it does to the
    world is the write, and the log of a failed write.  A mnemonic
    bip39 does not validate leaves the world untouched. *)
Theorem importWalletFromMnemonic_effects (m : jsstring) (w : World) :
  exists evs,
    trace (snd (importWalletFromMnemonic m w)) = trace w ++ evs
    /\ forallb storage_or_console evs = true
    /\ random_used (snd (importWalletFromMnemonic m w)) = random_used w
    /\ (bip39_validateMnemonic m = false ->
        importWalletFromMnemonic m w = (Thrown (Error "Invalid mnemonic phrase"), w)).
Proof.
  rewrite importWalletFromMnemonic_run.
  destruct (bip39_validateMnemonic m).
  - destruct (derive_and_save_effects m w) as (evs & Ht & Hev & Hr & _).
    exists evs. repeat split; try assumption. discriminate.
  - exists []. cbn. rewrite app_nil_r. repeat split; reflexivity.
Qed.

(** X7. [generateWallet] draws sixteen random bytes, once and before
    anything else, whether it returns or throws; it sends no request
    and reads nothing from the storage.  The mnemonic of the wallet it
    returns is the one bip39 makes of those sixteen bytes. *)
Theorem generateWallet_draws_sixteen_bytes (w : World) :
  exists evs,
    trace (snd (generateWallet w)) = trace w ++ EvRandomBytes 16 :: evs
    /\ forallb storage_or_console evs = true
    /\ random_used (snd (generateWallet w)) = (random_used w + 16)%nat
    /\ (forall a, fst (generateWallet w) = Returned a ->
                  bip39_entropyToMnemonic (drawn 16 w) = Returned (mnemonic a)).
Proof.
  rewrite generateWallet_run.
  destruct (bip39_entropyToMnemonic (drawn 16 w)) as [m|e].
  - destruct (derive_and_save_effects m (after_random 16 w)) as (evs & Ht & Hev & Hr & _).
    exists evs. rewrite Ht, Hr. cbn. rewrite <- app_assoc.
    repeat split; try assumption; try reflexivity.
    intros a Ha.
    destruct (derive_and_save m (after_random 16 w)) as [r w'] eqn:Hrun.
    cbn in Ha. subst r.
    apply derive_and_save_returned in Hrun as (Hd & _).
    now rewrite (derivation_mnemonic m a Hd).
  - exists []. cbn. repeat split; try reflexivity. discriminate.
Qed.

(** A wallet a constructor returned is one the derivation returned, and
    its JSON is what the storage holds. *)
Lemma constructor_returned (w w' : World) (a : Wallet) :
  generateWallet w = (Returned a, w')
  \/ (exists m, importWalletFromMnemonic m w = (Returned a, w')) ->
  derivation (mnemonic a) = Returned a
  /\ storage w' !! WALLET_STORAGE_KEY = Some (JSON_stringify a)
  /\ storage_faults w' = tail (storage_faults w).
Proof.
  assert (Hd : forall m w0, derive_and_save m w0 = (Returned a, w') ->
                 derivation (mnemonic a) = Returned a
                 /\ storage w' !! WALLET_STORAGE_KEY = Some (JSON_stringify a)
                 /\ storage_faults w' = tail (storage_faults w0)).
  { intros m w0 Hrun. apply derive_and_save_returned in Hrun as (Ha & _ & ->).
    rewrite (derivation_mnemonic m a Ha). split; [exact Ha|].
    split; [apply lookup_insert_eq|reflexivity]. }
  intros [Hgen|(m & Himp)].
  - rewrite generateWallet_run in Hgen.
    destruct (bip39_entropyToMnemonic (drawn 16 w)) as [m|e]; [|discriminate].
    now apply Hd in Hgen.
  - rewrite importWalletFromMnemonic_run in Himp.
    destruct (bip39_validateMnemonic m); [|discriminate].
    now apply Hd in Himp.
Qed.

(** X24. [bitcoin.ECPair] is missing from every release of
    bitcoinjs-lib that has the [initEccLib] the module of the service
    calls.  With [bitcoin.ECPair.fromPrivateKey] throwing, neither
    constructor ever returns a wallet, whatever the mnemonic and the
    world: [importWalletFromMnemonic] throws and leaves the world as it
    was, [generateWallet] throws after its draw of sixteen bytes, and
    nothing is written to the storage. *)
Theorem constructors_never_return (w : World) :
  (forall key network, exists e, ECPair_fromPrivateKey key network = Thrown e) ->
  (exists e, generateWallet w = (Thrown e, after_random 16 w))
  /\ (forall m, exists e, importWalletFromMnemonic m w = (Thrown e, w)).
Proof.
  intros Hpair.
  assert (Hd : forall m w0, exists e, derive_and_save m w0 = (Thrown e, w0)).
  { intros m w0. destruct (derivation_without_ECPair m Hpair) as (e & He).
    exists e. unfold derive_and_save. now rewrite He. }
  split.
  - rewrite generateWallet_run.
    destruct (bip39_entropyToMnemonic (drawn 16 w)) as [m|e]; [apply Hd|eauto].
  - intros m. rewrite importWalletFromMnemonic_run.
    destruct (bip39_validateMnemonic m); [apply Hd|eauto].
Qed.

End CreationEffects.

(** X24, witness: the packages as published, on a fresh installation. *)
Lemma constructors_never_return_witness :
  (forall key network,
     exists e, @ECPair_fromPrivateKey reference key network = Thrown e)
  /\ ((exists e, @generateWallet reference fresh_world
                 = (Thrown e, after_random 16 fresh_world))
      /\ (forall m, exists e, @importWalletFromMnemonic reference m fresh_world
                              = (Thrown e, fresh_world))).
Proof.
  assert (H : forall key network,
                exists e, @ECPair_fromPrivateKey reference key network = Thrown e)
    by (intros key network; exists no_ECPair; reflexivity).
  split; [exact H|].
  exact (@constructors_never_return reference fresh_world H).
Defined.

(** ** What the stored record shows *)

Lemma occurs_in_here (s : jsstring) : occurs_in s s.
Proof. exists [], []. now rewrite app_nil_r. Qed.

Lemma occurs_in_left (s a b : jsstring) : occurs_in s a -> occurs_in s (a ++ b).
Proof.
  intros (x & y & ->). exists x, (y ++ b). now rewrite <- !app_assoc.
Qed.

Lemma occurs_in_right (s a b : jsstring) : occurs_in s b -> occurs_in s (a ++ b).
Proof.
  intros (x & y & ->). exists (a ++ x), y. now rewrite <- !app_assoc.
Qed.

(** Looking for a part among the pieces of a text. *)
Ltac find_occurrence :=
  solve [ eassumption
        | apply occurs_in_left; find_occurrence
        | apply occurs_in_right; find_occurrence ].

(** A plain text is quoted by putting it between quotes. *)
Lemma quote_chars_plain (s : jsstring) : plain_text s = true -> quote_chars s = s.
Proof.
  induction s as [|c s IH]; [reflexivity|].
  cbn [plain_text forallb]. intros H.
  apply andb_true_iff in H as [Hc Hs].
  apply andb_true_iff in Hc as [Hc H4]. apply andb_true_iff in Hc as [Hc H3].
  apply andb_true_iff in Hc as [H1 H2].
  apply N.leb_le in H1. apply negb_true_iff, N.eqb_neq in H2.
  apply negb_true_iff, N.eqb_neq in H3. apply N.ltb_lt in H4.
  cbn [quote_chars].
  assert (Hl : is_leading_surrogate c = false).
  { unfold is_leading_surrogate. apply andb_false_iff. left. apply N.leb_gt. lia. }
  assert (Ht : is_trailing_surrogate c = false).
  { unfold is_trailing_surrogate. apply andb_false_iff. left. apply N.leb_gt. lia. }
  rewrite Hl. unfold quote_unit. rewrite Hl, Ht.
  repeat match goal with
         | |- context [(c =? ?k)%N] =>
             destruct (N.eqb_spec c k); [lia|]
         end.
  destruct (N.ltb_spec c 32); [lia|]. cbn [orb app].
  f_equal. now apply IH.
Qed.

Lemma occurs_in_QuoteJSONString (s : jsstring) :
  plain_text s = true -> occurs_in s (QuoteJSONString s).
Proof.
  intros H. unfold QuoteJSONString. rewrite (quote_chars_plain s H).
  apply occurs_in_right, occurs_in_left, occurs_in_here.
Qed.

(** X11. The record [saveWallet] stores holds the secrets of the
    wallet in clear: a mnemonic, a private key and a WIF made of plain
    characters, as the words of bip39, hexadecimal digits and base58
    are, can be read in the stored text as they are. *)
Theorem saveWallet_stores_secrets_in_clear (a : Wallet) (w : World) :
  plain_text (mnemonic a) = true ->
  plain_text (privateKey a) = true ->
  plain_text (wif a) = true ->
  next_fault w = None ->
  exists w' stored,
    saveWallet a w = (Returned tt, w')
    /\ storage w' !! WALLET_STORAGE_KEY = Some stored
    /\ occurs_in (mnemonic a) stored
    /\ occurs_in (privateKey a) stored
    /\ occurs_in (wif a) stored.
Proof.
  intros Hm Hp Hw Hf. rewrite saveWallet_run, Hf. cbv zeta.
  eexists _, (JSON_stringify a). split; [reflexivity|].
  split; [apply lookup_insert_eq|].
  apply occurs_in_QuoteJSONString in Hm, Hp, Hw.
  with_strategy transparent [JSON_stringify]
    unfold JSON_stringify, SerializeJSONObject, serialize_members, serialize_member.
  cbn [fst snd].
  repeat split; find_occurrence.
Qed.

(** X11, witness: the wallet of the mnemonic of sixteen zero bytes. *)
Lemma saveWallet_stores_secrets_in_clear_witness :
  plain_text (mnemonic wallet12) = true
  /\ plain_text (privateKey wallet12) = true
  /\ plain_text (wif wallet12) = true
  /\ next_fault fresh_world = None
  /\ exists w' stored,
       saveWallet wallet12 fresh_world = (Returned tt, w')
       /\ storage w' !! WALLET_STORAGE_KEY = Some stored
       /\ occurs_in (mnemonic wallet12) stored
       /\ occurs_in (privateKey wallet12) stored
       /\ occurs_in (wif wallet12) stored.
Proof.
  assert (H1 : plain_text (mnemonic wallet12) = true) by (vm_compute; reflexivity).
  assert (H2 : plain_text (privateKey wallet12) = true) by (vm_compute; reflexivity).
  assert (H3 : plain_text (wif wallet12) = true) by (vm_compute; reflexivity).
  split; [exact H1|]. split; [exact H2|]. split; [exact H3|]. split; [reflexivity|].
  exact (saveWallet_stores_secrets_in_clear wallet12 fresh_world H1 H2 H3 eq_refl).
Defined.

(** ** Words bip39 does not know *)

(** A word has a position in the list exactly when it is in the list. *)
Lemma indexOf_In (wordlist : list jsstring) (word : jsstring) (k : N) :
  In word wordlist <-> Bip39.indexOf wordlist word k <> None.
Proof.
  revert k. induction wordlist as [|w wordlist IH]; intros k; cbn [Bip39.indexOf In].
  - split; [intros []|congruence].
  - unfold jsstring_eqb. destruct (bool_decide_reflect (w = word)) as [->|Hne].
    + split; [discriminate|auto].
    + rewrite <- IH. split; [intros [H|H]; [contradiction|exact H]|auto].
Qed.

(** One unknown word is enough for the words to have no bits. *)
Lemma word_bits_unknown (wordlist words : list jsstring) (word : jsstring) :
  In word words -> ~ In word wordlist -> Bip39.word_bits wordlist words = None.
Proof.
  intros Hin Hout. induction words as [|w words IH]; [destruct Hin|].
  cbn [Bip39.word_bits]. destruct Hin as [->|Hin].
  - destruct (Bip39.indexOf wordlist word 0) eqn:Hi; [|reflexivity].
    exfalso. apply Hout. apply (indexOf_In wordlist word 0). congruence.
  - rewrite (IH Hin). now destruct (Bip39.indexOf wordlist w 0).
Qed.

(** X23. With bip39's [validateMnemonic] as the package publishes it, a
    phrase with a word that is not in the English word list is refused
    by [importWalletFromMnemonic] with [Invalid mnemonic phrase],
    whatever its other words and their number; nothing is derived,
    logged or written. *)
Theorem import_rejects_unknown_word
  (normalize : jsstring -> jsstring) (m word : jsstring) (w : World) :
  In word (Bip39.split_spaces (normalize m) []) ->
  ~ In word Bip39.DEFAULT_WORDLIST ->
  Bip39.validateMnemonic normalize m = false
  /\ @importWalletFromMnemonic (Reference.imports normalize) m w
     = (Thrown (Error "Invalid mnemonic phrase"), w).
Proof.
  intros Hin Hout.
  assert (Hv : Bip39.validateMnemonic normalize m = false).
  { unfold Bip39.validateMnemonic, Bip39.mnemonicToEntropy.
    rewrite (word_bits_unknown _ _ word Hin Hout).
    now destruct (negb _). }
  split; [exact Hv|].
  now apply (@importWalletFromMnemonic_refuses (Reference.imports normalize)).
Qed.

(** X23, witness: eleven words of the list and one that is not. *)
Lemma import_rejects_unknown_word_witness :
  In (lit "bitcoin")
     (Bip39.split_spaces
        (Reference.normalize_ascii
           (lit "abandon abandon abandon abandon abandon abandon abandon abandon abandon abandon abandon bitcoin"))
        [])
  /\ ~ In (lit "bitcoin") Bip39.DEFAULT_WORDLIST
  /\ (Bip39.validateMnemonic Reference.normalize_ascii
        (lit "abandon abandon abandon abandon abandon abandon abandon abandon abandon abandon abandon bitcoin")
      = false
      /\ @importWalletFromMnemonic reference
           (lit "abandon abandon abandon abandon abandon abandon abandon abandon abandon abandon abandon bitcoin")
           fresh_world
         = (Thrown (Error "Invalid mnemonic phrase"), fresh_world)).
Proof.
  assert (H1 : In (lit "bitcoin")
                 (Bip39.split_spaces
                    (Reference.normalize_ascii
                       (lit "abandon abandon abandon abandon abandon abandon abandon abandon abandon abandon abandon bitcoin"))
                    [])).
  { vm_compute. do 11 right. left. reflexivity. }
  assert (H2 : ~ In (lit "bitcoin") Bip39.DEFAULT_WORDLIST).
  { intros H. apply (indexOf_In _ _ 0%N) in H. vm_compute in H. congruence. }
  split; [exact H1|]. split; [exact H2|].
  exact (import_rejects_unknown_word Reference.normalize_ascii _ (lit "bitcoin")
           fresh_world H1 H2).
Defined.

(** ** The wallet screen *)

Section ScreenProperties.
Import WalletScreen.

(** Unfolding a handler down to the calls of the service. *)
Ltac run_handler :=
  cbv [handleGenerateWallet handleImportWallet handleDeleteWallet
       handleDeleteWallet_onPress loadExistingWallet fetchBalance fetchTransactions
       hbind hret htry_catch hfinally await WalletScreen.console_error
       setWallet setBalance setLoading setBalanceLoading setShowMnemonic
       setShowImport setMnemonicInput setTransactions Alert_alert
       Platform.console_error emit
       wallet balance loading balanceLoading showMnemonic showImport
       mnemonicInput transactions alerts].

Context {imports : Imports} {builtins : Builtins}.

(** [handleImportWallet], run. *)
Lemma handleImportWallet_run (input : jsstring) (s : Screen) (w : World) :
  handleImportWallet input s w =
  match trim input with
  | [] =>
      (Returned tt,
       mkScreen (wallet s) (balance s) (loading s) (balanceLoading s) (showMnemonic s)
                (showImport s) (mnemonicInput s) (transactions s)
                (alerts s ++ [mkAlert "Error" "Please enter a mnemonic phrase" []]),
       w)
  | _ =>
      match importWalletFromMnemonic (trim input) w with
      | (Returned a, w') =>
          (Returned tt,
           mkScreen (wallet_object a) (balance s) false (balanceLoading s)
                    (showMnemonic s) false [] (transactions s)
                    (alerts s ++ [mkAlert "Success" "Wallet imported successfully!" []]),
           w')
      | (Thrown e, w') =>
          (Returned tt,
           mkScreen (wallet s) (balance s) false (balanceLoading s) (showMnemonic s)
                    (showImport s) (mnemonicInput s) (transactions s)
                    (alerts s ++
                     [mkAlert "Error"
                        (message_or e
                           "Failed to import wallet. Please check your mnemonic phrase.")
                        []]),
           after_lookup w' [EvConsoleError "Error importing wallet:" e])
      end
  end.
Proof.
  unfold handleImportWallet. destruct (trim input) as [|c text]; [reflexivity|].
  generalize (c :: text). intros m. run_handler.
  destruct (importWalletFromMnemonic m w) as [[a|e] w']; reflexivity.
Qed.


(** [handleGenerateWallet], run. *)
Lemma handleGenerateWallet_run (s : Screen) (w : World) :
  handleGenerateWallet s w =
  match generateWallet w with
  | (Returned a, w') =>
      (Returned tt,
       mkScreen (wallet_object a) (balance s) false (balanceLoading s) true
                (showImport s) (mnemonicInput s) (transactions s)
                (alerts s ++
                 [mkAlert "Wallet Created"
                    "Your wallet has been created successfully! Please save your mnemonic phrase securely."
                    ["OK"%string]]),
       w')
  | (Thrown e, w') =>
      (Returned tt,
       mkScreen (wallet s) (balance s) false (balanceLoading s) (showMnemonic s)
                (showImport s) (mnemonicInput s) (transactions s)
                (alerts s ++
                 [mkAlert "Error" "Failed to generate wallet. Please try again." []]),
       after_lookup w' [EvConsoleError "Error generating wallet:" e])
  end.
Proof.
  run_handler. destruct (generateWallet w) as [[a|e] w']; reflexivity.
Qed.

(** A constructor that throws leaves the storage as it was. *)
Lemma constructor_thrown (w w' : World) (e : JsError) :
  generateWallet w = (Thrown e, w')
  \/ (exists m, importWalletFromMnemonic m w = (Thrown e, w')) ->
  storage w' = storage w.
Proof.
  assert (Hd : forall m w0, derive_and_save m w0 = (Thrown e, w') ->
                            storage w' = storage w0).
  { intros m w0 Hrun.
    destruct (derive_and_save_cases m w0) as [(e' & _ & H)|(a & _ & H)].
    - rewrite H in Hrun. now injection Hrun as _ <-.
    - cbv zeta in H. destruct (next_fault w0); rewrite H in Hrun; [|discriminate].
      now injection Hrun as _ <-. }
  intros [Hgen|(m & Himp)].
  - rewrite generateWallet_run in Hgen.
    destruct (bip39_entropyToMnemonic (drawn 16 w)) as [m|e'].
    + now apply Hd in Hgen.
    + now injection Hgen as _ <-.
  - rewrite importWalletFromMnemonic_run in Himp.
    destruct (bip39_validateMnemonic m).
    + now apply Hd in Himp.
    + now injection Himp as _ <-.
Qed.

(** X13. [handleImportWallet] never throws.  It opens exactly one
    dialog, and it leaves the balance, the transactions and the flags
    of the other handlers alone.  On an input that is empty once
    trimmed it asks for a phrase and does nothing else: the service is
    not called and [loading] is not touched; on any other input
    [loading] is [false] in the end, whatever the service did. *)
Theorem handleImportWallet_settles (input : jsstring) (s : Screen) (w : World) :
  exists s' w' dialog,
    handleImportWallet input s w = (Returned tt, s', w')
    /\ alerts s' = alerts s ++ [dialog]
    /\ balance s' = balance s /\ transactions s' = transactions s
    /\ showMnemonic s' = showMnemonic s /\ balanceLoading s' = balanceLoading s
    /\ (trim input = [] ->
        w' = w /\ wallet s' = wallet s /\ loading s' = loading s
        /\ mnemonicInput s' = mnemonicInput s /\ showImport s' = showImport s
        /\ dialog = mkAlert "Error" "Please enter a mnemonic phrase" [])
    /\ (trim input <> [] -> loading s' = false).
Proof.
  rewrite handleImportWallet_run.
  destruct (trim input) as [|c text].
  - eexists _, _, _. split; [reflexivity|]. cbn. repeat split; congruence.
  - destruct (importWalletFromMnemonic (c :: text) w) as [[a|e] w'];
      eexists _, _, _; (split; [reflexivity|]); cbn; repeat split; discriminate.
Qed.

(** X14. When the import fails, [handleImportWallet] keeps the wallet
    on screen, the text typed and the import form as they were, logs
    the error and shows its message ([Invalid mnemonic phrase] for a
    phrase bip39 does not validate); the storage is as before. *)
Theorem handleImportWallet_failure
  (input : jsstring) (s : Screen) (w w' : World) (e : JsError) :
  trim input <> [] ->
  importWalletFromMnemonic (trim input) w = (Thrown e, w') ->
  handleImportWallet input s w =
    (Returned tt,
     mkScreen (wallet s) (balance s) false (balanceLoading s) (showMnemonic s)
              (showImport s) (mnemonicInput s) (transactions s)
              (alerts s ++
               [mkAlert "Error"
                  (message_or e "Failed to import wallet. Please check your mnemonic phrase.")
                  []]),
     after_lookup w' [EvConsoleError "Error importing wallet:" e])
  /\ storage w' = storage w
  /\ (bip39_validateMnemonic (trim input) = false ->
      w' = w
      /\ message_or e "Failed to import wallet. Please check your mnemonic phrase."
         = "Invalid mnemonic phrase"%string).
Proof.
  intros Hinput Himp. rewrite handleImportWallet_run.
  destruct (trim input) as [|c text] eqn:Ht; [congruence|].
  rewrite Himp. split; [reflexivity|].
  split; [apply (constructor_thrown w w' e); right; eauto|].
  intros Hv. rewrite importWalletFromMnemonic_run, Hv in Himp.
  injection Himp as <- <-. split; reflexivity.
Qed.

(** X16. [handleGenerateWallet] never throws and ends with [loading]
    off.  When the service returned a wallet, the screen shows it, with
    its mnemonic revealed, and its JSON is in the storage; when the
    service threw, the wallet on screen and the storage are as before,
    and the user is told so. *)
Theorem handleGenerateWallet_settles (s : Screen) (w : World) :
  exists s' w' dialog,
    handleGenerateWallet s w = (Returned tt, s', w')
    /\ loading s' = false
    /\ alerts s' = alerts s ++ [dialog]
    /\ balance s' = balance s /\ transactions s' = transactions s
    /\ mnemonicInput s' = mnemonicInput s /\ showImport s' = showImport s
    /\ match fst (generateWallet w) with
       | Returned a =>
           wallet s' = wallet_object a /\ showMnemonic s' = true
           /\ alert_title dialog = "Wallet Created"%string
           /\ storage w' !! WALLET_STORAGE_KEY = Some (JSON_stringify a)
       | Thrown e =>
           wallet s' = wallet s /\ showMnemonic s' = showMnemonic s
           /\ dialog = mkAlert "Error" "Failed to generate wallet. Please try again." []
           /\ storage w' = storage w
       end.
Proof.
  rewrite handleGenerateWallet_run.
  destruct (generateWallet w) as [[a|e] w'] eqn:Hgen;
    eexists _, _, _; (split; [reflexivity|]); cbn; repeat split.
  - now destruct (constructor_returned w w' a (or_introl Hgen)) as (_ & Hk & _).
  - apply (constructor_thrown w w' e). now left.
Qed.


(** X17. [handleDeleteWallet] only asks.  The handler of the [Delete]
    button never throws: when the removal is served, the stored wallet
    is gone and the screen forgets the wallet, its balance, its
    transactions and the revealed mnemonic; when the removal is
    rejected, the screen and the storage keep everything, and the user
    is told that the deletion failed. *)
Theorem handleDeleteWallet_settles (s : Screen) (w : World) :
  handleDeleteWallet s w
  = (Returned tt,
     mkScreen (wallet s) (balance s) (loading s) (balanceLoading s) (showMnemonic s)
              (showImport s) (mnemonicInput s) (transactions s)
              (alerts s ++
               [mkAlert "Delete Wallet"
                  "Are you sure you want to delete this wallet? This action cannot be undone. Make sure you have saved your mnemonic phrase."
                  ["Cancel"%string; "Delete"%string]]),
     w)
  /\ exists s' w',
       handleDeleteWallet_onPress s w = (Returned tt, s', w')
       /\ match next_fault w with
          | None =>
              s' = mkScreen JNull 0%float (loading s) (balanceLoading s) false
                            (showImport s) (mnemonicInput s) (JArray [])
                            (alerts s ++ [mkAlert "Success" "Wallet deleted successfully" []])
              /\ storage w' = delete WALLET_STORAGE_KEY (storage w)
          | Some e =>
              s' = mkScreen (wallet s) (balance s) (loading s) (balanceLoading s)
                            (showMnemonic s) (showImport s) (mnemonicInput s)
                            (transactions s)
                            (alerts s ++ [mkAlert "Error" "Failed to delete wallet" []])
              /\ storage w' = storage w
              /\ trace w' = trace w ++ [EvRemoveItem WALLET_STORAGE_KEY;
                                        EvConsoleError "Error deleting wallet:" e;
                                        EvConsoleError "Error deleting wallet:" e]
          end.
Proof.
  split; [reflexivity|]. run_handler. rewrite deleteWallet_run. cbv zeta.
  destruct (next_fault w) as [e|]; eexists _, _; (split; [reflexivity|]).
  - repeat split. cbn. now rewrite <- app_assoc.
  - split; reflexivity.
Qed.

(** X18. [loadExistingWallet] never throws, opens no dialog and leaves
    the storage and every state variable but [wallet] alone; it sets
    [wallet] only to a truthy value.  With the JSON of a wallet in the
    storage and the read served, the screen shows that wallet; without
    a stored wallet, or with the read rejected, the wallet on screen
    stays. *)
Theorem loadExistingWallet_settles (s : Screen) (w : World) :
  exists v w',
    loadExistingWallet s w
    = (Returned tt,
       mkScreen v (balance s) (loading s) (balanceLoading s) (showMnemonic s)
                (showImport s) (mnemonicInput s) (transactions s) (alerts s),
       w')
    /\ storage w' = storage w
    /\ (v = wallet s \/ ToBoolean v = true)
    /\ (forall a, storage w !! WALLET_STORAGE_KEY = Some (JSON_stringify a) ->
                  next_fault w = None -> v = wallet_object a)
    /\ (storage w !! WALLET_STORAGE_KEY = None -> v = wallet s)
    /\ (next_fault w <> None -> v = wallet s).
Proof.
  assert (Hstored : forall a text, Some text = Some (JSON_stringify a) ->
                                   JSON_parse text = Some (wallet_object a)).
  { intros a text [= ->]. apply JSON_parse_JSON_stringify. }
  run_handler. rewrite loadWallet_run. cbv zeta.
  destruct (next_fault w) as [e|] eqn:Hf.
  { destruct s. eexists _, _. split; [reflexivity|]. cbn.
    repeat split; auto; discriminate. }
  destruct (storage w !! WALLET_STORAGE_KEY) as [[|c text]|] eqn:Hk.
  - destruct s. eexists _, _. split; [reflexivity|]. cbn.
    repeat split; auto; try congruence.
    intros a Ha _. apply Hstored in Ha. vm_compute in Ha. discriminate.
  - destruct (JSON_parse (c :: text)) as [v|] eqn:Hp.
    + destruct (ToBoolean v) eqn:Hv.
      * eexists _, _. split; [reflexivity|]. cbn.
        repeat split; auto; try congruence.
        intros a Ha _. apply Hstored in Ha. congruence.
      * destruct s. eexists _, _. split; [reflexivity|]. cbn.
        repeat split; auto; try congruence.
        intros a Ha _. apply Hstored in Ha. rewrite Hp in Ha.
        injection Ha as ->. discriminate.
    + destruct s. eexists _, _. split; [reflexivity|]. cbn.
      repeat split; auto; try congruence.
      intros a Ha _. apply Hstored in Ha. congruence.
  - destruct s. eexists _, _. split; [reflexivity|]. cbn.
    repeat split; auto; discriminate.
Qed.


(** The lookups on an address that need not be a string never throw
    and leave the storage alone. *)
Lemma getWalletBalance_of_run (address : JsValue) (w : World) :
  exists amount evs,
    getWalletBalance_of address w = (Returned amount, after_lookup w evs).
Proof.
  unfold getWalletBalance_of. destruct (ToString address) as [text|e].
  - destruct (getWalletBalance_run text w) as (evs & -> & _). eauto.
  - eexists _, _. reflexivity.
Qed.

Lemma getTransactionHistory_of_run (address : JsValue) (w : World) :
  exists txs evs,
    getTransactionHistory_of address w = (Returned txs, after_lookup w evs)
    /\ ToBoolean txs = true.
Proof.
  unfold getTransactionHistory_of. destruct (ToString address) as [text|e].
  - destruct (getTransactionHistory_run text w) as (evs & -> & _).
    eexists _, _. split; [reflexivity|].
    destruct (payload _) as [data|]; [|reflexivity].
    destruct (get_property data _) as [txs|]; [|reflexivity].
    unfold logical_or. destruct (ToBoolean txs) eqn:Ht; [exact Ht|reflexivity].
  - eexists _, _. split; reflexivity.
Qed.

(** X19. [fetchBalance] never throws.  For a wallet without an address
    (no wallet, no [address] property, or a falsy one) it does nothing:
    no request is sent and the state is untouched.  Otherwise it sets
    the balance to what [getWalletBalance] returned for that address,
    ends with [balanceLoading] off, and leaves the storage and the rest
    of the state alone. *)
Theorem fetchBalance_settles (v : JsValue) (s : Screen) (w : World) :
  (ToBoolean (optional_address v) = false ->
   fetchBalance v s w = (Returned tt, s, w))
  /\ (ToBoolean (optional_address v) = true ->
      exists amount w',
        fetchBalance v s w
        = (Returned tt,
           mkScreen (wallet s) amount (loading s) false (showMnemonic s)
                    (showImport s) (mnemonicInput s) (transactions s) (alerts s),
           w')
        /\ storage w' = storage w
        /\ (forall address, optional_address v = JString address ->
                            getWalletBalance address w = (Returned amount, w'))).
Proof.
  unfold fetchBalance. split; intros ->; [reflexivity|]. cbn [negb].
  run_handler.
  destruct (getWalletBalance_of_run (optional_address v) w) as (amount & evs & Hrun).
  rewrite Hrun. eexists _, _. split; [reflexivity|]. split; [reflexivity|].
  intros address Ha. rewrite Ha in Hrun. exact Hrun.
Qed.

(** X20. [fetchTransactions] never throws.  For a wallet without an
    address it does nothing; otherwise it sets the transactions to what
    [getTransactionHistory] returned for that address, a value that is
    never falsy, and leaves the storage and the rest of the state
    alone. *)
Theorem fetchTransactions_settles (v : JsValue) (s : Screen) (w : World) :
  (ToBoolean (optional_address v) = false ->
   fetchTransactions v s w = (Returned tt, s, w))
  /\ (ToBoolean (optional_address v) = true ->
      exists txs w',
        fetchTransactions v s w
        = (Returned tt,
           mkScreen (wallet s) (balance s) (loading s) (balanceLoading s)
                    (showMnemonic s) (showImport s) (mnemonicInput s) txs (alerts s),
           w')
        /\ storage w' = storage w
        /\ ToBoolean txs = true
        /\ (forall address, optional_address v = JString address ->
                            getTransactionHistory address w = (Returned txs, w'))).
Proof.
  unfold fetchTransactions. split; intros ->; [reflexivity|]. cbn [negb].
  run_handler.
  destruct (getTransactionHistory_of_run (optional_address v) w)
    as (txs & evs & Hrun & Htxs).
  rewrite Hrun. eexists _, _. split; [reflexivity|]. split; [reflexivity|].
  split; [exact Htxs|].
  intros address Ha. rewrite Ha in Hrun. exact Hrun.
Qed.


(** The rows of a list: one a transaction, in order, each with the
    [hash] of its transaction. *)
Lemma transaction_rows_each (txs : list JsValue) (rows : list Row) :
  transaction_rows txs = Returned rows ->
  Forall2 (fun tx row => get_property tx (lit "hash") = inl (row_hash row)) txs rows.
Proof.
  revert rows. induction txs as [|tx txs IH]; intros rows.
  - intros [= <-]. constructor.
  - cbn [transaction_rows]. destruct (transaction_row tx) as [row|e] eqn:Hrow;
      [|discriminate].
    destruct (transaction_rows txs) as [rest|e]; [|discriminate].
    intros [= <-]. constructor; [|now apply IH].
    unfold transaction_row in Hrow.
    destruct (get_property tx (lit "hash")) as [hash|]; [|discriminate].
    destruct (get_property tx (lit "confirmed")); [|discriminate].
    destruct (get_property tx (lit "received")); [|discriminate].
    destruct (ToPrimitive _); [|discriminate].
    now injection Hrow as <-.
Qed.

(** X21. When the list of transactions renders, it shows the first
    five transactions of the list and no more, in the order of the
    list, each row with the [hash] of its transaction, which is a
    valid child; it says that there is none exactly when the list is
    empty. *)
Theorem recent_transactions_first_five (txs : list JsValue) (shown : TransactionList) :
  recent_transactions (JArray txs) = Returned shown ->
  match shown with
  | NoTransactionsYet => txs = []
  | Rows rows =>
      txs <> []
      /\ length rows = Nat.min 5 (length txs)
      /\ Forall2 (fun tx row => get_property tx (lit "hash") = inl (row_hash row))
                 (firstn 5 txs) rows
      /\ Forall (fun row => valid_child (row_hash row) = true) rows
  end.
Proof.
  destruct txs as [|tx txs]; [now intros [= <-]|].
  unfold recent_transactions.
  destruct (transaction_rows (firstn 5 (tx :: txs))) as [rows|e] eqn:Hrows;
    [|discriminate].
  destruct (forallb _ rows) eqn:Hvalid; [|discriminate].
  intros [= <-]. apply transaction_rows_each in Hrows.
  split; [discriminate|]. split; [|split; [exact Hrows|]].
  - apply Forall2_length in Hrows. rewrite <- Hrows. apply length_firstn.
  - apply List.Forall_forall. intros row Hrow.
    rewrite forallb_forall in Hvalid. now apply Hvalid.
Qed.

(** X22. The list of transactions is rendered for a list only: on any
    other truthy value but an object whose [length] is 0 the render
    throws a TypeError. *)
Theorem recent_transactions_needs_a_list (v : JsValue) :
  ToBoolean v = true ->
  (forall txs, v <> JArray txs) ->
  (forall props, v = JObject props ->
                 forall f, own_property props (lit "length") = Some (JNumber f) ->
                           PrimFloat.eqb f 0%float = false) ->
  exists message, recent_transactions v = Thrown (TypeError message).
Proof.
  intros Hv Harray Hobject.
  destruct v as [| |b|f|[|c text]|txs|props]; try discriminate;
    try (eexists; reflexivity).
  - now destruct (Harray txs).
  - cbn. destruct (own_property props (lit "length")) as [[| | |f| | |]|] eqn:Hl;
      try (eexists; reflexivity).
    rewrite (Hobject props eq_refl f Hl). eexists. reflexivity.
Qed.

End ScreenProperties.

(** X14, witness: two words, with spaces around them, typed on the
    first screen. *)
Lemma handleImportWallet_failure_witness :
  trim (lit " abandon about ") <> []
  /\ @importWalletFromMnemonic reference (trim (lit " abandon about ")) fresh_world
     = (Thrown (Error "Invalid mnemonic phrase"), fresh_world)
  /\ (@WalletScreen.handleImportWallet reference (lit " abandon about ")
        WalletScreen.initial fresh_world
      = (Returned tt,
         WalletScreen.mkScreen JNull 0%float false false false false [] (JArray [])
           [WalletScreen.mkAlert "Error" "Invalid mnemonic phrase" []],
         after_lookup fresh_world
           [EvConsoleError "Error importing wallet:" (Error "Invalid mnemonic phrase")])
      /\ storage fresh_world = storage fresh_world
      /\ (@bip39_validateMnemonic reference (trim (lit " abandon about ")) = false ->
          fresh_world = fresh_world
          /\ WalletScreen.message_or (Error "Invalid mnemonic phrase")
               "Failed to import wallet. Please check your mnemonic phrase."
             = "Invalid mnemonic phrase"%string)).
Proof.
  assert (H1 : trim (lit " abandon about ") <> []) by (vm_compute; discriminate).
  assert (H2 : @importWalletFromMnemonic reference (trim (lit " abandon about "))
                 fresh_world
               = (Thrown (Error "Invalid mnemonic phrase"), fresh_world)).
  { apply (@importWalletFromMnemonic_refuses reference). vm_compute. reflexivity. }
  split; [exact H1|]. split; [exact H2|].
  exact (@handleImportWallet_failure reference (lit " abandon about ")
           WalletScreen.initial fresh_world fresh_world _ H1 H2).
Defined.

(** X21, witness: six transactions, five rows. *)
Lemma recent_transactions_first_five_witness :
  @WalletScreen.recent_transactions sample_builtins (JArray six_transactions)
  = Returned (WalletScreen.Rows five_rows)
  /\ (six_transactions <> []
      /\ length five_rows = Nat.min 5 (length six_transactions)
      /\ Forall2 (fun tx row => get_property tx (lit "hash")
                                = inl (WalletScreen.row_hash row))
                 (firstn 5 six_transactions) five_rows
      /\ Forall (fun row => WalletScreen.valid_child (WalletScreen.row_hash row) = true)
                five_rows).
Proof.
  assert (H : @WalletScreen.recent_transactions sample_builtins (JArray six_transactions)
              = Returned (WalletScreen.Rows five_rows))
    by (vm_compute; reflexivity).
  split; [exact H|].
  exact (@recent_transactions_first_five sample_builtins six_transactions _ H).
Defined.

(** X22, witness: the number 5, which [getTransactionHistory] hands
    back for the payload whose [txs] is 5. *)
Lemma recent_transactions_needs_a_list_witness :
  ToBoolean (JNumber 5%float) = true
  /\ (forall txs, JNumber 5%float <> JArray txs)
  /\ (forall props, JNumber 5%float = JObject props ->
        forall f, own_property props (lit "length") = Some (JNumber f) ->
                  PrimFloat.eqb f 0%float = false)
  /\ exists message,
       @WalletScreen.recent_transactions sample_builtins (JNumber 5%float)
       = Thrown (TypeError message).
Proof.
  assert (H1 : ToBoolean (JNumber 5%float) = true) by (vm_compute; reflexivity).
  assert (H2 : forall txs, JNumber 5%float <> JArray txs) by discriminate.
  assert (H3 : forall props, JNumber 5%float = JObject props ->
                 forall f, own_property props (lit "length") = Some (JNumber f) ->
                           PrimFloat.eqb f 0%float = false) by discriminate.
  split; [exact H1|]. split; [exact H2|]. split; [exact H3|].
  exact (@recent_transactions_needs_a_list sample_builtins (JNumber 5%float) H1 H2 H3).
Defined.
